(** * Relinking and validation core of the Excel-to-Brightway LCI importer

    A shallow embedding of [import_lci_bw2.py] (the Brightway 2.5 variant
    [import_lci_bw25.py] has the same relinking and validation functions,
    line for line) and the properties its specification states about it.

    - Python values that travel through exchange and dataset dictionaries
      are the inductive [pyval]; dictionaries are [gmap string pyval].
    - Python [str] is modelled twice.  [PyUnicode] has the strings of all
      code points, with [strip], [lower] and [split] as CPython defines
      them; the normalizer is stated there.  Names, units and keys in
      dictionaries are values of [string], whose characters are the code
      points below 256: [PyStr] is [PyUnicode] on that range.
    - [float] is the IEEE 754 model [spec_float] of the Standard Library.
    - Built-ins the code calls but the repository does not define
      ([str()] on arbitrary values, [hashlib.md5]) are section variables. *)

From Stdlib Require Import ZArith NArith Ascii String List.
From Stdlib Require Import Floats.SpecFloat.
From stdpp Require Import gmap strings list fin_maps.

Set Warnings "-register-all".

(** ** Python strings *)

Module PyStr.

(** Code point of a character. *)
Definition ord (c : ascii) : N := N_of_ascii c.

(** [str.isspace] on one character, for code points below 256:
    TAB..CR, FS..US, SPACE, NEL and NBSP. *)
Definition isspace (c : ascii) : bool :=
  let n := ord c in
  ((9 <=? n) && (n <=? 13) || (28 <=? n) && (n <=? 32)
   || (n =? 133) || (n =? 160))%N.

(** [str.lower] on one character, for code points below 256: A..Z and the
    Latin-1 capitals (all of U+00C0..U+00DE but the multiplication sign)
    move up by 32. *)
Definition lower_char (c : ascii) : ascii :=
  let n := ord c in
  if ((65 <=? n) && (n <=? 90)
      || (192 <=? n) && (n <=? 222) && negb (n =? 215))%N
  then ascii_of_N (n + 32) else c.

Fixpoint lstrip (l : list ascii) : list ascii :=
  match l with
  | c :: r => if isspace c then lstrip r else l
  | [] => []
  end.

Fixpoint rstrip (l : list ascii) : list ascii :=
  match l with
  | [] => []
  | c :: r =>
      match rstrip r with
      | [] => if isspace c then [] else [c]
      | r' => c :: r'
      end
  end.

(** [s.strip()] *)
Definition strip (l : list ascii) : list ascii := rstrip (lstrip l).

(** [s.lower()] *)
Definition lower (l : list ascii) : list ascii := map lower_char l.

(** [s.split()] without a separator: the maximal runs of characters that
    are not white space, in order; no empty word is produced. *)
Fixpoint split (l : list ascii) : list (list ascii) :=
  match l with
  | [] => []
  | c :: r =>
      if isspace c then split r
      else match r with
           | [] => [[c]]
           | d :: _ =>
               if isspace d then [c] :: split r
               else match split r with
                    | w :: ws => (c :: w) :: ws
                    | [] => [[c]]
                    end
           end
  end.

(** [sep.join(ws)] *)
Fixpoint join (sep : list ascii) (ws : list (list ascii)) : list ascii :=
  match ws with
  | [] => []
  | [w] => w
  | w :: ws' => w ++ sep ++ join sep ws'
  end.

Definition norm_chars (l : list ascii) : list ascii :=
  join [" "%char] (split (lower (strip l))).

(** A word: not empty, no white space. *)
Definition word (w : list ascii) : Prop :=
  w ≠ [] ∧ Forall (fun c => isspace c = false) w.

(** Whether a string begins inside a word. *)
Definition starts_word (l : list ascii) : bool :=
  match l with
  | d :: _ => negb (isspace d)
  | [] => false
  end.

End PyStr.

(** [_norm(s)]: [" ".join(s.strip().lower().split())]. *)
Definition _norm (s : string) : string :=
  string_of_list_ascii (PyStr.norm_chars (list_ascii_of_string s)).

(** Two strings that differ in letter case only: same length, and
    character by character the same after lower-casing. *)
Definition same_up_to_case (s t : string) : Prop :=
  Forall2 (fun a b => PyStr.lower_char a = PyStr.lower_char b)
          (list_ascii_of_string s) (list_ascii_of_string t).

(** A string made of white space only (possibly empty). *)
Definition all_space (s : string) : Prop :=
  Forall (fun c => PyStr.isspace c = true) (list_ascii_of_string s).


(** ** Python strings on all code points

    [str.strip], [str.lower] and [str.split] as CPython defines them on
    every code point, with the tables of its Unicode database (version
    14.0.0, the one of CPython 3.11).  A string is the list of its code
    points.  [PyStr] above is the restriction of this module to the code
    points below 256 (theorem [norm_latin1] below). *)

Module PyUnicode.

#[local] Open Scope N_scope.

(** The code points for which [str.isspace] holds; [strip] and [split]
    use the same set. *)
Definition whitespace : list N :=
  [0x9; 0xa; 0xb; 0xc; 0xd; 0x1c; 0x1d; 0x1e; 0x1f; 0x20;
   0x85; 0xa0; 0x1680; 0x2000; 0x2001; 0x2002; 0x2003; 0x2004; 0x2005; 0x2006;
   0x2007; 0x2008; 0x2009; 0x200a; 0x2028; 0x2029; 0x202f; 0x205f; 0x3000].

Definition isspace (c : N) : bool := existsb (N.eqb c) whitespace.

(** The lowercase mapping of the code points that have one, as runs
    (first, count, stride, image of first): the code points first,
    first + stride, ... (count of them) map to image, image + stride,
    ...  *)
Definition lower_runs : list (N * N * N * N) :=
  [(0x41, 26, 1, 0x61); (0xc0, 23, 1, 0xe0); (0xd8, 7, 1, 0xf8);
   (0x100, 24, 2, 0x101); (0x132, 3, 2, 0x133); (0x139, 8, 2, 0x13a);
   (0x14a, 23, 2, 0x14b); (0x178, 1, 1, 0xff); (0x179, 3, 2, 0x17a);
   (0x181, 1, 1, 0x253); (0x182, 2, 2, 0x183); (0x186, 1, 1, 0x254);
   (0x187, 1, 1, 0x188); (0x189, 2, 1, 0x256); (0x18b, 1, 1, 0x18c);
   (0x18e, 1, 1, 0x1dd); (0x18f, 1, 1, 0x259); (0x190, 1, 1, 0x25b);
   (0x191, 1, 1, 0x192); (0x193, 1, 1, 0x260); (0x194, 1, 1, 0x263);
   (0x196, 1, 1, 0x269); (0x197, 1, 1, 0x268); (0x198, 1, 1, 0x199);
   (0x19c, 1, 1, 0x26f); (0x19d, 1, 1, 0x272); (0x19f, 1, 1, 0x275);
   (0x1a0, 3, 2, 0x1a1); (0x1a6, 1, 1, 0x280); (0x1a7, 1, 1, 0x1a8);
   (0x1a9, 1, 1, 0x283); (0x1ac, 1, 1, 0x1ad); (0x1ae, 1, 1, 0x288);
   (0x1af, 1, 1, 0x1b0); (0x1b1, 2, 1, 0x28a); (0x1b3, 2, 2, 0x1b4);
   (0x1b7, 1, 1, 0x292); (0x1b8, 1, 1, 0x1b9); (0x1bc, 1, 1, 0x1bd);
   (0x1c4, 1, 1, 0x1c6); (0x1c5, 1, 1, 0x1c6); (0x1c7, 1, 1, 0x1c9);
   (0x1c8, 1, 1, 0x1c9); (0x1ca, 1, 1, 0x1cc); (0x1cb, 9, 2, 0x1cc);
   (0x1de, 9, 2, 0x1df); (0x1f1, 1, 1, 0x1f3); (0x1f2, 2, 2, 0x1f3);
   (0x1f6, 1, 1, 0x195); (0x1f7, 1, 1, 0x1bf); (0x1f8, 20, 2, 0x1f9);
   (0x220, 1, 1, 0x19e); (0x222, 9, 2, 0x223); (0x23a, 1, 1, 0x2c65);
   (0x23b, 1, 1, 0x23c); (0x23d, 1, 1, 0x19a); (0x23e, 1, 1, 0x2c66);
   (0x241, 1, 1, 0x242); (0x243, 1, 1, 0x180); (0x244, 1, 1, 0x289);
   (0x245, 1, 1, 0x28c); (0x246, 5, 2, 0x247); (0x370, 2, 2, 0x371);
   (0x376, 1, 1, 0x377); (0x37f, 1, 1, 0x3f3); (0x386, 1, 1, 0x3ac);
   (0x388, 3, 1, 0x3ad); (0x38c, 1, 1, 0x3cc); (0x38e, 2, 1, 0x3cd);
   (0x391, 17, 1, 0x3b1); (0x3a3, 9, 1, 0x3c3); (0x3cf, 1, 1, 0x3d7);
   (0x3d8, 12, 2, 0x3d9); (0x3f4, 1, 1, 0x3b8); (0x3f7, 1, 1, 0x3f8);
   (0x3f9, 1, 1, 0x3f2); (0x3fa, 1, 1, 0x3fb); (0x3fd, 3, 1, 0x37b);
   (0x400, 16, 1, 0x450); (0x410, 32, 1, 0x430); (0x460, 17, 2, 0x461);
   (0x48a, 27, 2, 0x48b); (0x4c0, 1, 1, 0x4cf); (0x4c1, 7, 2, 0x4c2);
   (0x4d0, 48, 2, 0x4d1); (0x531, 38, 1, 0x561); (0x10a0, 38, 1, 0x2d00);
   (0x10c7, 1, 1, 0x2d27); (0x10cd, 1, 1, 0x2d2d); (0x13a0, 80, 1, 0xab70);
   (0x13f0, 6, 1, 0x13f8); (0x1c90, 43, 1, 0x10d0); (0x1cbd, 3, 1, 0x10fd);
   (0x1e00, 75, 2, 0x1e01); (0x1e9e, 1, 1, 0xdf); (0x1ea0, 48, 2, 0x1ea1);
   (0x1f08, 8, 1, 0x1f00); (0x1f18, 6, 1, 0x1f10); (0x1f28, 8, 1, 0x1f20);
   (0x1f38, 8, 1, 0x1f30); (0x1f48, 6, 1, 0x1f40); (0x1f59, 4, 2, 0x1f51);
   (0x1f68, 8, 1, 0x1f60); (0x1f88, 8, 1, 0x1f80); (0x1f98, 8, 1, 0x1f90);
   (0x1fa8, 8, 1, 0x1fa0); (0x1fb8, 2, 1, 0x1fb0); (0x1fba, 2, 1, 0x1f70);
   (0x1fbc, 1, 1, 0x1fb3); (0x1fc8, 4, 1, 0x1f72); (0x1fcc, 1, 1, 0x1fc3);
   (0x1fd8, 2, 1, 0x1fd0); (0x1fda, 2, 1, 0x1f76); (0x1fe8, 2, 1, 0x1fe0);
   (0x1fea, 2, 1, 0x1f7a); (0x1fec, 1, 1, 0x1fe5); (0x1ff8, 2, 1, 0x1f78);
   (0x1ffa, 2, 1, 0x1f7c); (0x1ffc, 1, 1, 0x1ff3); (0x2126, 1, 1, 0x3c9);
   (0x212a, 1, 1, 0x6b); (0x212b, 1, 1, 0xe5); (0x2132, 1, 1, 0x214e);
   (0x2160, 16, 1, 0x2170); (0x2183, 1, 1, 0x2184); (0x24b6, 26, 1, 0x24d0);
   (0x2c00, 48, 1, 0x2c30); (0x2c60, 1, 1, 0x2c61); (0x2c62, 1, 1, 0x26b);
   (0x2c63, 1, 1, 0x1d7d); (0x2c64, 1, 1, 0x27d); (0x2c67, 3, 2, 0x2c68);
   (0x2c6d, 1, 1, 0x251); (0x2c6e, 1, 1, 0x271); (0x2c6f, 1, 1, 0x250);
   (0x2c70, 1, 1, 0x252); (0x2c72, 1, 1, 0x2c73); (0x2c75, 1, 1, 0x2c76);
   (0x2c7e, 2, 1, 0x23f); (0x2c80, 50, 2, 0x2c81); (0x2ceb, 2, 2, 0x2cec);
   (0x2cf2, 1, 1, 0x2cf3); (0xa640, 23, 2, 0xa641); (0xa680, 14, 2, 0xa681);
   (0xa722, 7, 2, 0xa723); (0xa732, 31, 2, 0xa733); (0xa779, 2, 2, 0xa77a);
   (0xa77d, 1, 1, 0x1d79); (0xa77e, 5, 2, 0xa77f); (0xa78b, 1, 1, 0xa78c);
   (0xa78d, 1, 1, 0x265); (0xa790, 2, 2, 0xa791); (0xa796, 10, 2, 0xa797);
   (0xa7aa, 1, 1, 0x266); (0xa7ab, 1, 1, 0x25c); (0xa7ac, 1, 1, 0x261);
   (0xa7ad, 1, 1, 0x26c); (0xa7ae, 1, 1, 0x26a); (0xa7b0, 1, 1, 0x29e);
   (0xa7b1, 1, 1, 0x287); (0xa7b2, 1, 1, 0x29d); (0xa7b3, 1, 1, 0xab53);
   (0xa7b4, 8, 2, 0xa7b5); (0xa7c4, 1, 1, 0xa794); (0xa7c5, 1, 1, 0x282);
   (0xa7c6, 1, 1, 0x1d8e); (0xa7c7, 2, 2, 0xa7c8); (0xa7d0, 1, 1, 0xa7d1);
   (0xa7d6, 2, 2, 0xa7d7); (0xa7f5, 1, 1, 0xa7f6); (0xff21, 26, 1, 0xff41);
   (0x10400, 40, 1, 0x10428); (0x104b0, 36, 1, 0x104d8); (0x10570, 11, 1, 0x10597);
   (0x1057c, 15, 1, 0x105a3); (0x1058c, 7, 1, 0x105b3); (0x10594, 2, 1, 0x105bb);
   (0x10c80, 51, 1, 0x10cc0); (0x118a0, 32, 1, 0x118c0); (0x16e40, 32, 1, 0x16e60);
   (0x1e900, 34, 1, 0x1e922)].

(** The code points with the property Cased, as closed ranges. *)
Definition cased_ranges : list (N * N) :=
  [(0x41, 0x5a); (0x61, 0x7a); (0xaa, 0xaa); (0xb5, 0xb5);
   (0xba, 0xba); (0xc0, 0xd6); (0xd8, 0xf6); (0xf8, 0x1ba);
   (0x1bc, 0x1bf); (0x1c4, 0x293); (0x295, 0x2b8); (0x2c0, 0x2c1);
   (0x2e0, 0x2e4); (0x345, 0x345); (0x370, 0x373); (0x376, 0x377);
   (0x37a, 0x37d); (0x37f, 0x37f); (0x386, 0x386); (0x388, 0x38a);
   (0x38c, 0x38c); (0x38e, 0x3a1); (0x3a3, 0x3f5); (0x3f7, 0x481);
   (0x48a, 0x52f); (0x531, 0x556); (0x560, 0x588); (0x10a0, 0x10c5);
   (0x10c7, 0x10c7); (0x10cd, 0x10cd); (0x10d0, 0x10fa); (0x10fd, 0x10ff);
   (0x13a0, 0x13f5); (0x13f8, 0x13fd); (0x1c80, 0x1c88); (0x1c90, 0x1cba);
   (0x1cbd, 0x1cbf); (0x1d00, 0x1dbf); (0x1e00, 0x1f15); (0x1f18, 0x1f1d);
   (0x1f20, 0x1f45); (0x1f48, 0x1f4d); (0x1f50, 0x1f57); (0x1f59, 0x1f59);
   (0x1f5b, 0x1f5b); (0x1f5d, 0x1f5d); (0x1f5f, 0x1f7d); (0x1f80, 0x1fb4);
   (0x1fb6, 0x1fbc); (0x1fbe, 0x1fbe); (0x1fc2, 0x1fc4); (0x1fc6, 0x1fcc);
   (0x1fd0, 0x1fd3); (0x1fd6, 0x1fdb); (0x1fe0, 0x1fec); (0x1ff2, 0x1ff4);
   (0x1ff6, 0x1ffc); (0x2071, 0x2071); (0x207f, 0x207f); (0x2090, 0x209c);
   (0x2102, 0x2102); (0x2107, 0x2107); (0x210a, 0x2113); (0x2115, 0x2115);
   (0x2119, 0x211d); (0x2124, 0x2124); (0x2126, 0x2126); (0x2128, 0x2128);
   (0x212a, 0x212d); (0x212f, 0x2134); (0x2139, 0x2139); (0x213c, 0x213f);
   (0x2145, 0x2149); (0x214e, 0x214e); (0x2160, 0x217f); (0x2183, 0x2184);
   (0x24b6, 0x24e9); (0x2c00, 0x2ce4); (0x2ceb, 0x2cee); (0x2cf2, 0x2cf3);
   (0x2d00, 0x2d25); (0x2d27, 0x2d27); (0x2d2d, 0x2d2d); (0xa640, 0xa66d);
   (0xa680, 0xa69d); (0xa722, 0xa787); (0xa78b, 0xa78e); (0xa790, 0xa7ca);
   (0xa7d0, 0xa7d1); (0xa7d3, 0xa7d3); (0xa7d5, 0xa7d9); (0xa7f5, 0xa7f6);
   (0xa7f8, 0xa7fa); (0xab30, 0xab5a); (0xab5c, 0xab68); (0xab70, 0xabbf);
   (0xfb00, 0xfb06); (0xfb13, 0xfb17); (0xff21, 0xff3a); (0xff41, 0xff5a);
   (0x10400, 0x1044f); (0x104b0, 0x104d3); (0x104d8, 0x104fb); (0x10570, 0x1057a);
   (0x1057c, 0x1058a); (0x1058c, 0x10592); (0x10594, 0x10595); (0x10597, 0x105a1);
   (0x105a3, 0x105b1); (0x105b3, 0x105b9); (0x105bb, 0x105bc); (0x10780, 0x10780);
   (0x10783, 0x10785); (0x10787, 0x107b0); (0x107b2, 0x107ba); (0x10c80, 0x10cb2);
   (0x10cc0, 0x10cf2); (0x118a0, 0x118df); (0x16e40, 0x16e7f); (0x1d400, 0x1d454);
   (0x1d456, 0x1d49c); (0x1d49e, 0x1d49f); (0x1d4a2, 0x1d4a2); (0x1d4a5, 0x1d4a6);
   (0x1d4a9, 0x1d4ac); (0x1d4ae, 0x1d4b9); (0x1d4bb, 0x1d4bb); (0x1d4bd, 0x1d4c3);
   (0x1d4c5, 0x1d505); (0x1d507, 0x1d50a); (0x1d50d, 0x1d514); (0x1d516, 0x1d51c);
   (0x1d51e, 0x1d539); (0x1d53b, 0x1d53e); (0x1d540, 0x1d544); (0x1d546, 0x1d546);
   (0x1d54a, 0x1d550); (0x1d552, 0x1d6a5); (0x1d6a8, 0x1d6c0); (0x1d6c2, 0x1d6da);
   (0x1d6dc, 0x1d6fa); (0x1d6fc, 0x1d714); (0x1d716, 0x1d734); (0x1d736, 0x1d74e);
   (0x1d750, 0x1d76e); (0x1d770, 0x1d788); (0x1d78a, 0x1d7a8); (0x1d7aa, 0x1d7c2);
   (0x1d7c4, 0x1d7cb); (0x1df00, 0x1df09); (0x1df0b, 0x1df1e); (0x1e900, 0x1e943);
   (0x1f130, 0x1f149); (0x1f150, 0x1f169); (0x1f170, 0x1f189)].

(** The code points with the property Case_Ignorable, as closed ranges. *)
Definition case_ignorable_ranges : list (N * N) :=
  [(0x27, 0x27); (0x2e, 0x2e); (0x3a, 0x3a); (0x5e, 0x5e);
   (0x60, 0x60); (0xa8, 0xa8); (0xad, 0xad); (0xaf, 0xaf);
   (0xb4, 0xb4); (0xb7, 0xb8); (0x2b0, 0x36f); (0x374, 0x375);
   (0x37a, 0x37a); (0x384, 0x385); (0x387, 0x387); (0x483, 0x489);
   (0x559, 0x559); (0x55f, 0x55f); (0x591, 0x5bd); (0x5bf, 0x5bf);
   (0x5c1, 0x5c2); (0x5c4, 0x5c5); (0x5c7, 0x5c7); (0x5f4, 0x5f4);
   (0x600, 0x605); (0x610, 0x61a); (0x61c, 0x61c); (0x640, 0x640);
   (0x64b, 0x65f); (0x670, 0x670); (0x6d6, 0x6dd); (0x6df, 0x6e8);
   (0x6ea, 0x6ed); (0x70f, 0x70f); (0x711, 0x711); (0x730, 0x74a);
   (0x7a6, 0x7b0); (0x7eb, 0x7f5); (0x7fa, 0x7fa); (0x7fd, 0x7fd);
   (0x816, 0x82d); (0x859, 0x85b); (0x888, 0x888); (0x890, 0x891);
   (0x898, 0x89f); (0x8c9, 0x902); (0x93a, 0x93a); (0x93c, 0x93c);
   (0x941, 0x948); (0x94d, 0x94d); (0x951, 0x957); (0x962, 0x963);
   (0x971, 0x971); (0x981, 0x981); (0x9bc, 0x9bc); (0x9c1, 0x9c4);
   (0x9cd, 0x9cd); (0x9e2, 0x9e3); (0x9fe, 0x9fe); (0xa01, 0xa02);
   (0xa3c, 0xa3c); (0xa41, 0xa42); (0xa47, 0xa48); (0xa4b, 0xa4d);
   (0xa51, 0xa51); (0xa70, 0xa71); (0xa75, 0xa75); (0xa81, 0xa82);
   (0xabc, 0xabc); (0xac1, 0xac5); (0xac7, 0xac8); (0xacd, 0xacd);
   (0xae2, 0xae3); (0xafa, 0xaff); (0xb01, 0xb01); (0xb3c, 0xb3c);
   (0xb3f, 0xb3f); (0xb41, 0xb44); (0xb4d, 0xb4d); (0xb55, 0xb56);
   (0xb62, 0xb63); (0xb82, 0xb82); (0xbc0, 0xbc0); (0xbcd, 0xbcd);
   (0xc00, 0xc00); (0xc04, 0xc04); (0xc3c, 0xc3c); (0xc3e, 0xc40);
   (0xc46, 0xc48); (0xc4a, 0xc4d); (0xc55, 0xc56); (0xc62, 0xc63);
   (0xc81, 0xc81); (0xcbc, 0xcbc); (0xcbf, 0xcbf); (0xcc6, 0xcc6);
   (0xccc, 0xccd); (0xce2, 0xce3); (0xd00, 0xd01); (0xd3b, 0xd3c);
   (0xd41, 0xd44); (0xd4d, 0xd4d); (0xd62, 0xd63); (0xd81, 0xd81);
   (0xdca, 0xdca); (0xdd2, 0xdd4); (0xdd6, 0xdd6); (0xe31, 0xe31);
   (0xe34, 0xe3a); (0xe46, 0xe4e); (0xeb1, 0xeb1); (0xeb4, 0xebc);
   (0xec6, 0xec6); (0xec8, 0xecd); (0xf18, 0xf19); (0xf35, 0xf35);
   (0xf37, 0xf37); (0xf39, 0xf39); (0xf71, 0xf7e); (0xf80, 0xf84);
   (0xf86, 0xf87); (0xf8d, 0xf97); (0xf99, 0xfbc); (0xfc6, 0xfc6);
   (0x102d, 0x1030); (0x1032, 0x1037); (0x1039, 0x103a); (0x103d, 0x103e);
   (0x1058, 0x1059); (0x105e, 0x1060); (0x1071, 0x1074); (0x1082, 0x1082);
   (0x1085, 0x1086); (0x108d, 0x108d); (0x109d, 0x109d); (0x10fc, 0x10fc);
   (0x135d, 0x135f); (0x1712, 0x1714); (0x1732, 0x1733); (0x1752, 0x1753);
   (0x1772, 0x1773); (0x17b4, 0x17b5); (0x17b7, 0x17bd); (0x17c6, 0x17c6);
   (0x17c9, 0x17d3); (0x17d7, 0x17d7); (0x17dd, 0x17dd); (0x180b, 0x180f);
   (0x1843, 0x1843); (0x1885, 0x1886); (0x18a9, 0x18a9); (0x1920, 0x1922);
   (0x1927, 0x1928); (0x1932, 0x1932); (0x1939, 0x193b); (0x1a17, 0x1a18);
   (0x1a1b, 0x1a1b); (0x1a56, 0x1a56); (0x1a58, 0x1a5e); (0x1a60, 0x1a60);
   (0x1a62, 0x1a62); (0x1a65, 0x1a6c); (0x1a73, 0x1a7c); (0x1a7f, 0x1a7f);
   (0x1aa7, 0x1aa7); (0x1ab0, 0x1ace); (0x1b00, 0x1b03); (0x1b34, 0x1b34);
   (0x1b36, 0x1b3a); (0x1b3c, 0x1b3c); (0x1b42, 0x1b42); (0x1b6b, 0x1b73);
   (0x1b80, 0x1b81); (0x1ba2, 0x1ba5); (0x1ba8, 0x1ba9); (0x1bab, 0x1bad);
   (0x1be6, 0x1be6); (0x1be8, 0x1be9); (0x1bed, 0x1bed); (0x1bef, 0x1bf1);
   (0x1c2c, 0x1c33); (0x1c36, 0x1c37); (0x1c78, 0x1c7d); (0x1cd0, 0x1cd2);
   (0x1cd4, 0x1ce0); (0x1ce2, 0x1ce8); (0x1ced, 0x1ced); (0x1cf4, 0x1cf4);
   (0x1cf8, 0x1cf9); (0x1d2c, 0x1d6a); (0x1d78, 0x1d78); (0x1d9b, 0x1dff);
   (0x1fbd, 0x1fbd); (0x1fbf, 0x1fc1); (0x1fcd, 0x1fcf); (0x1fdd, 0x1fdf);
   (0x1fed, 0x1fef); (0x1ffd, 0x1ffe); (0x200b, 0x200f); (0x2018, 0x2019);
   (0x2024, 0x2024); (0x2027, 0x2027); (0x202a, 0x202e); (0x2060, 0x2064);
   (0x2066, 0x206f); (0x2071, 0x2071); (0x207f, 0x207f); (0x2090, 0x209c);
   (0x20d0, 0x20f0); (0x2c7c, 0x2c7d); (0x2cef, 0x2cf1); (0x2d6f, 0x2d6f);
   (0x2d7f, 0x2d7f); (0x2de0, 0x2dff); (0x2e2f, 0x2e2f); (0x3005, 0x3005);
   (0x302a, 0x302d); (0x3031, 0x3035); (0x303b, 0x303b); (0x3099, 0x309e);
   (0x30fc, 0x30fe); (0xa015, 0xa015); (0xa4f8, 0xa4fd); (0xa60c, 0xa60c);
   (0xa66f, 0xa672); (0xa674, 0xa67d); (0xa67f, 0xa67f); (0xa69c, 0xa69f);
   (0xa6f0, 0xa6f1); (0xa700, 0xa721); (0xa770, 0xa770); (0xa788, 0xa78a);
   (0xa7f2, 0xa7f4); (0xa7f8, 0xa7f9); (0xa802, 0xa802); (0xa806, 0xa806);
   (0xa80b, 0xa80b); (0xa825, 0xa826); (0xa82c, 0xa82c); (0xa8c4, 0xa8c5);
   (0xa8e0, 0xa8f1); (0xa8ff, 0xa8ff); (0xa926, 0xa92d); (0xa947, 0xa951);
   (0xa980, 0xa982); (0xa9b3, 0xa9b3); (0xa9b6, 0xa9b9); (0xa9bc, 0xa9bd);
   (0xa9cf, 0xa9cf); (0xa9e5, 0xa9e6); (0xaa29, 0xaa2e); (0xaa31, 0xaa32);
   (0xaa35, 0xaa36); (0xaa43, 0xaa43); (0xaa4c, 0xaa4c); (0xaa70, 0xaa70);
   (0xaa7c, 0xaa7c); (0xaab0, 0xaab0); (0xaab2, 0xaab4); (0xaab7, 0xaab8);
   (0xaabe, 0xaabf); (0xaac1, 0xaac1); (0xaadd, 0xaadd); (0xaaec, 0xaaed);
   (0xaaf3, 0xaaf4); (0xaaf6, 0xaaf6); (0xab5b, 0xab5f); (0xab69, 0xab6b);
   (0xabe5, 0xabe5); (0xabe8, 0xabe8); (0xabed, 0xabed); (0xfb1e, 0xfb1e);
   (0xfbb2, 0xfbc2); (0xfe00, 0xfe0f); (0xfe13, 0xfe13); (0xfe20, 0xfe2f);
   (0xfe52, 0xfe52); (0xfe55, 0xfe55); (0xfeff, 0xfeff); (0xff07, 0xff07);
   (0xff0e, 0xff0e); (0xff1a, 0xff1a); (0xff3e, 0xff3e); (0xff40, 0xff40);
   (0xff70, 0xff70); (0xff9e, 0xff9f); (0xffe3, 0xffe3); (0xfff9, 0xfffb);
   (0x101fd, 0x101fd); (0x102e0, 0x102e0); (0x10376, 0x1037a); (0x10780, 0x10785);
   (0x10787, 0x107b0); (0x107b2, 0x107ba); (0x10a01, 0x10a03); (0x10a05, 0x10a06);
   (0x10a0c, 0x10a0f); (0x10a38, 0x10a3a); (0x10a3f, 0x10a3f); (0x10ae5, 0x10ae6);
   (0x10d24, 0x10d27); (0x10eab, 0x10eac); (0x10f46, 0x10f50); (0x10f82, 0x10f85);
   (0x11001, 0x11001); (0x11038, 0x11046); (0x11070, 0x11070); (0x11073, 0x11074);
   (0x1107f, 0x11081); (0x110b3, 0x110b6); (0x110b9, 0x110ba); (0x110bd, 0x110bd);
   (0x110c2, 0x110c2); (0x110cd, 0x110cd); (0x11100, 0x11102); (0x11127, 0x1112b);
   (0x1112d, 0x11134); (0x11173, 0x11173); (0x11180, 0x11181); (0x111b6, 0x111be);
   (0x111c9, 0x111cc); (0x111cf, 0x111cf); (0x1122f, 0x11231); (0x11234, 0x11234);
   (0x11236, 0x11237); (0x1123e, 0x1123e); (0x112df, 0x112df); (0x112e3, 0x112ea);
   (0x11300, 0x11301); (0x1133b, 0x1133c); (0x11340, 0x11340); (0x11366, 0x1136c);
   (0x11370, 0x11374); (0x11438, 0x1143f); (0x11442, 0x11444); (0x11446, 0x11446);
   (0x1145e, 0x1145e); (0x114b3, 0x114b8); (0x114ba, 0x114ba); (0x114bf, 0x114c0);
   (0x114c2, 0x114c3); (0x115b2, 0x115b5); (0x115bc, 0x115bd); (0x115bf, 0x115c0);
   (0x115dc, 0x115dd); (0x11633, 0x1163a); (0x1163d, 0x1163d); (0x1163f, 0x11640);
   (0x116ab, 0x116ab); (0x116ad, 0x116ad); (0x116b0, 0x116b5); (0x116b7, 0x116b7);
   (0x1171d, 0x1171f); (0x11722, 0x11725); (0x11727, 0x1172b); (0x1182f, 0x11837);
   (0x11839, 0x1183a); (0x1193b, 0x1193c); (0x1193e, 0x1193e); (0x11943, 0x11943);
   (0x119d4, 0x119d7); (0x119da, 0x119db); (0x119e0, 0x119e0); (0x11a01, 0x11a0a);
   (0x11a33, 0x11a38); (0x11a3b, 0x11a3e); (0x11a47, 0x11a47); (0x11a51, 0x11a56);
   (0x11a59, 0x11a5b); (0x11a8a, 0x11a96); (0x11a98, 0x11a99); (0x11c30, 0x11c36);
   (0x11c38, 0x11c3d); (0x11c3f, 0x11c3f); (0x11c92, 0x11ca7); (0x11caa, 0x11cb0);
   (0x11cb2, 0x11cb3); (0x11cb5, 0x11cb6); (0x11d31, 0x11d36); (0x11d3a, 0x11d3a);
   (0x11d3c, 0x11d3d); (0x11d3f, 0x11d45); (0x11d47, 0x11d47); (0x11d90, 0x11d91);
   (0x11d95, 0x11d95); (0x11d97, 0x11d97); (0x11ef3, 0x11ef4); (0x13430, 0x13438);
   (0x16af0, 0x16af4); (0x16b30, 0x16b36); (0x16b40, 0x16b43); (0x16f4f, 0x16f4f);
   (0x16f8f, 0x16f9f); (0x16fe0, 0x16fe1); (0x16fe3, 0x16fe4); (0x1aff0, 0x1aff3);
   (0x1aff5, 0x1affb); (0x1affd, 0x1affe); (0x1bc9d, 0x1bc9e); (0x1bca0, 0x1bca3);
   (0x1cf00, 0x1cf2d); (0x1cf30, 0x1cf46); (0x1d167, 0x1d169); (0x1d173, 0x1d182);
   (0x1d185, 0x1d18b); (0x1d1aa, 0x1d1ad); (0x1d242, 0x1d244); (0x1da00, 0x1da36);
   (0x1da3b, 0x1da6c); (0x1da75, 0x1da75); (0x1da84, 0x1da84); (0x1da9b, 0x1da9f);
   (0x1daa1, 0x1daaf); (0x1e000, 0x1e006); (0x1e008, 0x1e018); (0x1e01b, 0x1e021);
   (0x1e023, 0x1e024); (0x1e026, 0x1e02a); (0x1e130, 0x1e13d); (0x1e2ae, 0x1e2ae);
   (0x1e2ec, 0x1e2ef); (0x1e8d0, 0x1e8d6); (0x1e944, 0x1e94b); (0x1f3fb, 0x1f3ff);
   (0xe0001, 0xe0001); (0xe0020, 0xe007f); (0xe0100, 0xe01ef)].

Definition in_run (c : N) (r : N * N * N * N) : bool :=
  let '(first, count, stride, _) := r in
  (first <=? c) && (c <? first + stride * count)
  && ((c - first) mod stride =? 0).

(** The lowercase mapping of one code point ([_PyUnicode_ToLowercase]). *)
Definition tolower (c : N) : N :=
  match find (in_run c) lower_runs with
  | Some (first, _, _, image) => image + (c - first)
  | None => c
  end.

(** [_PyUnicode_ToLowerFull]: U+0130 is the one code point whose
    lowercase has two code points. *)
Definition lower_full (c : N) : list N :=
  if c =? 0x130 then [0x69; 0x307] else [tolower c].

Definition in_ranges (c : N) (ranges : list (N * N)) : bool :=
  existsb (fun r => (r.1 <=? c) && (c <=? r.2)) ranges.

Definition cased (c : N) : bool := in_ranges c cased_ranges.

Definition case_ignorable (c : N) : bool :=
  in_ranges c case_ignorable_ranges.

Definition capital_sigma : N := 0x3a3.
Definition small_sigma : N := 0x3c3.
Definition final_small_sigma : N := 0x3c2.

Fixpoint skip_ignorable (l : list N) : list N :=
  match l with
  | c :: r => if case_ignorable c then skip_ignorable r else l
  | [] => []
  end.

(** [handle_capital_sigma]: a capital sigma is final when, case-ignorable
    code points apart, a cased one stands before it and none after it.
    [before] holds the code points before the sigma, the nearest first. *)
Definition final_sigma (before after : list N) : bool :=
  match skip_ignorable before with
  | c :: _ =>
      cased c
      && match skip_ignorable after with
         | d :: _ => negb (cased d)
         | [] => true
         end
  | [] => false
  end.

Fixpoint lower_from (before s : list N) : list N :=
  match s with
  | [] => []
  | c :: r =>
      (if c =? capital_sigma
       then [if final_sigma before r then final_small_sigma
             else small_sigma]
       else lower_full c)
      ++ lower_from (c :: before) r
  end.

(** [s.lower()] *)
Definition lower (s : list N) : list N := lower_from [] s.

Fixpoint lstrip (l : list N) : list N :=
  match l with
  | c :: r => if isspace c then lstrip r else l
  | [] => []
  end.

Fixpoint rstrip (l : list N) : list N :=
  match l with
  | [] => []
  | c :: r =>
      match rstrip r with
      | [] => if isspace c then [] else [c]
      | r' => c :: r'
      end
  end.

(** [s.strip()] *)
Definition strip (l : list N) : list N := rstrip (lstrip l).

(** [s.split()] without a separator. *)
Fixpoint split (l : list N) : list (list N) :=
  match l with
  | [] => []
  | c :: r =>
      if isspace c then split r
      else match r with
           | [] => [[c]]
           | d :: _ =>
               if isspace d then [c] :: split r
               else match split r with
                    | w :: ws => (c :: w) :: ws
                    | [] => [[c]]
                    end
           end
  end.

(** [sep.join(ws)] *)
Fixpoint join (sep : list N) (ws : list (list N)) : list N :=
  match ws with
  | [] => []
  | [w] => w
  | w :: ws' => w ++ sep ++ join sep ws'
  end.

(** [_norm(s)]: [" ".join(s.strip().lower().split())]. *)
Definition _norm (s : list N) : list N :=
  join [0x20] (split (lower (strip s))).

(** A word: not empty, no white space. *)
Definition word (w : list N) : Prop :=
  w ≠ [] ∧ Forall (fun c => isspace c = false) w.

Definition starts_word (l : list N) : bool :=
  match l with
  | d :: _ => negb (isspace d)
  | [] => false
  end.

(** Two strings that differ in letter case only: same length, and code
    point by code point the same lowercase mapping. *)
Definition same_up_to_case (s t : list N) : Prop :=
  Forall2 (fun a b => lower_full a = lower_full b) s t.

(** A string made of white space only (possibly empty). *)
Definition all_space (s : list N) : Prop :=
  Forall (fun c => isspace c = true) s.

(** A code point that [lower] leaves as it is, wherever it stands. *)
Definition lower_fixed (c : N) : Prop :=
  lower_full c = [c] ∧ c ≠ capital_sigma.

(** The pairs (code point, lowercase) a run stands for. *)
Definition run_pairs (r : N * N * N * N) : list (N * N) :=
  let '(first, count, stride, image) := r in
  map (fun k => (first + stride * N.of_nat k, image + stride * N.of_nat k))
    (seq 0 (N.to_nat count)).

Definition lower_pairs : list (N * N) := flat_map run_pairs lower_runs.

End PyUnicode.

(** The code points of a string of [PyStr]. *)
Definition codes (s : string) : list N :=
  map PyStr.ord (list_ascii_of_string s).


(** ** Python values *)

(** The values found in dataset and exchange dictionaries.  [bool] is kept
    apart from [int] although [isinstance(True, int)] holds in Python: see
    [_is_number].  Dictionaries have string keys, as every dictionary the
    importer handles has. *)
Inductive pyval : Type :=
| PNone
| PBool (b : bool)
| PInt (z : Z)
| PFloat (f : spec_float)
| PStr (s : string)
| PTuple (l : list pyval)
| PList (l : list pyval)
| PDict (d : gmap string pyval).

Abbreviation dict := (gmap string pyval).

(** [d.get(k)]: [None] when the key is absent. *)
Definition get (d : dict) (k : string) : pyval := default PNone (d !! k).

(** [isinstance(x, str) and x], returning the string when the test holds. *)
Definition nonempty_str (x : pyval) : option string :=
  match x with
  | PStr s => if decide (s = "") then None else Some s
  | _ => None
  end.

(** [x != s] and [x == s] for a string literal [s]. *)
Definition is_str (x : pyval) (s : string) : bool :=
  match x with
  | PStr t => bool_decide (t = s)
  | _ => false
  end.

(** Whether [hash(x)] succeeds: lists and dictionaries are unhashable, a
    tuple is hashable when its components are. *)
Fixpoint hashable (x : pyval) : bool :=
  match x with
  | PList _ | PDict _ => false
  | PTuple l => forallb hashable l
  | _ => true
  end.

(** A two-component tuple of strings, the form of a resolved reference. *)
Definition ref_tuple (k : string * string) : pyval :=
  PTuple [PStr k.1; PStr k.2].

(** A dataset of the importer payload: its own entries, and the value of
    [act.get("exchanges", []) or []], the list the loops iterate over. *)
Record activity : Type := Activity {
  act_fields : dict;
  exchanges : list pyval
}.

(** Reference databases as the relinking code reads them: [bd.databases]
    is the domain, and each registered name holds the rows that iterating
    [bd.Database(name)] yields, in iteration order. *)
Abbreviation brightway := (gmap string (list dict)).

Definition Database (bd : brightway) (db_name : string) : list dict :=
  default [] (bd !! db_name).

(** The custom biosphere side as [_get_or_create_custom_biosphere_flow]
    reads and writes it: for each registered name, the dictionary that
    [Database(name).load()] returns, keyed by (database, code). *)
Abbreviation flow_store := (gmap string (gmap (string * string) dict)).

(** ** Errors *)

Inductive error_kind : Type :=
| NonDictExchange
| MissingKeys (missing : list string)
| InvalidExchangeType
| NonNumericAmount
| InvalidInputFormat
| ProductionTarget (adb acode : string) (inp : pyval).

(** The exceptions the relinking and validation code can raise.  Every
    [ValueError] of the validator carries the dataset context
    [(adb, acode)] and the exchange it prints. *)
Inductive error : Type :=
| ValidationError (kind : error_kind) (ctx : pyval * pyval) (exc : pyval)
| UnhashableType (x : pyval)
| UnresolvedBiosphere (raw_name mapped_name : string) (cats : pyval)
    (unit : string).

Inductive result (A : Type) : Type :=
| Ok (a : A)
| Raise (e : error).

Arguments Ok {A} a.
Arguments Raise {A} e.

Definition bind {A B : Type} (r : result A) (k : A -> result B) : result B :=
  match r with
  | Ok a => k a
  | Raise e => Raise e
  end.

Notation "'try' x <- r 'in' k" := (bind r (fun x => k))
  (at level 10, x name, r at level 100, k at level 200).

(** A [for] loop whose body may raise and returns nothing. *)
Fixpoint for_each_check {A : Type} (body : A -> result unit) (l : list A)
  : result unit :=
  match l with
  | [] => Ok tt
  | x :: r => bind (body x) (fun _ => for_each_check body r)
  end.

(** A [for] loop that threads a state and updates the elements in place. *)
Fixpoint for_each {S A : Type} (body : S -> A -> S * A) (s : S) (l : list A)
  : S * list A :=
  match l with
  | [] => (s, [])
  | x :: r =>
      let '(s1, x') := body s x in
      let '(s2, r') := for_each body s1 r in
      (s2, x' :: r')
  end.

(** The same loop with a body that may raise. *)
Fixpoint for_each_r {S A : Type} (body : S -> A -> result (S * A)) (s : S)
  (l : list A) : result (S * list A) :=
  match l with
  | [] => Ok (s, [])
  | x :: r =>
      try p <- body s x in
      try q <- for_each_r body p.1 r in
      Ok (q.1, p.2 :: q.2)
  end.

(** ** Configuration *)

Record Config : Type := {
  custom_biosphere_db_name : string;
  allow_create_missing_biosphere_flows : bool;
  overwrite_metal_databases : bool
}.

Definition CFG : Config := {|
  custom_biosphere_db_name := "biosphere_custom";
  allow_create_missing_biosphere_flows := false;
  overwrite_metal_databases := true
|}.

(** The configuration with the creation of custom flows switched on. *)
Definition CFG_create : Config := {|
  custom_biosphere_db_name := custom_biosphere_db_name CFG;
  allow_create_missing_biosphere_flows := true;
  overwrite_metal_databases := overwrite_metal_databases CFG
|}.

(** ** Technosphere relinking *)

(** (name, reference product, location) *)
Definition _EIKey : Type := string * string * string.

Abbreviation ei_index := (gmap (string * string * string) (string * string)).

(** [_build_ecoinvent_index(db_name)] *)
Definition _build_ecoinvent_index (bd : brightway) (db_name : string)
  : ei_index :=
  foldl
    (fun idx act =>
       match nonempty_str (get act "name"),
             nonempty_str (get act "reference product"),
             nonempty_str (get act "location"),
             nonempty_str (get act "code") with
       | Some name, Some ref, Some loc, Some code =>
           <[(name, ref, loc) := (db_name, code)]> idx
       | _, _, _, _ => idx
       end)
    ∅ (Database bd db_name).

(** Body of the inner loop of [_fill_missing_technosphere_inputs]: the
    state is the local cache [indices] and the counter [fixed]. *)
Definition fill_technosphere_exchange (bd : brightway)
  (st : gmap string ei_index * nat) (exc : pyval)
  : (gmap string ei_index * nat) * pyval :=
  let '(indices, fixed) := st in
  match exc with
  | PDict e =>
      if negb (is_str (get e "type") "technosphere") then (st, exc)
      else if bool_decide (is_Some (e !! "input")) then (st, exc)
      else
        match nonempty_str (get e "database"), nonempty_str (get e "name"),
              nonempty_str (get e "reference product"),
              nonempty_str (get e "location") with
        | Some db_name, Some name, Some ref, Some loc =>
            if bool_decide (db_name ∉ dom bd) then (st, exc)
            else
              let indices1 :=
                match indices !! db_name with
                | None =>
                    <[db_name := _build_ecoinvent_index bd db_name]> indices
                | Some _ => indices
                end in
              match default ∅ (indices1 !! db_name) !! (name, ref, loc) with
              | Some hit =>
                  ((indices1, S fixed),
                   PDict (<["input" := ref_tuple hit]> e))
              | None => ((indices1, fixed), exc)
              end
        | _, _, _, _ => (st, exc)
        end
  | _ => (st, exc)
  end.

Definition fill_technosphere_activity (bd : brightway)
  (st : gmap string ei_index * nat) (act : activity)
  : (gmap string ei_index * nat) * activity :=
  let '(st1, excs) :=
    for_each (fill_technosphere_exchange bd) st (exchanges act) in
  (st1, Activity (act_fields act) excs).

(** The two nested loops, returning the final cache as well. *)
Definition fill_technosphere_loop (bd : brightway) (data : list activity)
  : (gmap string ei_index * nat) * list activity :=
  for_each (fill_technosphere_activity bd) (∅, 0) data.

(** [_fill_missing_technosphere_inputs(importer)]: the payload after the
    in-place updates, and the returned count. *)
Definition _fill_missing_technosphere_inputs (bd : brightway)
  (data : list activity) : list activity * nat :=
  let '((_, fixed), data1) := fill_technosphere_loop bd data in
  (data1, fixed).

(** ** Validation *)

(** [x != x] on a number. *)
Definition ne_self (x : pyval) : bool :=
  match x with
  | PBool b => negb (Bool.eqb b b)
  | PInt z => negb (z =? z)%Z
  | PFloat f => negb (SFeqb f f)
  | _ => false
  end.

(** [isinstance(x, (int, float))]; [bool] is a subclass of [int]. *)
Definition is_int_or_float (x : pyval) : bool :=
  match x with
  | PBool _ | PInt _ | PFloat _ => true
  | _ => false
  end.

(** [_is_number(x)] *)
Definition _is_number (x : pyval) : bool :=
  is_int_or_float x && negb (ne_self x).

(** A finite numeric value, in the words of the specification. *)
Definition is_finite_number (x : pyval) : bool :=
  match x with
  | PBool _ | PInt _ => true
  | PFloat (S754_zero _) | PFloat (S754_finite _ _ _) => true
  | _ => false
  end.

(** [isinstance(inp, tuple) and len(inp) == 2 and
     all(isinstance(i, str) and i for i in inp)] *)
Definition valid_input (inp : pyval) : option (string * string) :=
  match inp with
  | PTuple [a; b] =>
      match nonempty_str a, nonempty_str b with
      | Some da, Some co => Some (da, co)
      | _, _ => None
      end
  | _ => None
  end.

(** Body of the inner loop of [_validate_importer_payload]. *)
Definition validate_exchange (adb acode : pyval) (exc : pyval)
  : result unit :=
  let ctx := (adb, acode) in
  match exc with
  | PDict e =>
      match filter (fun k => e !! k = None) ["type"; "amount"; "input"] with
      | (_ :: _) as missing =>
          Raise (ValidationError (MissingKeys missing) ctx exc)
      | [] =>
          if negb (hashable (get e "type")) then
            Raise (UnhashableType (get e "type"))
          else if negb (is_str (get e "type") "production"
                        || is_str (get e "type") "technosphere"
                        || is_str (get e "type") "biosphere") then
            Raise (ValidationError InvalidExchangeType ctx exc)
          else if negb (_is_number (get e "amount")) then
            Raise (ValidationError NonNumericAmount ctx exc)
          else
            let inp := get e "input" in
            match valid_input inp with
            | None => Raise (ValidationError InvalidInputFormat ctx exc)
            | Some k =>
                if is_str (get e "type") "production" then
                  match nonempty_str adb, nonempty_str acode with
                  | Some da, Some co =>
                      if bool_decide (k ≠ (da, co)) then
                        Raise (ValidationError (ProductionTarget da co inp)
                                 ctx exc)
                      else Ok tt
                  | _, _ => Ok tt
                  end
                else Ok tt
            end
      end
  | _ => Raise (ValidationError NonDictExchange ctx exc)
  end.

Definition validate_activity (act : activity) : result unit :=
  let adb := get (act_fields act) "database" in
  let acode := get (act_fields act) "code" in
  for_each_check (validate_exchange adb acode) (exchanges act).

(** The dataset's identity is well formed: [database] and [code] are
    non-empty strings, [da] and [co]. *)
Definition has_identity (act : activity) (da co : string) : Prop :=
  act_fields act !! "database" = Some (PStr da)
  ∧ act_fields act !! "code" = Some (PStr co)
  ∧ da ≠ "" ∧ co ≠ "".

(** [_validate_importer_payload(importer)] *)
Definition _validate_importer_payload (data : list activity) : result unit :=
  for_each_check validate_activity data.

(** [_databases_in_importer(importer)], for a payload that is a list. *)
Definition _databases_in_importer (data : list activity) : gset string :=
  foldl
    (fun out act =>
       match nonempty_str (get (act_fields act) "database") with
       | Some dbname => {[dbname]} ∪ out
       | None => out
       end)
    ∅ data.

(** ** Biosphere relinking and custom flows *)

(** [s.encode("utf-8")] for code points below 256: one byte below 128,
    otherwise the two bytes [110xxxxx 10xxxxxx]. *)
Definition encode_utf8_char (c : ascii) : list Byte.byte :=
  let n := N_of_ascii c in
  if (n <? 128)%N then [byte_of_ascii c]
  else [byte_of_ascii (ascii_of_N (N.lor 192 (N.shiftr n 6)));
        byte_of_ascii (ascii_of_N (N.lor 128 (N.land n 63)))].

Definition encode_utf8 (s : string) : list Byte.byte :=
  concat (map encode_utf8_char (list_ascii_of_string s)).

(** (norm name, norm categories tuple, norm unit) *)
Definition _BioExactKey : Type := string * list string * string.

Abbreviation bio_index := (gmap (string * list string * string) (string * string)).

(** An entry of the name-only index:
    (db, code, cats_tuple_norm, unit_norm). *)
Record candidate : Type := Candidate {
  cand_db : string;
  cand_code : string;
  cand_cats : list string;
  cand_unit : string
}.

Definition _BIO_NAME_ALIASES : gmap string (list string) := ∅.

(** The guard of both index loops:
    [isinstance(name, str) and isinstance(unit, str) and
     isinstance(code, str) and code]; the three strings when it holds. *)
Definition flow_fields (flow : dict) : option (string * string * string) :=
  match get flow "name", get flow "unit", get flow "code" with
  | PStr name, PStr unit, PStr code =>
      if decide (code = "") then None else Some (name, unit, code)
  | _, _, _ => None
  end.

(** The candidates kept by the unit filter, in the words of the
    specification: the unit-matching ones, or all when none matches. *)
Definition unit_filtered (cands : list candidate) (unit_n : string)
  : list candidate :=
  if bool_decide (Exists (fun c => cand_unit c = unit_n) cands)
  then filter (fun c => cand_unit c = unit_n) cands
  else cands.

(** [choose_best_candidate(cands, unit_n, top_compartment)] *)
Definition choose_best_candidate (cands : list candidate) (unit_n : string)
  (top_compartment : option string) : option (string * string) :=
  match cands with
  | [] => None
  | _ =>
      let c_unit :=
        match filter (fun c => cand_unit c = unit_n) cands with
        | [] => cands
        | l => l
        end in
      let by_unit :=
        match c_unit with
        | [c] => Some (cand_db c, cand_code c)
        | _ => None
        end in
      match top_compartment with
      | Some (String _ _ as t) =>
          let tc := _norm t in
          let c_tc :=
            filter (fun c => head (cand_cats c) = Some tc) c_unit in
          match c_tc with
          | [c] => Some (cand_db c, cand_code c)
          | _ :: _ :: _ => None
          | [] => by_unit
          end
      | _ => by_unit
      end
  end.

(** The de-duplication loop of [candidates_for_name], by (db, code). *)
Definition dedup_candidates (out : list candidate) : list candidate :=
  (foldl
     (fun (acc : gset (string * string) * list candidate) item =>
        let k := (cand_db item, cand_code item) in
        if bool_decide (k ∈ acc.1) then acc
        else ({[k]} ∪ acc.1, acc.2 ++ [item]))
     (∅, []) out).2.

(** [candidates_for_name(name)], a closure over [name_idx]. *)
Definition candidates_for_name (name_idx : gmap string (list candidate))
  (name : string) : list candidate :=
  let n0 := _norm name in
  let out :=
    foldl (fun out a => out ++ default [] (name_idx !! _norm a))
      (default [] (name_idx !! n0))
      (default [] (_BIO_NAME_ALIASES !! n0)) in
  dedup_candidates out.

(** [_ensure_custom_biosphere_db(db_name)] *)
Definition _ensure_custom_biosphere_db (store : flow_store)
  (db_name : string) : flow_store :=
  match store !! db_name with
  | Some _ => store
  | None => <[db_name := ∅]> store
  end.

(** The dataset written for a new custom flow. *)
Definition custom_flow (flow_name : string) (categories : list string)
  (unit code : string) : dict :=
  <["name" := PStr flow_name]>
    (<["categories" := PTuple (map PStr categories)]>
       (<["unit" := PStr unit]>
          (<["type" := PStr "emission"]> (<["code" := PStr code]> ∅)))).

(** ** Preparation passes over the payload *)

(** Two nested loops over the datasets and their exchanges, with a body
    that works on one exchange. *)
Definition for_each_exchange {S : Type} (body : S -> pyval -> S * pyval)
  (s : S) (data : list activity) : S * list activity :=
  for_each
    (fun s act =>
       let '(s1, excs) := for_each body s (exchanges act) in
       (s1, Activity (act_fields act) excs))
    s data.

(** [inp.split("::", 1)] when ["::" in inp]: the text before the leftmost
    ["::"] and the text after it. *)
Fixpoint split_colons (l : list ascii) : option (list ascii * list ascii) :=
  match l with
  | [] => None
  | c :: t =>
      match c, t with
      | ":"%char, ":"%char :: r => Some ([], r)
      | _, _ =>
          match split_colons t with
          | Some (a, b) => Some (c :: a, b)
          | None => None
          end
      end
  end.

Definition split_db_code (inp : string) : option (string * string) :=
  match split_colons (list_ascii_of_string inp) with
  | Some (a, b) => Some (string_of_list_ascii a, string_of_list_ascii b)
  | None => None
  end.

(** Body of the loop of [_normalize_exchange_inputs_to_tuples]. *)
Definition normalize_exchange_input (changed : nat) (exc : pyval)
  : nat * pyval :=
  match exc with
  | PDict e =>
      match get e "input" with
      | PStr inp =>
          match split_db_code inp with
          | Some (db_part, code_part) =>
              (S changed,
               PDict (<["input" := PTuple [PStr db_part; PStr code_part]]> e))
          | None => (changed, exc)
          end
      | _ => (changed, exc)
      end
  | _ => (changed, exc)
  end.

(** [_normalize_exchange_inputs_to_tuples(importer)] *)
Definition _normalize_exchange_inputs_to_tuples (data : list activity)
  : list activity * nat :=
  let '(changed, data1) := for_each_exchange normalize_exchange_input 0 data in
  (data1, changed).

(** Body of the loop of [_rewrite_background_db_label]. *)
Definition rewrite_exchange_label (old_bg new_bg : string) (changed : nat)
  (exc : pyval) : nat * pyval :=
  match exc with
  | PDict e =>
      let '(changed1, e1) :=
        if is_str (get e "database") old_bg
        then (S changed, <["database" := PStr new_bg]> e)
        else (changed, e) in
      match get e1 "input" with
      | PTuple [i0; i1] =>
          if is_str i0 old_bg
          then (S changed1, PDict (<["input" := PTuple [PStr new_bg; i1]]> e1))
          else (changed1, PDict e1)
      | _ => (changed1, PDict e1)
      end
  | _ => (changed, exc)
  end.

(** [_rewrite_background_db_label(importer, old_bg, new_bg)] *)
Definition _rewrite_background_db_label (data : list activity)
  (old_bg new_bg : string) : list activity * nat :=
  if decide (old_bg = new_bg) then (data, 0)
  else
    let '(changed, data1) :=
      for_each_exchange (rewrite_exchange_label old_bg new_bg) 0 data in
    (data1, changed).

(** [if k in d and d[k] is None: d[k] = ""; changed += 1] *)
Definition sanitize_key (k : string) (st : nat * dict) : nat * dict :=
  match st.2 !! k with
  | Some PNone => (S st.1, <[k := PStr ""]> st.2)
  | _ => st
  end.

Definition sanitize_exchange (changed : nat) (exc : pyval) : nat * pyval :=
  match exc with
  | PDict e =>
      let '(changed1, e1) := sanitize_key "comment" (changed, e) in
      (changed1, PDict e1)
  | _ => (changed, exc)
  end.

Definition sanitize_activity (changed : nat) (act : activity)
  : nat * activity :=
  let '(changed1, fields1) :=
    sanitize_key "description" (sanitize_key "comment"
                                  (changed, act_fields act)) in
  let '(changed2, excs) :=
    for_each sanitize_exchange changed1 (exchanges act) in
  (changed2, Activity fields1 excs).

(** [_sanitize_dataset_text_fields(importer)] *)
Definition _sanitize_dataset_text_fields (data : list activity)
  : list activity * nat :=
  let '(changed, data1) := for_each sanitize_activity 0 data in
  (data1, changed).

(** ** The mapping fix file *)

(** [s.strip()] on a string. *)
Definition str_strip (s : string) : string :=
  string_of_list_ascii (PyStr.strip (list_ascii_of_string s)).

(** The loop over the rows of [load_biosphere_mapping_fix], on the pairs
    ([row[cols["error"]]], [row[cols["to replace"]]]) in row order. *)
Definition mapping_fix_of_rows (rows : list (pyval * pyval))
  : gmap string string :=
  foldl
    (fun out row =>
       match row with
       | (PStr src, PStr dst) =>
           if decide (str_strip src = "") then out
           else if decide (str_strip dst = "") then out
           else <[_norm src := str_strip dst]> out
       | _ => out
       end)
    ∅ rows.

(** ** Notions used in the further statements *)

(** What the validator accepts, spelled out: a dictionary with a type among
    the three, a numeric amount and a reference made of two non-empty
    strings, which for a production exchange is the dataset's identity
    whenever that identity is well formed. *)
Definition exchange_ok (adb acode : pyval) (exc : pyval) : Prop :=
  ∃ (e : dict) ty amt da co,
    exc = PDict e
    ∧ e !! "type" = Some (PStr ty)
    ∧ (ty = "production" ∨ ty = "technosphere" ∨ ty = "biosphere")
    ∧ e !! "amount" = Some amt ∧ _is_number amt = true
    ∧ e !! "input" = Some (ref_tuple (da, co)) ∧ da ≠ "" ∧ co ≠ ""
    ∧ (ty = "production" →
       ∀ a c, adb = PStr a → acode = PStr c → a ≠ "" → c ≠ "" →
              (da, co) = (a, c)).

(** The index cache holds, for each database it knows, the index of that
    database. *)
Definition cache_ok (bd : brightway) (indices : gmap string ei_index)
  : Prop :=
  ∀ db_name idx,
    indices !! db_name = Some idx → idx = _build_ecoinvent_index bd db_name.

(** What a reference process contributes to the process index. *)
Definition ei_entry (db_name : string) (act : dict)
  : option (_EIKey * (string * string)) :=
  match nonempty_str (get act "name"),
        nonempty_str (get act "reference product"),
        nonempty_str (get act "location"),
        nonempty_str (get act "code") with
  | Some name, Some ref, Some loc, Some code =>
      Some ((name, ref, loc), (db_name, code))
  | _, _, _, _ => None
  end.

(** The reference a technosphere exchange is given, stated without the
    cache: the exchange is a technosphere dictionary without [input], its
    four descriptive fields are non-empty strings, its database is
    registered, and the index of that database has its key. *)
Definition technosphere_target (bd : brightway) (exc : pyval)
  : option (string * string) :=
  match exc with
  | PDict e =>
      if is_str (get e "type") "technosphere"
         && negb (bool_decide (is_Some (e !! "input")))
      then
        match nonempty_str (get e "database"), nonempty_str (get e "name"),
              nonempty_str (get e "reference product"),
              nonempty_str (get e "location") with
        | Some db_name, Some name, Some ref, Some loc =>
            if bool_decide (db_name ∈ dom bd)
            then _build_ecoinvent_index bd db_name !! (name, ref, loc)
            else None
        | _, _, _, _ => None
        end
      else None
  | _ => None
  end.

(** The exchange with the reference [technosphere_target] gives it. *)
Definition relink_technosphere (bd : brightway) (exc : pyval) : pyval :=
  match exc, technosphere_target bd exc with
  | PDict e, Some hit => PDict (<["input" := ref_tuple hit]> e)
  | _, _ => exc
  end.

(** The same update of every exchange of every dataset. *)
Definition map_exchanges (f : pyval -> pyval) (data : list activity)
  : list activity :=
  map (fun act => Activity (act_fields act) (map f (exchanges act))) data.

(** The exchange is one the biosphere loop tries to resolve. *)
Definition unlinked_biosphere (exc : pyval) : Prop :=
  ∃ (e : dict) raw_name unit,
    exc = PDict e ∧ get e "type" = PStr "biosphere" ∧ e !! "input" = None
    ∧ get e "name" = PStr raw_name ∧ get e "unit" = PStr unit.

(** The output payload has the datasets of the input, each with its own
    entries and with exchanges related one by one to the input's. *)
Definition exchanges_related (R : pyval -> pyval -> Prop)
  (data data' : list activity) : Prop :=
  Forall2
    (fun act act' =>
       act_fields act' = act_fields act
       ∧ Forall2 R (exchanges act) (exchanges act'))
    data data'.

(** The text has no colon. *)
Definition colon_free (s : string) : Prop :=
  Forall (fun c => c ≠ ":"%char) (list_ascii_of_string s).

(** The dictionary [d'] is [d] with the [None] values under [keys]
    replaced by the empty string, and nothing else changed. *)
Definition sanitized_from (keys : list string) (d d' : dict) : Prop :=
  ∀ k, (k ∈ keys → d !! k = Some PNone → d' !! k = Some (PStr ""))
       ∧ (k ∉ keys ∨ d !! k ≠ Some PNone → d' !! k = d !! k).

(** The exchange [exc'] is [exc] with the old background label replaced
    by the new one where it stood as [database] or as first component of
    a two-component [input], and nothing else changed: every entry of
    [exc'] is fixed by the entries of [exc]. *)
Definition relabelled_from (old_bg new_bg : string) (exc exc' : pyval)
  : Prop :=
  match exc with
  | PDict e =>
      ∃ e' : dict,
        exc' = PDict e'
        ∧ (∀ k, k ≠ "database" → k ≠ "input" → e' !! k = e !! k)
        ∧ is_str (get e' "database") old_bg = false
        ∧ (∀ i0 i1, get e' "input" = PTuple [i0; i1] →
                    is_str i0 old_bg = false)
        ∧ (is_str (get e "database") old_bg = false →
           e' !! "database" = e !! "database")
        ∧ (∀ i0 i1, get e "input" = PTuple [i0; i1] →
                    is_str i0 old_bg = false → e' !! "input" = e !! "input")
        ∧ (∀ i0 i1, get e "input" = PTuple [i0; i1] →
                    is_str i0 old_bg = true →
                    e' !! "input" = Some (PTuple [PStr new_bg; i1]))
        ∧ (is_str (get e "database") old_bg = true →
           e' !! "database" = Some (PStr new_bg))
        ∧ ((∀ i0 i1, get e "input" ≠ PTuple [i0; i1]) →
           e' !! "input" = e !! "input")
  | _ => exc' = exc
  end.

(** The key by which name-only candidates are de-duplicated. *)
Definition cand_key (c : candidate) : string * string :=
  (cand_db c, cand_code c).

(** What a row of the mapping fix file contributes: nothing unless both
    cells are strings that are not blank. *)
Definition mapping_entry (row : pyval * pyval) : option (string * string) :=
  match row with
  | (PStr src, PStr dst) =>
      if decide (str_strip src = "") then None
      else if decide (str_strip dst = "") then None
      else Some (_norm src, str_strip dst)
  | _ => None
  end.

(** Stand-ins for the three built-ins, used where a property is tried on a
    concrete input: [str()] on strings only (other values print as the
    empty string here), a digest that spells out its bytes, and a
    [write_database] that registers every dataset under its database. *)
Definition str_of_text (x : pyval) : string :=
  match x with
  | PStr s => s
  | _ => ""
  end.

Definition spelled_digest (b : list Byte.byte) : string :=
  String.string_of_list_byte b.

Definition write_rows (data : list activity) (bd : brightway) : brightway :=
  foldl
    (fun b act =>
       match nonempty_str (get (act_fields act) "database") with
       | Some db_name =>
           <[db_name := Database b db_name ++ [act_fields act]]> b
       | None => b
       end)
    bd data.

(** ** Sample data

    The reference flows, datasets and exchanges on which the properties
    below are tried. *)

Definition sample_flow (name : string) (cats : list string)
  (unit code : string) : dict :=
  <["name" := PStr name]>
    (<["categories" := PTuple (map PStr cats)]>
       (<["unit" := PStr unit]> (<["code" := PStr code]> ∅))).

Definition sample_co2 : dict :=
  sample_flow "Carbon dioxide" ["air"] "kg" "abc".

Definition sample_methane_air : dict :=
  sample_flow "Methane" ["air"] "kg" "m-air".

Definition sample_methane_water : dict :=
  sample_flow "Methane" ["water"] "kg" "m-water".

(** A flow with no [categories] entry. *)
Definition sample_bare_flow : dict :=
  <["name" := PStr "Carbon dioxide"]>
    (<["unit" := PStr "kg"]> (<["code" := PStr "abc"]> ∅)).

(** A flow whose code is the empty string. *)
Definition sample_uncoded_flow : dict :=
  sample_flow "Argon" ["air"] "kg" "".

Definition sample_bd : brightway :=
  <["biosphere3" := [sample_co2; sample_methane_air; sample_methane_water]]>
    ∅.

Definition sample_bd_reordered : brightway :=
  <["biosphere3" := [sample_methane_water; sample_co2; sample_methane_air]]>
    ∅.

Definition sample_biosphere_exchange (name : string) (cats : list string)
  (unit : string) : dict :=
  <["type" := PStr "biosphere"]>
    (<["amount" := PInt 1]>
       (<["name" := PStr name]>
          (<["categories" := PTuple (map PStr cats)]>
             (<["unit" := PStr unit]> ∅)))).

Definition sample_exchange (type : string) (amount : pyval)
  (db code : string) : dict :=
  <["type" := PStr type]>
    (<["amount" := amount]> (<["input" := PTuple [PStr db; PStr code]]> ∅)).

(** A technosphere exchange without reference that names a database which
    is not registered. *)
Definition sample_unlinked_technosphere : dict :=
  <["type" := PStr "technosphere"]>
    (<["amount" := PInt 2]>
       (<["database" := PStr "ecoinvent 3.9"]>
          (<["name" := PStr "market for steel"]>
             (<["reference product" := PStr "steel"]>
                (<["location" := PStr "GLO"]> ∅))))).

(** Dataset ("m1", "p1") whose production exchange points to
    ("m1", "p2"). *)
Definition sample_bad_dataset : activity :=
  Activity (<["database" := PStr "m1"]> (<["code" := PStr "p1"]> ∅))
    [PDict (sample_exchange "production" (PInt 1) "m1" "p2")].

(** A dataset without [code], with the same production exchange. *)
Definition sample_anonymous_dataset : activity :=
  Activity (<["database" := PStr "m1"]> ∅)
    [PDict (sample_exchange "production" (PInt 1) "m1" "p2")].

(** A reference process of the database "ecoinvent 3.9". *)
Definition sample_process : dict :=
  <["name" := PStr "market for steel"]>
    (<["reference product" := PStr "steel"]>
       (<["location" := PStr "GLO"]> (<["code" := PStr "s1"]> ∅))).

Definition sample_bd_technosphere : brightway :=
  <["ecoinvent 3.9" := [sample_process]]> ∅.

(** An exchange whose reference is the string "m1::p1". *)
Definition sample_string_reference : dict :=
  <["type" := PStr "technosphere"]>
    (<["amount" := PInt 1]> (<["input" := PStr "m1::p1"]> ∅)).

(** A second reference flow with the key of [sample_co2]. *)
Definition sample_co2_again : dict :=
  sample_flow "carbon  dioxide" ["Air"] "KG" "xyz".

Section Builtins.

(** [str(x)] on an arbitrary value. *)
Variable py_str : pyval -> string.

(** [hashlib.md5(b).hexdigest()] *)
Variable md5_hexdigest : list Byte.byte -> string.

(** [importer.write_database()] of bw2io, on the registered databases. *)
Variable write_database : list activity -> brightway -> brightway.

(** The normalisation of a [categories] value in the index loops and in
    the exchange loop. *)
Definition norm_categories (cats : pyval) : list string :=
  match cats with
  | PList l | PTuple l => map (fun x => _norm (py_str x)) l
  | PStr s => if decide (s = "") then [] else [_norm s]
  | _ => []
  end.

(** The key under which a flow is stored in the exact index. *)
Definition exact_key (flow : dict) (name unit : string) : _BioExactKey :=
  (_norm name, norm_categories (get flow "categories"), _norm unit).

(** [_build_biosphere_exact_index(db_name)] *)
Definition _build_biosphere_exact_index (bd : brightway) (db_name : string)
  : bio_index :=
  foldl
    (fun idx flow =>
       match flow_fields flow with
       | Some (name, unit, code) =>
           <[exact_key flow name unit := (db_name, code)]> idx
       | None => idx
       end)
    ∅ (Database bd db_name).

(** The loop that fills [name_idx] in [_fill_missing_biosphere_inputs]. *)
Definition build_name_idx (bd : brightway) (biosphere_db : string)
  : gmap string (list candidate) :=
  foldl
    (fun idx flow =>
       match flow_fields flow with
       | Some (name, unit, code) =>
           let k := _norm name in
           <[k := default [] (idx !! k)
                  ++ [Candidate biosphere_db code
                        (norm_categories (get flow "categories"))
                        (_norm unit)]]> idx
       | None => idx
       end)
    ∅ (Database bd biosphere_db).

(** [_custom_flow_code(name, categories, unit)]: the md5 of
    [f"{name}|{categories}|{unit}"]. *)
Definition _custom_flow_code (name : string) (categories : list string)
  (unit : string) : string :=
  md5_hexdigest
    (encode_utf8
       (name +:+ "|" +:+ py_str (PTuple (map PStr categories))
          +:+ "|" +:+ unit)).

(** [_get_or_create_custom_biosphere_flow(db_name=, flow_name=,
    categories=, unit=)]: the store after the call and the returned key. *)
Definition _get_or_create_custom_biosphere_flow (store : flow_store)
  (db_name flow_name : string) (categories : list string) (unit : string)
  : flow_store * (string * string) :=
  let store1 := _ensure_custom_biosphere_db store db_name in
  let code := _custom_flow_code flow_name categories unit in
  let key := (db_name, code) in
  let existing := default ∅ (store1 !! db_name) in
  match existing !! key with
  | Some _ => (store1, key)
  | None =>
      (<[db_name := <[key := custom_flow flow_name categories unit code]>
                      existing]> store1,
       key)
  end.

(** Body of the inner loop of [_fill_missing_biosphere_inputs]: the state
    is the custom flow store and the counter [fixed]. *)
Definition fill_biosphere_exchange (cfg : Config) (exact_idx : bio_index)
  (name_idx : gmap string (list candidate)) (name_map : gmap string string)
  (st : flow_store * nat) (exc : pyval)
  : result ((flow_store * nat) * pyval) :=
  let '(store, fixed) := st in
  match exc with
  | PDict e =>
      if negb (is_str (get e "type") "biosphere") then Ok (st, exc)
      else if bool_decide (is_Some (e !! "input")) then Ok (st, exc)
      else
        match get e "name", get e "unit" with
        | PStr raw_name, PStr unit =>
            let cats := get e "categories" in
            let cats_t := norm_categories cats in
            let top_comp := head cats_t in
            let unit_n := _norm unit in
            (* Step A *)
            let name_n := _norm raw_name in
            match exact_idx !! (name_n, cats_t, unit_n) with
            | Some hit =>
                Ok ((store, S fixed), PDict (<["input" := ref_tuple hit]> e))
            | None =>
                (* Step B *)
                let mapped_name := default raw_name (name_map !! name_n) in
                let mapped_n := _norm mapped_name in
                match exact_idx !! (mapped_n, cats_t, unit_n) with
                | Some hit =>
                    Ok ((store, S fixed),
                        PDict (<["input" := ref_tuple hit]> e))
                | None =>
                    (* Step C *)
                    let cands := candidates_for_name name_idx mapped_name in
                    match choose_best_candidate cands unit_n top_comp with
                    | Some chosen =>
                        Ok ((store, S fixed),
                            PDict (<["input" := ref_tuple chosen]> e))
                    | None =>
                        (* Step D *)
                        if allow_create_missing_biosphere_flows cfg then
                          let '(store1, new_input) :=
                            _get_or_create_custom_biosphere_flow store
                              (custom_biosphere_db_name cfg) raw_name
                              cats_t unit_n in
                          Ok ((store1, S fixed),
                              PDict (<["input" := ref_tuple new_input]> e))
                        else
                          Raise (UnresolvedBiosphere raw_name mapped_name
                                   cats unit)
                    end
                end
            end
        | _, _ => Ok (st, exc)
        end
  | _ => Ok (st, exc)
  end.

Definition fill_biosphere_activity (cfg : Config) (exact_idx : bio_index)
  (name_idx : gmap string (list candidate)) (name_map : gmap string string)
  (st : flow_store * nat) (act : activity)
  : result ((flow_store * nat) * activity) :=
  try r <- for_each_r (fill_biosphere_exchange cfg exact_idx name_idx name_map)
             st (exchanges act) in
  Ok (r.1, Activity (act_fields act) r.2).

(** [_fill_missing_biosphere_inputs(importer, biosphere_db, name_map)]:
    the store and the payload after the updates, and the returned count. *)
Definition _fill_missing_biosphere_inputs (cfg : Config) (bd : brightway)
  (store : flow_store) (data : list activity) (biosphere_db : string)
  (name_map : option (gmap string string))
  : result (flow_store * list activity * nat) :=
  let name_map := default ∅ name_map in
  let exact_idx := _build_biosphere_exact_index bd biosphere_db in
  let name_idx := build_name_idx bd biosphere_db in
  try r <- for_each_r
             (fill_biosphere_activity cfg exact_idx name_idx name_map)
             (store, 0) data in
  Ok (r.1.1, r.2, r.1.2).

(** The end of [_process_excel]: deletion of the databases about to be
    overwritten, validation, then [write_database].  The result is the
    registered databases afterwards and whether the call raised. *)
Definition _process_excel_write (cfg : Config) (data : list activity)
  (bd : brightway) : brightway * result unit :=
  let metal_dbs := elements (_databases_in_importer data) in
  let bd1 :=
    if overwrite_metal_databases cfg
    then foldl (fun b db_name => delete db_name b) bd metal_dbs
    else bd in
  match _validate_importer_payload data with
  | Raise e => (bd1, Raise e)
  | Ok _ => (write_database data bd1, Ok tt)
  end.

(** ** Notions used in the statements *)

(** The exchange is one the technosphere loop looks at, and its
    source-database label is not a registered database. *)
Definition unknown_source (bd : brightway) (e : dict) : Prop :=
  get e "type" = PStr "technosphere" ∧ e !! "input" = None
  ∧ ∀ db_name, get e "database" = PStr db_name → db_name ∉ dom bd.

(** What a reference flow contributes to the exact index: nothing when the
    guard skips it, otherwise its key and its (database, code). *)
Definition exact_entry (db_name : string) (flow : dict)
  : option (_BioExactKey * (string * string)) :=
  match flow_fields flow with
  | Some (name, unit, code) => Some (exact_key flow name unit, (db_name, code))
  | None => None
  end.

(** The normalized (name, categories, unit) triples of the indexed flows,
    in iteration order. *)
Definition exact_keys (db_name : string) (rows : list dict)
  : list _BioExactKey :=
  (omap (exact_entry db_name) rows).*1.

(** The flow is indexed and its normalized name is [n]. *)
Definition is_named (n : string) (flow : dict) : bool :=
  match flow_fields flow with
  | Some (name, _, _) => bool_decide (_norm name = n)
  | None => false
  end.

(** The name-only candidate made from an indexed flow. *)
Definition flow_candidate (db_name : string) (flow : dict)
  : option candidate :=
  match flow_fields flow with
  | Some (_, unit, code) =>
      Some (Candidate db_name code
              (norm_categories (get flow "categories")) (_norm unit))
  | None => None
  end.

(** ** Properties *)

(** *** Normalisation *)

Import PyStr.

Lemma isspace_lower_char (c : ascii) : isspace (lower_char c) = isspace c.
Proof. destruct c as [[] [] [] [] [] [] [] []]; reflexivity. Qed.

Lemma lower_char_idem (c : ascii) : lower_char (lower_char c) = lower_char c.
Proof. destruct c as [[] [] [] [] [] [] [] []]; reflexivity. Qed.

Lemma split_cons_space c r : isspace c = true → split (c :: r) = split r.
Proof. intros H. simpl. by rewrite H. Qed.

Lemma split_cons_word c r :
  isspace c = false →
  split (c :: r) =
    if starts_word r
    then match split r with w :: ws => (c :: w) :: ws | [] => [[c]] end
    else [c] :: split r.
Proof.
  intros H. simpl. rewrite H. destruct r as [|d r']; [done|].
  simpl. by destruct (isspace d).
Qed.

Lemma split_starts_word l : starts_word l = true → split l ≠ [].
Proof.
  destruct l as [|d r]; [done|]. simpl starts_word. intros Hd.
  apply negb_true_iff in Hd. rewrite (split_cons_word _ _ Hd).
  destruct (starts_word r); [by destruct (split r)|done].
Qed.

Lemma split_all_space ws :
  Forall (fun c => isspace c = true) ws → split ws = [].
Proof.
  induction 1 as [|c r Hc _ IH]; [done|]. by rewrite split_cons_space.
Qed.

Lemma split_app_space_l ws l :
  Forall (fun c => isspace c = true) ws → split (ws ++ l) = split l.
Proof.
  induction 1 as [|c r Hc _ IH]; [done|].
  by rewrite <- app_comm_cons, split_cons_space.
Qed.

Lemma starts_word_app u v :
  u ≠ [] → starts_word (u ++ v) = starts_word u.
Proof. by destruct u. Qed.

(** A non-empty run of white space separates the words on its two sides. *)
Lemma split_app_space u ws v :
  ws ≠ [] → Forall (fun c => isspace c = true) ws →
  split (u ++ ws ++ v) = split u ++ split v.
Proof.
  intros Hne Hws. induction u as [|c u IH].
  - simpl. by apply split_app_space_l.
  - rewrite <- app_comm_cons. destruct (isspace c) eqn:Hc.
    + by rewrite !(split_cons_space c).
    + rewrite !(split_cons_word _ _ Hc), IH.
      destruct u as [|d u'].
      * simpl app at 1. destruct ws as [|s ws']; [done|].
        simpl. inversion Hws as [|? ? Hs _]; subst. by rewrite Hs.
      * rewrite starts_word_app by done.
        destruct (starts_word (d :: u')) eqn:Hd; [|done].
        apply split_starts_word in Hd.
        by destruct (split (d :: u')).
Qed.

Lemma split_app_space_r l ws :
  Forall (fun c => isspace c = true) ws → split (l ++ ws) = split l.
Proof.
  intros Hws. destruct ws as [|s ws'].
  - by rewrite app_nil_r.
  - rewrite <- (app_nil_r (s :: ws')), split_app_space by done.
    simpl. by rewrite app_nil_r.
Qed.

Lemma split_lstrip l : split (lstrip l) = split l.
Proof.
  induction l as [|c r IH]; [done|]. simpl lstrip.
  destruct (isspace c) eqn:Hc; [|done]. by rewrite split_cons_space.
Qed.

Lemma rstrip_nil l :
  rstrip l = [] → Forall (fun c => isspace c = true) l.
Proof.
  induction l as [|c r IH]; [constructor|]. simpl.
  destruct (rstrip r); [|done].
  destruct (isspace c) eqn:Hc; [|done]. intros _. by constructor; auto.
Qed.

Lemma rstrip_starts_word l :
  rstrip l ≠ [] → starts_word (rstrip l) = starts_word l.
Proof.
  destruct l as [|c r]; [done|]. simpl.
  destruct (rstrip r); [|done].
  destruct (isspace c) eqn:Hc; simpl; [by intros []|by rewrite Hc].
Qed.

Lemma split_rstrip l : split (rstrip l) = split l.
Proof.
  induction l as [|c r IH]; [done|]. simpl rstrip.
  destruct (rstrip r) as [|d r'] eqn:Hr.
  - apply rstrip_nil in Hr.
    destruct (isspace c) eqn:Hc.
    + rewrite split_cons_space by done. by rewrite (split_all_space r Hr).
    + change (c :: r) with ([c] ++ r).
      by rewrite (split_app_space_r [c] r Hr).
  - destruct (isspace c) eqn:Hc.
    + by rewrite !(split_cons_space c).
    + rewrite !(split_cons_word _ _ Hc), IH.
      assert (starts_word (d :: r') = starts_word r) as ->; [|done].
      rewrite <- Hr. apply rstrip_starts_word. by rewrite Hr.
Qed.

Lemma split_strip l : split (strip l) = split l.
Proof. unfold strip. by rewrite split_rstrip, split_lstrip. Qed.

Lemma starts_word_lower l : starts_word (lower l) = starts_word l.
Proof. destruct l; [done|]. simpl. by rewrite isspace_lower_char. Qed.

Lemma split_lower l : split (lower l) = map lower (split l).
Proof.
  induction l as [|c r IH]; [done|].
  change (lower (c :: r)) with (lower_char c :: lower r).
  destruct (isspace c) eqn:Hc.
  - rewrite (split_cons_space c), (split_cons_space (lower_char c));
      by rewrite ?isspace_lower_char.
  - rewrite !split_cons_word by (by rewrite ?isspace_lower_char).
    rewrite starts_word_lower, IH.
    destruct (starts_word r); [|done]. by destruct (split r).
Qed.

Lemma lower_idem l : lower (lower l) = lower l.
Proof.
  unfold lower. rewrite map_map. apply map_ext. apply lower_char_idem.
Qed.

Lemma split_words l : Forall word (split l).
Proof.
  induction l as [|c r IH]; [constructor|].
  destruct (isspace c) eqn:Hc.
  - by rewrite split_cons_space.
  - rewrite (split_cons_word _ _ Hc).
    destruct (starts_word r).
    + destruct (split r) as [|w ws].
      * repeat constructor; done.
      * inversion IH as [|? ? [Hw1 Hw2] Hws]; subst.
        constructor; [|done]. split; [done|]. by constructor.
    + constructor; [|done]. split; [done|]. by repeat constructor.
Qed.

(** A word followed by nothing or by white space comes out whole. *)
Lemma split_word_app w r :
  word w → starts_word r = false → split (w ++ r) = w :: split r.
Proof.
  intros [Hne Hw] Hr. induction Hw as [|c w' Hc Hw' IH]; [done|].
  rewrite <- app_comm_cons, (split_cons_word _ _ Hc).
  destruct w' as [|d w''].
  - simpl app. by rewrite Hr.
  - rewrite starts_word_app by done.
    inversion Hw' as [|? ? Hd _]; subst. simpl starts_word. rewrite Hd.
    simpl negb. cbv iota. by rewrite IH.
Qed.

Lemma join_cons sep w ws :
  join sep (w :: ws) =
    w ++ match ws with [] => [] | _ => sep ++ join sep ws end.
Proof. destruct ws; [by rewrite app_nil_r|done]. Qed.

Lemma split_join ws :
  Forall word ws → split (join [" "%char] ws) = ws.
Proof.
  induction 1 as [|w ws Hw Hws IH]; [done|].
  rewrite join_cons. destruct ws as [|w' ws'].
  - rewrite (split_word_app w [] Hw); done.
  - rewrite (split_word_app w _ Hw) by done.
    f_equal. simpl app. by rewrite split_cons_space.
Qed.

Lemma norm_chars_split l :
  norm_chars l = join [" "%char] (split (lower l)).
Proof.
  unfold norm_chars. by rewrite !split_lower, split_strip.
Qed.

Lemma norm_chars_idem l : norm_chars (norm_chars l) = norm_chars l.
Proof.
  rewrite (norm_chars_split (norm_chars l)), (norm_chars_split l).
  rewrite split_lower, split_join by apply split_words.
  f_equal. rewrite split_lower, map_map.
  apply map_ext. apply lower_idem.
Qed.

Lemma lower_same_case l1 l2 :
  Forall2 (fun a b => lower_char a = lower_char b) l1 l2 →
  lower l1 = lower l2.
Proof. induction 1; [done|]. simpl. by f_equal. Qed.


Lemma list_ascii_of_string_app (s t : string) :
  list_ascii_of_string (s +:+ t)
  = list_ascii_of_string s ++ list_ascii_of_string t.
Proof. induction s as [|c s IH]; [done|]. simpl. by rewrite IH. Qed.

Lemma all_space_nonempty (s : string) :
  s ≠ "" → list_ascii_of_string s ≠ [].
Proof. by destruct s. Qed.

Lemma norm_idem (s : string) : _norm (_norm s) = _norm s.
Proof.
  unfold _norm. rewrite list_ascii_of_string_of_list_ascii.
  by rewrite norm_chars_idem.
Qed.

(** On the strings of code points below 256 [_norm] is idempotent,
    [_norm (_norm s) = _norm s]; two strings that differ in letter case
    only have the same normal form; white space at either end does not
    change the normal form; and neither does replacing one internal run of
    white space by another of any length. *)
Theorem norm_idempotent_case_space_insensitive :
  (∀ s, _norm (_norm s) = _norm s)
  ∧ (∀ s t, same_up_to_case s t → _norm s = _norm t)
  ∧ (∀ ws1 s ws2, all_space ws1 → all_space ws2 →
       _norm (ws1 +:+ s +:+ ws2) = _norm s)
  ∧ (∀ u ws1 ws2 v, all_space ws1 → all_space ws2 →
       ws1 ≠ "" → ws2 ≠ "" →
       _norm (u +:+ ws1 +:+ v) = _norm (u +:+ ws2 +:+ v)).
Proof.
  split; [exact norm_idem|].
  unfold _norm, all_space, same_up_to_case. repeat split.
  - intros s t Hst. rewrite !norm_chars_split.
    by rewrite (lower_same_case _ _ Hst).
  - intros ws1 s ws2 H1 H2. rewrite !list_ascii_of_string_app.
    rewrite !norm_chars_split, !split_lower.
    rewrite split_app_space_l by done.
    by rewrite split_app_space_r.
  - intros u ws1 ws2 v H1 H2 N1 N2. rewrite !list_ascii_of_string_app.
    rewrite !norm_chars_split, !split_lower.
    by rewrite !split_app_space by auto using all_space_nonempty.
Qed.

(** *** Validation *)

Lemma SFeqb_refl (f : spec_float) : f ≠ S754_nan → SFeqb f f = true.
Proof.
  intros Hf. unfold SFeqb, SFcompare.
  destruct f as [s|s| |s m e]; [done|by destruct s|done|].
  destruct s; rewrite Z.compare_refl.
  - by rewrite Pos.compare_cont_refl.
  - by rewrite Pos.compare_refl.
Qed.

Lemma is_number_spec (x : pyval) :
  _is_number x = true ↔
    (∃ b, x = PBool b) ∨ (∃ z, x = PInt z)
    ∨ (∃ f, x = PFloat f ∧ f ≠ S754_nan).
Proof.
  unfold _is_number. split.
  - destruct x as [|b|z|f|s|l|l|d]; simpl; try done; eauto.
    intros H. right; right. exists f. split; [done|].
    intros ->. by vm_compute in H.
  - intros [[b ->]|[[z ->]|(f & -> & Hf)]]; simpl.
    + by destruct b.
    + by rewrite Z.eqb_refl.
    + by rewrite SFeqb_refl.
Qed.

Lemma for_each_check_raise {A} (f : A → result unit) (l : list A) (x : A) :
  x ∈ l → (∃ e, f x = Raise e) → ∃ e, for_each_check f l = Raise e.
Proof.
  intros Hx Hfx. induction Hx as [x l|x y l _ IH]; simpl.
  - destruct Hfx as [e ->]. by exists e.
  - destruct (f y) as [[]|e]; simpl; [by apply IH|by exists e].
Qed.

Lemma for_each_check_ok {A} (f : A → result unit) (l : list A) :
  Forall (fun x => f x = Ok tt) l → for_each_check f l = Ok tt.
Proof. induction 1 as [|x l Hx _ IH]; [done|]. simpl. by rewrite Hx. Qed.

Lemma for_each_check_ok_inv {A} (f : A → result unit) (l : list A) :
  for_each_check f l = Ok tt → Forall (fun x => f x = Ok tt) l.
Proof.
  induction l as [|x l IH]; [constructor|]. simpl.
  destruct (f x) as [[]|e] eqn:Hx; simpl; [|done].
  intros H. constructor; auto.
Qed.

(** The keys the validator requires are all present. *)
Lemma missing_keys_nil (e : dict) :
  is_Some (e !! "type") → is_Some (e !! "amount") → is_Some (e !! "input") →
  filter (fun k => e !! k = None) ["type"; "amount"; "input"] = [].
Proof.
  intros [? H1] [? H2] [? H3].
  rewrite !filter_cons, filter_nil.
  rewrite !decide_False; by rewrite ?H1, ?H2, ?H3.
Qed.

Lemma missing_keys_inv (e : dict) :
  filter (fun k => e !! k = None) ["type"; "amount"; "input"] = [] →
  is_Some (e !! "type") ∧ is_Some (e !! "amount") ∧ is_Some (e !! "input").
Proof.
  rewrite !filter_cons, filter_nil.
  destruct (e !! "type"), (e !! "amount"), (e !! "input");
    repeat case_decide; try done; eauto.
Qed.

Lemma get_lookup (e : dict) k v : e !! k = Some v → get e k = v.
Proof. unfold get. by intros ->. Qed.

Lemma valid_input_ref_tuple inp k :
  valid_input inp = Some k → inp = ref_tuple k ∧ k.1 ≠ "" ∧ k.2 ≠ "".
Proof.
  destruct inp as [| | | | |l| |]; try done.
  destruct l as [|a [|b [|]]]; try done. simpl.
  destruct a as [| | | |sa| | |], b as [| | | |sb| | |]; simpl; try done;
    repeat case_decide; try done.
  by intros [= <-].
Qed.

Lemma valid_input_str a b :
  a ≠ "" → b ≠ "" → valid_input (PTuple [PStr a; PStr b]) = Some (a, b).
Proof. intros. simpl. by rewrite !decide_False. Qed.

(** What [validate_exchange] does on a production exchange that carries a
    reference, in a dataset with a well-formed identity. *)
Lemma validate_production_mismatch (da co : string) (e : dict) (inp : pyval) :
  da ≠ "" → co ≠ "" →
  e !! "type" = Some (PStr "production") → e !! "input" = Some inp →
  inp ≠ ref_tuple (da, co) →
  (∃ kind, validate_exchange (PStr da) (PStr co) (PDict e)
           = Raise (ValidationError kind (PStr da, PStr co) (PDict e)))
  ∧ (is_Some (e !! "amount") → _is_number (get e "amount") = true →
     is_Some (valid_input inp) →
     validate_exchange (PStr da) (PStr co) (PDict e)
     = Raise (ValidationError (ProductionTarget da co inp)
                (PStr da, PStr co) (PDict e))).
Proof.
  intros Hda Hco Hty Hin Hne.
  assert (Hstep : ∀ amt, e !! "amount" = Some amt →
    _is_number amt = true → ∀ k, valid_input inp = Some k →
    validate_exchange (PStr da) (PStr co) (PDict e)
    = Raise (ValidationError (ProductionTarget da co inp)
               (PStr da, PStr co) (PDict e))).
  { intros amt Ham Hnum k Hk. unfold validate_exchange.
    rewrite missing_keys_nil by (rewrite ?Hty, ?Ham, ?Hin; eauto).
    rewrite (get_lookup _ _ _ Hty), (get_lookup _ _ _ Ham),
      (get_lookup _ _ _ Hin). simpl hashable. simpl is_str.
    rewrite Hnum, Hk. simpl. rewrite !decide_False by done.
    apply valid_input_ref_tuple in Hk as (-> & _ & _).
    rewrite bool_decide_true; [done|].
    intros ->. by apply Hne. }
  split.
  - destruct (e !! "amount") as [amt|] eqn:Ham.
    + destruct (_is_number amt) eqn:Hnum.
      * destruct (valid_input inp) as [k|] eqn:Hk.
        { eexists. by eapply Hstep. }
        eexists. unfold validate_exchange.
        rewrite missing_keys_nil by (rewrite ?Hty, ?Ham, ?Hin; eauto).
        rewrite (get_lookup _ _ _ Hty), (get_lookup _ _ _ Ham),
          (get_lookup _ _ _ Hin). simpl hashable. simpl is_str.
        by rewrite Hnum, Hk.
      * eexists. unfold validate_exchange.
        rewrite missing_keys_nil by (rewrite ?Hty, ?Ham, ?Hin; eauto).
        rewrite (get_lookup _ _ _ Hty), (get_lookup _ _ _ Ham).
        simpl hashable. simpl is_str. by rewrite Hnum.
    + eexists. unfold validate_exchange.
      rewrite !filter_cons, filter_nil, Hty, Ham, Hin.
      rewrite decide_False by done. rewrite decide_True by done.
      rewrite decide_False by done. done.
  - intros [amt Ham] Hnum [k Hk]. eapply Hstep; eauto.
    by rewrite <- (get_lookup _ _ _ Ham).
Qed.

Lemma foldl_delete_subseteq (bd : brightway) (names : list string) :
  foldl (fun b db_name => delete db_name b) bd names ⊆ bd.
Proof.
  revert bd. induction names as [|n names IH]; intros bd; simpl; [done|].
  etrans; [apply IH|]. apply delete_subseteq.
Qed.

Lemma nonempty_str_Some x s : nonempty_str x = Some s → x = PStr s ∧ s ≠ "".
Proof.
  destruct x; simpl; try done. case_decide; [done|]. by intros [= ->].
Qed.

Lemma get_PStr (d : dict) k s : get d k = PStr s → d !! k = Some (PStr s).
Proof. unfold get. destruct (d !! k); simpl; [by intros ->|done]. Qed.

Lemma validate_exchange_ok_inv adb acode (e : dict) :
  validate_exchange adb acode (PDict e) = Ok tt →
  _is_number (get e "amount") = true ∧ is_Some (valid_input (get e "input")).
Proof.
  unfold validate_exchange.
  destruct (filter _ _); [|done].
  destruct (hashable _); [|done]. simpl negb. cbv iota.
  destruct (negb (_ || _ || _)); [done|].
  destruct (_is_number _); [|done]. simpl negb. cbv iota.
  destruct (valid_input _); [eauto|done].
Qed.

Lemma validate_exchange_non_numeric adb acode (e : dict) :
  is_Some (e !! "type") → is_Some (e !! "amount") → is_Some (e !! "input") →
  is_str (get e "type") "production" || is_str (get e "type") "technosphere"
    || is_str (get e "type") "biosphere" = true →
  _is_number (get e "amount") = false →
  validate_exchange adb acode (PDict e)
  = Raise (ValidationError NonNumericAmount (adb, acode) (PDict e)).
Proof.
  intros H1 H2 H3 Hty Hnum. unfold validate_exchange.
  rewrite missing_keys_nil by done.
  assert (hashable (get e "type") = true) as ->.
  { by destruct (get e "type"). }
  by rewrite Hty, Hnum.
Qed.

(** C4 (as the code has it). [_is_number] accepts exactly the [int]
    values ([bool] included) and the [float] values other than NaN, so
    infinities pass.  An exchange the validator accepts has such an
    amount, and an exchange with its three keys, a valid type and any
    other amount (NaN, a string, [None], ...) is rejected with the
    non-numeric amount error. *)
Theorem amount_accepted_iff_not_nan :
  (∀ x, _is_number x = true ↔
     (∃ b, x = PBool b) ∨ (∃ z, x = PInt z)
     ∨ (∃ f, x = PFloat f ∧ f ≠ S754_nan))
  ∧ (∀ adb acode (e : dict),
       validate_exchange adb acode (PDict e) = Ok tt →
       _is_number (get e "amount") = true)
  ∧ (∀ adb acode (e : dict),
       is_Some (e !! "type") → is_Some (e !! "amount") →
       is_Some (e !! "input") →
       is_str (get e "type") "production"
         || is_str (get e "type") "technosphere"
         || is_str (get e "type") "biosphere" = true →
       _is_number (get e "amount") = false →
       validate_exchange adb acode (PDict e)
       = Raise (ValidationError NonNumericAmount (adb, acode) (PDict e))).
Proof.
  split; [exact is_number_spec|]. split.
  - intros adb acode e H. by apply validate_exchange_ok_inv in H as [? _].
  - exact validate_exchange_non_numeric.
Qed.

(** C4, counterexample.  Positive infinity is not a finite number, yet
    [_is_number] accepts it and an exchange carrying it validates. *)
Lemma infinite_amount_accepted :
  is_finite_number (PFloat (S754_infinity false)) = false
  ∧ _is_number (PFloat (S754_infinity false)) = true
  ∧ validate_exchange (PStr "m1") (PStr "p1")
      (PDict (<["type" := PStr "technosphere"]>
                (<["amount" := PFloat (S754_infinity false)]>
                   (<["input" := PTuple [PStr "bg"; PStr "c1"]]> ∅))))
    = Ok tt.
Proof. by vm_compute. Qed.

(** C10. In a dataset whose [database] or [code] is absent, not a string
    or empty, production exchanges with a numeric amount and any reference
    made of two non-empty strings pass validation: the production target
    is not checked and no error is raised. *)
Theorem production_check_skipped_without_identity (act : activity) :
  (¬ ∃ da co, has_identity act da co) →
  Forall (fun exc => ∃ (e : dict) amt a b,
            exc = PDict e
            ∧ e !! "type" = Some (PStr "production")
            ∧ e !! "amount" = Some amt ∧ _is_number amt = true
            ∧ e !! "input" = Some (PTuple [PStr a; PStr b])
            ∧ a ≠ "" ∧ b ≠ "")
    (exchanges act) →
  validate_activity act = Ok tt
  ∧ _validate_importer_payload [act] = Ok tt.
Proof.
  intros Hid Hex.
  assert (validate_activity act = Ok tt) as Hact.
  { unfold validate_activity. apply for_each_check_ok.
    eapply Forall_impl; [exact Hex|]. simpl.
    intros exc (e & amt & a & b & -> & Hty & Ham & Hnum & Hin & Ha & Hb).
    unfold validate_exchange.
    rewrite missing_keys_nil by (rewrite ?Hty, ?Ham, ?Hin; eauto).
    rewrite (get_lookup _ _ _ Hty), (get_lookup _ _ _ Ham),
      (get_lookup _ _ _ Hin). simpl hashable. simpl is_str.
    rewrite Hnum, valid_input_str by done. simpl.
    destruct (nonempty_str (get (act_fields act) "database")) as [da|] eqn:Hd;
      [|done].
    destruct (nonempty_str (get (act_fields act) "code")) as [co|] eqn:Hc;
      [|done].
    exfalso. apply Hid. exists da, co.
    apply nonempty_str_Some in Hd as [Hd ?], Hc as [Hc ?].
    repeat split; auto using get_PStr. }
  split; [done|]. unfold _validate_importer_payload. simpl. by rewrite Hact.
Qed.

(** C2. A dataset with a well-formed identity holds a production exchange
    whose reference differs from (database, code).  Then (1) validating
    that exchange raises an error carrying the dataset's identity and the
    exchange with its reference; (2) when the exchange is otherwise valid
    the error is the production-target error, naming the identity and the
    offending reference; (3) validation of the whole batch raises, and
    [_process_excel] raises the same error without reaching
    [write_database]: nothing is added to the registered databases. *)
Theorem production_mismatch_rejected (cfg : Config) (data : list activity)
  (bd : brightway) (act : activity) (da co : string) (e : dict)
  (inp : pyval) :
  act ∈ data → has_identity act da co →
  PDict e ∈ exchanges act →
  e !! "type" = Some (PStr "production") →
  e !! "input" = Some inp →
  inp ≠ ref_tuple (da, co) →
  let adb := get (act_fields act) "database" in
  let acode := get (act_fields act) "code" in
  (adb, acode) = (PStr da, PStr co)
  ∧ (∃ kind, validate_exchange adb acode (PDict e)
             = Raise (ValidationError kind (adb, acode) (PDict e)))
  ∧ (is_Some (e !! "amount") → _is_number (get e "amount") = true →
     is_Some (valid_input inp) →
     validate_exchange adb acode (PDict e)
     = Raise (ValidationError (ProductionTarget da co inp)
                (adb, acode) (PDict e)))
  ∧ (∃ err, _validate_importer_payload data = Raise err
            ∧ (_process_excel_write cfg data bd).2 = Raise err
            ∧ (_process_excel_write cfg data bd).1 ⊆ bd).
Proof.
  intros Hact (Hdb & Hcode & Hda & Hco) Hexc Hty Hin Hne adb acode.
  subst adb acode.
  rewrite (get_lookup _ _ _ Hdb), (get_lookup _ _ _ Hcode).
  destruct (validate_production_mismatch da co e inp Hda Hco Hty Hin Hne)
    as [[kind Hkind] Hexact].
  split; [done|]. split; [by exists kind|]. split; [exact Hexact|].
  assert (∃ err, validate_activity act = Raise err) as Hraise.
  { unfold validate_activity.
    rewrite (get_lookup _ _ _ Hdb), (get_lookup _ _ _ Hcode).
    eapply for_each_check_raise; [exact Hexc|]. eauto. }
  destruct (for_each_check_raise validate_activity data act Hact Hraise)
    as [err Herr].
  exists err. unfold _process_excel_write, _validate_importer_payload.
  rewrite Herr. simpl. split; [done|]. split; [done|].
  destruct (overwrite_metal_databases cfg); [|done].
  apply foldl_delete_subseteq.
Qed.

(** *** Technosphere relinking *)

Lemma for_each_id {S A} (body : S → A → S * A) (s : S) (l : list A) :
  Forall (fun x => body s x = (s, x)) l → for_each body s l = (s, l).
Proof.
  induction 1 as [|x l Hx _ IH]; [done|]. simpl. by rewrite Hx, IH.
Qed.

Lemma for_each_invariant {S A} (P : S → Prop) (body : S → A → S * A)
  (s : S) (l : list A) :
  (∀ s x, P s → P (body s x).1) → P s → P (for_each body s l).1.
Proof.
  intros Hbody. revert s. induction l as [|x l IH]; intros s Hs; [done|].
  simpl. destruct (body s x) as [s1 x'] eqn:Hb.
  specialize (IH s1). destruct (for_each body s1 l) as [s2 l'].
  simpl in *. apply IH. specialize (Hbody s x Hs). by rewrite Hb in Hbody.
Qed.

Lemma fill_technosphere_exchange_unknown (bd : brightway)
  (st : gmap string ei_index * nat) (e : dict) :
  unknown_source bd e →
  fill_technosphere_exchange bd st (PDict e) = (st, PDict e).
Proof.
  intros (Hty & Hin & Hdb). destruct st as [indices fixed].
  unfold fill_technosphere_exchange. rewrite Hty, Hin.
  simpl is_str. simpl negb. cbv iota.
  rewrite bool_decide_false by (by intros [? ?]).
  destruct (nonempty_str (get e "database")) as [db|] eqn:Hd; [|done].
  apply nonempty_str_Some in Hd as [Hd _].
  destruct (nonempty_str (get e "name")); [|done].
  destruct (nonempty_str (get e "reference product")); [|done].
  destruct (nonempty_str (get e "location")); [|done].
  by rewrite bool_decide_true by auto.
Qed.

(** Only registered databases ever get an index. *)
Lemma fill_technosphere_exchange_indices (bd : brightway)
  (st : gmap string ei_index * nat) (exc : pyval) :
  dom st.1 ⊆ dom bd → dom (fill_technosphere_exchange bd st exc).1.1 ⊆ dom bd.
Proof.
  destruct st as [indices fixed]. simpl. intros Hdom.
  unfold fill_technosphere_exchange. destruct exc; try done.
  destruct (negb _); [done|]. case_bool_decide; [done|].
  destruct (nonempty_str (get d "database")) as [db|]; [|done].
  destruct (nonempty_str (get d "name")); [|done].
  destruct (nonempty_str (get d "reference product")); [|done].
  destruct (nonempty_str (get d "location")); [|done].
  case_bool_decide as Hdb; [done|].
  assert (db ∈ dom bd) by (by destruct (decide (db ∈ dom bd))).
  assert (dom (match indices !! db with
               | Some _ => indices
               | None => <[db := _build_ecoinvent_index bd db]> indices
               end) ⊆ dom bd).
  { destruct (indices !! db); [done|]. rewrite dom_insert.
    apply union_least; [by apply singleton_subseteq_l|done]. }
  by destruct (_ !! (_, _, _)).
Qed.

Lemma fill_technosphere_activity_indices (bd : brightway)
  (st : gmap string ei_index * nat) (act : activity) :
  dom st.1 ⊆ dom bd → dom (fill_technosphere_activity bd st act).1.1 ⊆ dom bd.
Proof.
  intros Hst. unfold fill_technosphere_activity.
  pose proof (for_each_invariant (fun s => dom s.1 ⊆ dom bd)
                (fill_technosphere_exchange bd) st (exchanges act)
                (fill_technosphere_exchange_indices bd) Hst) as H.
  by destruct (for_each _ st (exchanges act)).
Qed.

(** C9. A technosphere exchange without a reference whose source-database
    label is not a registered database is left as it is, with the index
    cache and the count of fixed exchanges unchanged; over a whole payload
    no index is ever built for an unregistered database; and a payload
    made of such exchanges comes back unchanged with a count of zero.
    [_fill_missing_technosphere_inputs] has no raising path: it returns a
    value on every payload. *)
Theorem technosphere_unknown_database_skipped (bd : brightway) :
  (∀ st (e : dict),
     unknown_source bd e →
     fill_technosphere_exchange bd st (PDict e) = (st, PDict e))
  ∧ (∀ data db_name,
       db_name ∉ dom bd →
       (fill_technosphere_loop bd data).1.1 !! db_name = None)
  ∧ (∀ data,
       Forall (fun act =>
                 Forall (fun exc => ∃ e : dict,
                           exc = PDict e ∧ unknown_source bd e)
                   (exchanges act)) data →
       _fill_missing_technosphere_inputs bd data = (data, 0)).
Proof.
  split; [intros; by apply fill_technosphere_exchange_unknown|]. split.
  - intros data db_name Hdb. apply not_elem_of_dom.
    intros Hin. apply Hdb.
    pose proof (for_each_invariant (fun s => dom s.1 ⊆ dom bd)
                  (fill_technosphere_activity bd) (∅, 0) data
                  (fill_technosphere_activity_indices bd)) as H.
    apply H; [|exact Hin]. simpl. rewrite dom_empty. apply empty_subseteq.
  - intros data Hdata.
    unfold _fill_missing_technosphere_inputs, fill_technosphere_loop.
    rewrite for_each_id; [done|].
    eapply Forall_impl; [exact Hdata|]. simpl. intros act Hact.
    unfold fill_technosphere_activity. rewrite for_each_id.
    + by destruct act.
    + eapply Forall_impl; [exact Hact|].
      intros exc (e & -> & He).
      exact (fill_technosphere_exchange_unknown bd _ e He).
Qed.

(** *** The exact index *)

Lemma foldl_insert_list_to_map {A K V} `{Countable K}
  (g : A → option (K * V)) (l : list A) :
  foldl (fun (idx : gmap K V) x =>
           match g x with
           | Some kv => <[kv.1 := kv.2]> idx
           | None => idx
           end) ∅ l
  = list_to_map (reverse (omap g l)).
Proof.
  induction l as [|x l IH] using rev_ind; [done|].
  rewrite foldl_app, omap_app, reverse_app, IH. simpl.
  destruct (g x) as [[k v]|]; done.
Qed.

Lemma foldl_ext_eq {A B} (f g : A → B → A) (a : A) (l : list B) :
  (∀ a x, f a x = g a x) → foldl f a l = foldl g a l.
Proof.
  intros Hfg. revert a. induction l as [|x l IH]; intros a; [done|].
  simpl. by rewrite Hfg, IH.
Qed.

Lemma exact_index_list_to_map (bd : brightway) (db_name : string) :
  _build_biosphere_exact_index bd db_name
  = list_to_map (reverse (omap (exact_entry db_name) (Database bd db_name))).
Proof.
  rewrite <- foldl_insert_list_to_map. unfold _build_biosphere_exact_index.
  apply foldl_ext_eq. intros idx flow. unfold exact_entry.
  by destruct (flow_fields flow) as [[[name unit] code]|].
Qed.

Lemma flow_fields_Some (flow : dict) name unit code :
  flow_fields flow = Some (name, unit, code) ↔
    get flow "name" = PStr name ∧ get flow "unit" = PStr unit
    ∧ get flow "code" = PStr code ∧ code ≠ "".
Proof.
  unfold flow_fields. split.
  - destruct (get flow "name"), (get flow "unit"), (get flow "code");
      try done. case_decide; [done|]. by intros [= -> -> ->].
  - intros (-> & -> & -> & Hc). by rewrite decide_False.
Qed.

Lemma flow_fields_None (flow : dict) :
  flow_fields flow = None ↔
    (∀ s, get flow "name" ≠ PStr s) ∨ (∀ s, get flow "unit" ≠ PStr s)
    ∨ (∀ s, get flow "code" = PStr s → s = "").
Proof.
  unfold flow_fields. split.
  - destruct (get flow "name"), (get flow "unit"), (get flow "code");
      try (by left); try (by right; left); try (by right; right).
    case_decide; [|done]. intros _. right; right. by intros ? [= <-].
  - intros [Hn|[Hu|Hc]].
    + destruct (get flow "name"); try done. by destruct (Hn s).
    + destruct (get flow "name"); try done.
      destruct (get flow "unit"); try done. by destruct (Hu s0).
    + destruct (get flow "name"); try done.
      destruct (get flow "unit"); try done.
      destruct (get flow "code"); try done.
      by rewrite decide_True by auto.
Qed.

Lemma omap_exact_entry_skip db_name (l1 l2 : list dict) (flow : dict) :
  flow_fields flow = None →
  omap (exact_entry db_name) (l1 ++ flow :: l2)
  = omap (exact_entry db_name) (l1 ++ l2).
Proof.
  intros Hf. rewrite !omap_app. f_equal. simpl.
  unfold exact_entry at 1. by rewrite Hf.
Qed.

(** C6 (as the code has it). The exact index is built from the flows
    whose name and unit are strings and whose code is a non-empty string.
    (1) A flow that lacks one of these three is skipped: the index is the
    same as without it.  (2) Every entry of the index comes from a flow
    that has the three.  (3) [categories] is not required: a flow that has
    the three but no categories is indexed, under the empty category
    tuple. *)
Theorem exact_index_requires_name_unit_code (bd bd' : brightway)
  (db_name : string) :
  (∀ l1 l2 flow,
     Database bd db_name = l1 ++ flow :: l2 →
     Database bd' db_name = l1 ++ l2 →
     (∀ s, get flow "name" ≠ PStr s) ∨ (∀ s, get flow "unit" ≠ PStr s)
     ∨ (∀ s, get flow "code" = PStr s → s = "") →
     _build_biosphere_exact_index bd db_name
     = _build_biosphere_exact_index bd' db_name)
  ∧ (∀ k v,
       _build_biosphere_exact_index bd db_name !! k = Some v →
       ∃ flow name unit code,
         flow ∈ Database bd db_name
         ∧ get flow "name" = PStr name ∧ get flow "unit" = PStr unit
         ∧ get flow "code" = PStr code ∧ code ≠ ""
         ∧ k = exact_key flow name unit ∧ v = (db_name, code))
  ∧ (∀ flow name unit code,
       flow ∈ Database bd db_name →
       get flow "name" = PStr name → get flow "unit" = PStr unit →
       get flow "code" = PStr code → code ≠ "" →
       flow !! "categories" = None →
       is_Some (_build_biosphere_exact_index bd db_name
                  !! (_norm name, [], _norm unit))).
Proof.
  rewrite !exact_index_list_to_map. repeat split.
  - intros l1 l2 flow -> -> Hmiss. apply flow_fields_None in Hmiss.
    by rewrite omap_exact_entry_skip.
  - intros k v Hkv. apply elem_of_list_to_map_2 in Hkv.
    apply elem_of_reverse, list_elem_of_omap in Hkv as (flow & Hin & He).
    unfold exact_entry in He.
    destruct (flow_fields flow) as [[[name unit] code]|] eqn:Hf; [|done].
    injection He as <- <-. apply flow_fields_Some in Hf as (?&?&?&?).
    by exists flow, name, unit, code.
  - intros flow name unit code Hin Hn Hu Hc Hne Hcat.
    apply not_eq_None_Some. rewrite <- not_elem_of_list_to_map.
    intros Hnot. apply Hnot. apply list_elem_of_fmap.
    exists ((_norm name, [], _norm unit), (db_name, code)). split; [done|].
    apply elem_of_reverse, list_elem_of_omap. exists flow. split; [done|].
    unfold exact_entry.
    rewrite (proj2 (flow_fields_Some flow name unit code)) by done.
    unfold exact_key, get at 1. by rewrite Hcat.
Qed.

(** C7. When the indexed flows of a reference collection have pairwise
    distinct normalized (name, categories, unit) triples, two iteration
    orders of the collection give the same exact index, and so the same
    exact-match answer for every exchange. *)
Theorem exact_index_order_independent (bd bd' : brightway)
  (db_name : string) :
  Database bd db_name ≡ₚ Database bd' db_name →
  NoDup (exact_keys db_name (Database bd db_name)) →
  _build_biosphere_exact_index bd db_name
  = _build_biosphere_exact_index bd' db_name
  ∧ ∀ (e : dict) raw_name unit,
      _build_biosphere_exact_index bd db_name
        !! (_norm raw_name, norm_categories (get e "categories"), _norm unit)
      = _build_biosphere_exact_index bd' db_name
        !! (_norm raw_name, norm_categories (get e "categories"), _norm unit).
Proof.
  intros Hperm Hnodup.
  assert (_build_biosphere_exact_index bd db_name
          = _build_biosphere_exact_index bd' db_name) as Heq.
  { rewrite !exact_index_list_to_map. apply list_to_map_proper.
    - by rewrite fmap_reverse, reverse_Permutation.
    - by rewrite !reverse_Permutation, Hperm. }
  split; [done|]. intros. by rewrite Heq.
Qed.

(** *** Name-only resolution *)

Lemma filter_nil_not_Exists {A} (P : A → Prop) `{∀ x, Decision (P x)}
  (l : list A) :
  filter P l = [] ↔ ¬ Exists P l.
Proof.
  induction l as [|x l IH].
  - split; [|done]. intros _ H'. inversion H'.
  - rewrite filter_cons. destruct (decide (P x)) as [Hx|Hx].
    + split; [done|]. intros Hn. destruct Hn. by left.
    + rewrite IH. split.
      * intros Hn He. by inversion He.
      * intros Hn He. apply Hn. by right.
Qed.

Lemma unit_filtered_eq (cands : list candidate) (unit_n : string) :
  match filter (fun c => cand_unit c = unit_n) cands with
  | [] => cands
  | l => l
  end = unit_filtered cands unit_n.
Proof.
  unfold unit_filtered. case_bool_decide as He.
  - destruct (filter _ cands) eqn:Hf; [|done].
    by apply filter_nil_not_Exists in Hf.
  - apply (proj2 (filter_nil_not_Exists _ cands)) in He. by rewrite He.
Qed.

Lemma unit_filtered_nil (unit_n : string) : unit_filtered [] unit_n = [].
Proof. unfold unit_filtered. by case_bool_decide. Qed.

(** [choose_best_candidate], written over the unit-filtered candidates. *)
Lemma choose_best_candidate_eq (cands : list candidate) (unit_n : string)
  (top : option string) :
  choose_best_candidate cands unit_n top =
    let kept := unit_filtered cands unit_n in
    let by_unit :=
      match kept with
      | [c] => Some (cand_db c, cand_code c)
      | _ => None
      end in
    match top with
    | Some t =>
        if decide (t = "") then by_unit
        else match filter (fun c => head (cand_cats c) = Some (_norm t)) kept
             with
             | [c] => Some (cand_db c, cand_code c)
             | _ :: _ :: _ => None
             | [] => by_unit
             end
    | None => by_unit
    end.
Proof.
  destruct cands as [|c0 cs].
  - cbv zeta. rewrite unit_filtered_nil. simpl.
    destruct top as [t|]; [|done]. by case_decide.
  - unfold choose_best_candidate. cbv zeta. rewrite unit_filtered_eq.
    destruct top as [[|a t]|]; [done| |done].
    by rewrite decide_False.
Qed.

Lemma norm_categories_head_normal (cats : pyval) (t : string) :
  head (norm_categories cats) = Some t → _norm t = t.
Proof.
  pose proof norm_idem as Hidem.
  destruct cats as [| | | |s|l|l|]; simpl; try done.
  - case_decide; [done|]. simpl. by intros [= <-].
  - destruct l; simpl; [done|]. by intros [= <-].
  - destruct l; simpl; [done|]. by intros [= <-].
Qed.

Lemma name_idx_lookup (bd : brightway) (db_name n : string) :
  default [] (build_name_idx bd db_name !! n)
  = omap (flow_candidate db_name)
      (filter (fun flow => is_named n flow = true) (Database bd db_name)).
Proof.
  unfold build_name_idx.
  induction (Database bd db_name) as [|flow rows IH] using rev_ind; [done|].
  rewrite foldl_app, filter_app, omap_app, <- IH. simpl foldl.
  rewrite filter_cons, filter_nil. unfold is_named.
  destruct (flow_fields flow) as [[[name unit] code]|] eqn:Hf.
  - destruct (decide (_norm name = n)) as [<-|Hne].
    + rewrite lookup_insert_eq, bool_decide_true, decide_True by done.
      simpl. unfold flow_candidate. by rewrite Hf.
    + rewrite lookup_insert_ne, bool_decide_false, decide_False by done.
      simpl. by rewrite app_nil_r.
  - rewrite decide_False by done. simpl. by rewrite app_nil_r.
Qed.

Lemma candidates_for_name_eq (bd : brightway) (db_name name : string) :
  candidates_for_name (build_name_idx bd db_name) name
  = dedup_candidates
      (omap (flow_candidate db_name)
         (filter (fun flow => is_named (_norm name) flow = true)
            (Database bd db_name))).
Proof.
  unfold candidates_for_name, _BIO_NAME_ALIASES.
  rewrite lookup_empty. simpl. by rewrite name_idx_lookup.
Qed.

Lemma dedup_candidates_two (c1 c2 : candidate) :
  (cand_db c1, cand_code c1) ≠ (cand_db c2, cand_code c2) →
  dedup_candidates [c1; c2] = [c1; c2].
Proof.
  intros Hne. unfold dedup_candidates. cbn [foldl fst snd].
  rewrite !bool_decide_false by (set_unfold; intuition congruence).
  done.
Qed.

Lemma unit_filtered_same_unit (c1 c2 : candidate) (unit_n : string) :
  cand_unit c1 = cand_unit c2 → unit_filtered [c1; c2] unit_n = [c1; c2].
Proof.
  intros Hu. unfold unit_filtered. case_bool_decide as He; [|done].
  rewrite !filter_cons, filter_nil, <- Hu.
  destruct (decide (cand_unit c1 = unit_n)); [done|].
  exfalso.
  inversion He as [| ? ? He']; subst; [done|].
  inversion He' as [| ? ? He'']; subst; [congruence|]. inversion He''.
Qed.

(** C1. Stage C is conservative.  With [kept] the unit-filtered candidates
    (the unit-matching ones, or all of them when none matches):
    (1) a non-empty top-level category that is the first category of
    exactly one kept candidate selects that candidate; (2) when it is the
    first category of two or more, nothing is selected; (3) with no
    top-level category (absent or empty), or one that no kept candidate
    has, a candidate is selected exactly when it is the only kept one;
    (4) the top-level category the exchange loop passes is already
    normalized, so the comparison is with the value itself; (5) when the
    reference flows carrying the substituted normalized name are two
    distinct flows with the same normalized unit, an exchange without a
    category hint gets no selection, whatever its unit. *)
Theorem stage_c_is_conservative (cands : list candidate) (unit_n : string)
  (top : option string) :
  let kept := unit_filtered cands unit_n in
  (∀ t c, top = Some t → t ≠ "" →
     filter (fun c => head (cand_cats c) = Some (_norm t)) kept = [c] →
     choose_best_candidate cands unit_n top
     = Some (cand_db c, cand_code c))
  ∧ (∀ t, top = Some t → t ≠ "" →
       2 ≤ length (filter (fun c => head (cand_cats c) = Some (_norm t))
                     kept) →
       choose_best_candidate cands unit_n top = None)
  ∧ (top = None ∨ top = Some ""
     ∨ (∃ t, top = Some t
             ∧ filter (fun c => head (cand_cats c) = Some (_norm t)) kept
               = []) →
     choose_best_candidate cands unit_n top
     = match kept with
       | [c] => Some (cand_db c, cand_code c)
       | _ => None
       end)
  ∧ (∀ cats t, head (norm_categories cats) = Some t → _norm t = t)
  ∧ (∀ (bd : brightway) db_name mapped_name f1 f2 n1 u1 c1 n2 u2 c2,
       filter (fun flow => is_named (_norm mapped_name) flow = true)
         (Database bd db_name) = [f1; f2] →
       flow_fields f1 = Some (n1, u1, c1) →
       flow_fields f2 = Some (n2, u2, c2) →
       _norm u1 = _norm u2 → c1 ≠ c2 →
       top = None ∨ top = Some "" →
       choose_best_candidate
         (candidates_for_name (build_name_idx bd db_name) mapped_name)
         unit_n top = None).
Proof.
  intros kept. subst kept.
  split; [|split; [|split; [|split]]].
  - intros t c -> Ht Hf. rewrite choose_best_candidate_eq. cbv zeta.
    by rewrite decide_False, Hf by done.
  - intros t -> Ht Hlen. rewrite choose_best_candidate_eq. cbv zeta.
    rewrite decide_False by done.
    destruct (filter _ _) as [|a [|b l]]; simpl in Hlen; [lia|lia|done].
  - intros Htop. rewrite choose_best_candidate_eq. cbv zeta.
    destruct Htop as [->|[->|(t & -> & Hf)]]; [done|done|].
    rewrite Hf. by case_decide.
  - exact norm_categories_head_normal.
  - intros bd db_name mapped_name f1 f2 n1 u1 c1 n2 u2 c2 Hrows Hf1 Hf2 Hu
      Hc Htop.
    rewrite candidates_for_name_eq, Hrows. simpl omap.
    unfold flow_candidate at 1 2. rewrite Hf1, Hf2. simpl.
    rewrite dedup_candidates_two by (simpl; congruence).
    rewrite choose_best_candidate_eq. cbv zeta.
    rewrite unit_filtered_same_unit by done.
    by destruct Htop as [->| ->].
Qed.

(** *** Custom biosphere flows *)

Lemma ensure_custom_biosphere_db_lookup (store : flow_store)
  (db_name : string) :
  _ensure_custom_biosphere_db store db_name !! db_name
  = Some (default ∅ (store !! db_name)).
Proof.
  unfold _ensure_custom_biosphere_db.
  destruct (store !! db_name) as [flows|] eqn:Hs; simpl.
  - by rewrite Hs.
  - by rewrite lookup_insert_eq.
Qed.

Lemma ensure_custom_biosphere_db_idem (store : flow_store)
  (db_name : string) :
  is_Some (store !! db_name) →
  _ensure_custom_biosphere_db store db_name = store.
Proof. intros [flows Hs]. unfold _ensure_custom_biosphere_db. by rewrite Hs. Qed.

(** After a call the flow is in the store under the returned key. *)
Lemma get_or_create_stored (store : flow_store) (db_name flow_name : string)
  (categories : list string) (unit : string) :
  let r := _get_or_create_custom_biosphere_flow store db_name flow_name
             categories unit in
  r.2 = (db_name, _custom_flow_code flow_name categories unit)
  ∧ ∃ flows, r.1 !! db_name = Some flows ∧ is_Some (flows !! r.2)
             ∧ size flows ≤ S (size (default ∅ (store !! db_name)))
             ∧ (default ∅ (store !! db_name) !! r.2 = None →
                flows !! r.2
                = Some (custom_flow flow_name categories unit r.2.2)).
Proof.
  unfold _get_or_create_custom_biosphere_flow. cbv zeta.
  rewrite ensure_custom_biosphere_db_lookup. cbn [from_option id].
  set (key := (db_name, _custom_flow_code flow_name categories unit)).
  set (existing := default ∅ (store !! db_name)).
  destruct (existing !! key) as [flow|] eqn:Hk; cbn [fst snd].
  - split; [done|]. exists existing.
    rewrite ensure_custom_biosphere_db_lookup.
    repeat split; [by rewrite Hk|lia|by rewrite Hk].
  - split; [done|]. eexists. rewrite lookup_insert_eq.
    split; [done|]. rewrite lookup_insert_eq. split; [done|].
    split; [|done]. by rewrite map_size_insert_None.
Qed.

(** C3. Two calls of [_get_or_create_custom_biosphere_flow] with the same
    (name, categories, unit): both return (db_name, code) with the code
    computed from the triple alone, whatever the store holds; after the
    first call the flow is stored under that key; and the second call
    leaves the store as the first one left it, so no second entity is
    created. *)
Theorem custom_flow_identifier_stable (store store' : flow_store)
  (db_name flow_name : string) (categories : list string) (unit : string) :
  let first := _get_or_create_custom_biosphere_flow store db_name flow_name
                 categories unit in
  let second := _get_or_create_custom_biosphere_flow first.1 db_name
                  flow_name categories unit in
  first.2 = (db_name, _custom_flow_code flow_name categories unit)
  ∧ second.2 = first.2
  ∧ (_get_or_create_custom_biosphere_flow store' db_name flow_name
       categories unit).2 = first.2
  ∧ second.1 = first.1
  ∧ ∃ flows, first.1 !! db_name = Some flows ∧ is_Some (flows !! first.2)
             ∧ second.1 !! db_name = Some flows
             ∧ size flows ≤ S (size (default ∅ (store !! db_name))).
Proof.
  intros first second.
  destruct (get_or_create_stored store db_name flow_name categories unit)
    as (Hkey & flows & Hflows & Hin & Hsize & _).
  destruct (get_or_create_stored first.1 db_name flow_name categories unit)
    as (Hkey2 & _).
  destruct (get_or_create_stored store' db_name flow_name categories unit)
    as (Hkey3 & _).
  fold first in Hkey, Hflows, Hin. fold second in Hkey2.
  assert (second.1 = first.1) as Hsame.
  { subst second. unfold _get_or_create_custom_biosphere_flow at 1.
    cbv zeta. rewrite ensure_custom_biosphere_db_idem by (by rewrite Hflows).
    rewrite Hflows. simpl default. rewrite <- Hkey.
    by destruct Hin as [flow ->]. }
  split; [done|]. split; [by rewrite Hkey2|]. split; [by rewrite Hkey3|].
  split; [done|]. exists flows. by rewrite Hsame.
Qed.

(** *** The stages of biosphere resolution *)

(** What the exchange loop does once stages A to C have found nothing. *)
Lemma fill_biosphere_exchange_step_d (cfg : Config) (exact_idx : bio_index)
  (name_idx : gmap string (list candidate)) (name_map : gmap string string)
  (store : flow_store) (fixed : nat) (e : dict) (raw_name unit : string) :
  get e "type" = PStr "biosphere" → e !! "input" = None →
  get e "name" = PStr raw_name → get e "unit" = PStr unit →
  let cats_t := norm_categories (get e "categories") in
  let mapped_name := default raw_name (name_map !! _norm raw_name) in
  exact_idx !! (_norm raw_name, cats_t, _norm unit) = None →
  exact_idx !! (_norm mapped_name, cats_t, _norm unit) = None →
  choose_best_candidate (candidates_for_name name_idx mapped_name)
    (_norm unit) (head cats_t) = None →
  fill_biosphere_exchange cfg exact_idx name_idx name_map (store, fixed)
    (PDict e)
  = if allow_create_missing_biosphere_flows cfg then
      let r := _get_or_create_custom_biosphere_flow store
                 (custom_biosphere_db_name cfg) raw_name cats_t
                 (_norm unit) in
      Ok ((r.1, S fixed), PDict (<["input" := ref_tuple r.2]> e))
    else
      Raise (UnresolvedBiosphere raw_name mapped_name (get e "categories")
               unit).
Proof.
  intros Hty Hin Hname Hunit cats_t mapped_name HA HB HC.
  unfold fill_biosphere_exchange. rewrite Hty, Hin, Hname, Hunit.
  simpl is_str. simpl negb. cbv iota.
  rewrite bool_decide_false by (by intros [? ?]). cbv zeta.
  fold cats_t. rewrite HA. fold mapped_name. rewrite HB, HC.
  destruct (allow_create_missing_biosphere_flows cfg); [|done].
  by destruct (_get_or_create_custom_biosphere_flow _ _ _ _ _).
Qed.

(** C5 (as the code has it). When stages A to C find nothing for a
    biosphere exchange and the creation of custom flows is enabled, the
    factory is called with the exchange's original name (neither
    substituted nor normalized), its normalized category tuple and its
    normalized unit; the exchange's reference becomes the returned key;
    and a flow created by the call carries exactly these attributes. *)
Theorem synthetic_fallback_arguments (cfg : Config) (exact_idx : bio_index)
  (name_idx : gmap string (list candidate)) (name_map : gmap string string)
  (store : flow_store) (fixed : nat) (e : dict) (raw_name unit : string) :
  allow_create_missing_biosphere_flows cfg = true →
  get e "type" = PStr "biosphere" → e !! "input" = None →
  get e "name" = PStr raw_name → get e "unit" = PStr unit →
  let cats_t := norm_categories (get e "categories") in
  let mapped_name := default raw_name (name_map !! _norm raw_name) in
  exact_idx !! (_norm raw_name, cats_t, _norm unit) = None →
  exact_idx !! (_norm mapped_name, cats_t, _norm unit) = None →
  choose_best_candidate (candidates_for_name name_idx mapped_name)
    (_norm unit) (head cats_t) = None →
  let db_name := custom_biosphere_db_name cfg in
  let r := _get_or_create_custom_biosphere_flow store db_name raw_name
             cats_t (_norm unit) in
  fill_biosphere_exchange cfg exact_idx name_idx name_map (store, fixed)
    (PDict e)
  = Ok ((r.1, S fixed), PDict (<["input" := ref_tuple r.2]> e))
  ∧ r.2 = (db_name, _custom_flow_code raw_name cats_t (_norm unit))
  ∧ ∃ flows, r.1 !! db_name = Some flows ∧ is_Some (flows !! r.2)
             ∧ (default ∅ (store !! db_name) !! r.2 = None →
                flows !! r.2
                = Some (custom_flow raw_name cats_t (_norm unit) r.2.2)).
Proof.
  intros Hallow Hty Hin Hname Hunit cats_t mapped_name HA HB HC db_name r.
  split.
  - rewrite (fill_biosphere_exchange_step_d cfg exact_idx name_idx name_map
               store fixed e raw_name unit Hty Hin Hname Hunit HA HB HC).
    by rewrite Hallow.
  - destruct (get_or_create_stored store db_name raw_name cats_t
                (_norm unit)) as (Hkey & flows & Hflows & Hsome & _ & Hnew).
    split; [done|]. by exists flows.
Qed.

(** ** Further properties *)

(** *** Loops *)

Lemma for_each_Forall2 {S A} (R : A → A → Prop) (body : S → A → S * A)
  (s : S) (l : list A) :
  (∀ s x, R x (body s x).2) → Forall2 R l (for_each body s l).2.
Proof.
  intros HR. revert s. induction l as [|x l IH]; intros s; [constructor|].
  simpl. pose proof (HR s x) as Hx. destruct (body s x) as [s1 x'].
  specialize (IH s1). destruct (for_each body s1 l) as [s2 l'].
  simpl in *. by constructor.
Qed.

Lemma for_each_exchange_related {S} (R : pyval → pyval → Prop)
  (body : S → pyval → S * pyval) (s : S) (data : list activity) :
  (∀ s x, R x (body s x).2) →
  exchanges_related R data (for_each_exchange body s data).2.
Proof.
  intros HR. unfold exchanges_related, for_each_exchange.
  apply for_each_Forall2. intros s1 act.
  pose proof (for_each_Forall2 R body s1 (exchanges act) HR) as H.
  destruct (for_each body s1 (exchanges act)) as [s2 excs]. by split.
Qed.

Lemma for_each_exchange_id {S} (body : S → pyval → S * pyval) (s : S)
  (data : list activity) :
  Forall (fun act => Forall (fun x => body s x = (s, x)) (exchanges act))
    data →
  for_each_exchange body s data = (s, data).
Proof.
  intros Hdata. unfold for_each_exchange. apply for_each_id.
  eapply Forall_impl; [exact Hdata|]. intros act Hact. simpl in *.
  rewrite for_each_id by done. by destruct act.
Qed.

Lemma exchanges_related_Forall (R : pyval → pyval → Prop) (P : pyval → Prop)
  (data data' : list activity) :
  exchanges_related R data data' → (∀ x x', R x x' → P x') →
  Forall (fun act => Forall P (exchanges act)) data'.
Proof.
  intros Hrel HP. induction Hrel as [|act act' ? ? [_ Hex] _ IH];
    constructor; [|done].
  clear IH. induction Hex; constructor; eauto.
Qed.

(** *** Reference strings *)

Lemma split_colons_sound l a b :
  split_colons l = Some (a, b) → l = a ++ ":"%char :: ":"%char :: b.
Proof.
  revert a. induction l as [|c t IH]; intros a; [done|]. simpl.
  assert (Hrec : match split_colons t with
                 | Some (a0, b0) => Some (c :: a0, b0)
                 | None => None
                 end = Some (a, b) → c :: t = a ++ ":"%char :: ":"%char :: b).
  { destruct (split_colons t) as [[a0 b0]|]; [|done].
    intros [= <- <-]. simpl. f_equal. by apply IH. }
  destruct (decide (c = ":"%char)) as [->|Hc].
  - destruct t as [|d r]; [done|].
    destruct (decide (d = ":"%char)) as [->|Hd]; [by intros [= <- <-]|].
    destruct d as [[] [] [] [] [] [] [] []]; try done.
  - destruct c as [[] [] [] [] [] [] [] []]; try done.
Qed.

Lemma split_colons_colon_free a b :
  Forall (fun c => c ≠ ":"%char) a →
  split_colons (a ++ ":"%char :: ":"%char :: b) = Some (a, b).
Proof.
  induction 1 as [|c a Hc _ IH]; [done|].
  rewrite <- app_comm_cons. simpl. rewrite IH.
  destruct c as [[] [] [] [] [] [] [] []]; try done.
Qed.

Lemma split_colons_after_split a b :
  split_colons (a ++ ":"%char :: ":"%char :: b) ≠ None.
Proof.
  induction a as [|c a IH]; [done|].
  rewrite <- app_comm_cons. simpl.
  destruct (split_colons (a ++ _)) as [[a0 b0]|]; [|done].
  destruct c as [[] [] [] [] [] [] [] []]; try done;
    by destruct (a ++ _) as [|[[] [] [] [] [] [] [] []] ?].
Qed.

Lemma string_of_list_ascii_app (a b : list ascii) :
  string_of_list_ascii (a ++ b)
  = string_of_list_ascii a +:+ string_of_list_ascii b.
Proof. induction a as [|c a IH]; [done|]. simpl. by rewrite IH. Qed.

Lemma split_db_code_sound (inp a b : string) :
  split_db_code inp = Some (a, b) → inp = a +:+ "::" +:+ b.
Proof.
  unfold split_db_code.
  destruct (split_colons _) as [[la lb]|] eqn:Hs; [|done].
  intros [= <- <-]. apply split_colons_sound in Hs.
  rewrite <- (string_of_list_ascii_of_string inp), Hs.
  by rewrite string_of_list_ascii_app.
Qed.

Lemma split_db_code_colon_free (db code : string) :
  colon_free db → split_db_code (db +:+ "::" +:+ code) = Some (db, code).
Proof.
  intros Hdb. unfold split_db_code.
  rewrite list_ascii_of_string_app. simpl list_ascii_of_string.
  rewrite split_colons_colon_free by done.
  by rewrite !string_of_list_ascii_of_string.
Qed.

Lemma split_db_code_None (inp : string) :
  split_db_code inp = None ↔ ∀ a b, inp ≠ a +:+ "::" +:+ b.
Proof.
  split.
  - intros Hn a b ->. unfold split_db_code in Hn.
    rewrite list_ascii_of_string_app in Hn. simpl list_ascii_of_string in Hn.
    destruct (split_colons _) as [[la lb]|] eqn:Hs; [done|].
    by apply split_colons_after_split in Hs.
  - intros Hall. destruct (split_db_code inp) as [[a b]|] eqn:Hs; [|done].
    apply split_db_code_sound in Hs. by destruct (Hall a b).
Qed.

(** A relinked exchange is stable under the pass. *)
Lemma normalize_exchange_input_stable (n m : nat) (exc : pyval) :
  normalize_exchange_input m (normalize_exchange_input n exc).2
  = (m, (normalize_exchange_input n exc).2).
Proof.
  destruct exc as [| | | | | | |e]; try done.
  unfold normalize_exchange_input.
  destruct (get e "input") as [| | | |inp| | |] eqn:Hin;
    cbn [snd]; rewrite ?Hin; try done.
  destruct (split_db_code inp) as [[a b]|] eqn:Hs; cbn [snd].
  - unfold get. by rewrite lookup_insert_eq.
  - by rewrite Hin, Hs.
Qed.

(** X1. [_normalize_exchange_inputs_to_tuples] changes nothing but string
    references that contain "::": such a reference becomes the pair of
    the texts before and after a "::" of it, so joining the pair with "::"
    gives the string back.  The cut is at the leftmost "::": a reference
    db::code whose database part has no colon becomes (db, code), whatever
    the code part contains. *)
Theorem normalize_inputs_splits_references (data : list activity) :
  exchanges_related
    (fun exc exc' =>
       exc' = exc
       ∨ ∃ (e : dict) inp a b,
           exc = PDict e ∧ e !! "input" = Some (PStr inp)
           ∧ inp = a +:+ "::" +:+ b
           ∧ exc' = PDict (<["input" := ref_tuple (a, b)]> e))
    data (_normalize_exchange_inputs_to_tuples data).1
  ∧ ∀ (e : dict) db code n,
      e !! "input" = Some (PStr (db +:+ "::" +:+ code)) → colon_free db →
      normalize_exchange_input n (PDict e)
      = (S n, PDict (<["input" := ref_tuple (db, code)]> e)).
Proof.
  split.
  - unfold _normalize_exchange_inputs_to_tuples.
    pose proof (for_each_exchange_related
                  (fun exc exc' =>
                     exc' = exc
                     ∨ ∃ (e : dict) inp a b,
                         exc = PDict e ∧ e !! "input" = Some (PStr inp)
                         ∧ inp = a +:+ "::" +:+ b
                         ∧ exc' = PDict (<["input" := ref_tuple (a, b)]> e))
                  normalize_exchange_input 0 data) as H.
    destruct (for_each_exchange normalize_exchange_input 0 data)
      as [changed data1].
    apply H. clear. intros s exc. unfold normalize_exchange_input.
    destruct exc as [| | | | | | |e]; try (by left).
    destruct (get e "input") as [| | | |inp| | |] eqn:Hin; try (by left).
    destruct (split_db_code inp) as [[a b]|] eqn:Hs; [|by left].
    right. exists e, inp, a, b. apply split_db_code_sound in Hs.
    by auto using get_PStr.
  - intros e db code n Hin Hdb. unfold normalize_exchange_input.
    by rewrite (get_lookup _ _ _ Hin), split_db_code_colon_free.
Qed.

(** X2. After [_normalize_exchange_inputs_to_tuples] no exchange has a
    string reference that contains "::", and a second pass changes
    nothing and counts zero. *)
Theorem normalize_inputs_idempotent (data : list activity) :
  let data1 := (_normalize_exchange_inputs_to_tuples data).1 in
  Forall (fun act =>
            Forall (fun exc => ∀ (e : dict) inp a b,
                      exc = PDict e → e !! "input" = Some (PStr inp) →
                      inp ≠ a +:+ "::" +:+ b)
              (exchanges act)) data1
  ∧ _normalize_exchange_inputs_to_tuples data1 = (data1, 0).
Proof.
  intros data1. subst data1. unfold _normalize_exchange_inputs_to_tuples.
  pose proof (for_each_exchange_related
                (fun _ exc' => ∀ m,
                   normalize_exchange_input m exc' = (m, exc'))
                normalize_exchange_input 0 data
                (fun s x m => normalize_exchange_input_stable s m x)) as H.
  destruct (for_each_exchange normalize_exchange_input 0 data)
    as [changed data1]. simpl in *.
  split.
  - eapply exchanges_related_Forall; [exact H|]. simpl.
    intros _ exc' Hst e inp a b -> Hin. specialize (Hst 0).
    unfold normalize_exchange_input in Hst.
    rewrite (get_lookup _ _ _ Hin) in Hst.
    destruct (split_db_code inp) as [[a0 b0]|] eqn:Hs; [done|].
    by apply split_db_code_None.
  - rewrite for_each_exchange_id; [done|].
    eapply exchanges_related_Forall; [exact H|]. simpl. auto.
Qed.

(** *** The background label and the text fields *)

Lemma rewrite_exchange_label_spec (old_bg new_bg : string) (n : nat)
  (e : dict) :
  old_bg ≠ new_bg →
  ∃ e' : dict,
    (rewrite_exchange_label old_bg new_bg n (PDict e)).2 = PDict e'
    ∧ (∀ k, k ≠ "database" → k ≠ "input" → e' !! k = e !! k)
    ∧ is_str (get e' "database") old_bg = false
    ∧ (∀ i0 i1, get e' "input" = PTuple [i0; i1] → is_str i0 old_bg = false)
    ∧ (is_str (get e "database") old_bg = false →
       e' !! "database" = e !! "database")
    ∧ (∀ i0 i1, get e "input" = PTuple [i0; i1] →
                is_str i0 old_bg = false → e' !! "input" = e !! "input")
    ∧ (∀ i0 i1, get e "input" = PTuple [i0; i1] →
                is_str i0 old_bg = true →
                e' !! "input" = Some (PTuple [PStr new_bg; i1]))
    ∧ (is_str (get e "database") old_bg = true →
       e' !! "database" = Some (PStr new_bg))
    ∧ ((∀ i0 i1, get e "input" ≠ PTuple [i0; i1]) →
       e' !! "input" = e !! "input").
Proof.
  intros Hne. unfold rewrite_exchange_label.
  set (e1 := if is_str (get e "database") old_bg
             then <["database" := PStr new_bg]> e else e).
  assert (He1 : (if is_str (get e "database") old_bg
                 then (S n, <["database" := PStr new_bg]> e)
                 else (n, e))
                = (if is_str (get e "database") old_bg then S n else n, e1)).
  { subst e1. by destruct (is_str _ _). }
  rewrite He1. clear He1.
  assert (Hin : get e1 "input" = get e "input").
  { subst e1. destruct (is_str _ _); [|done].
    unfold get. by rewrite lookup_insert_ne. }
  assert (Hk : ∀ k, k ≠ "database" → e1 !! k = e !! k).
  { intros k Hk. subst e1. destruct (is_str _ _); [|done].
    by rewrite lookup_insert_ne. }
  assert (Hin' : e1 !! "input" = e !! "input") by (by apply Hk).
  assert (Hdb : is_str (get e1 "database") old_bg = false).
  { subst e1. destruct (is_str (get e "database") old_bg) eqn:Hd; [|done].
    unfold get. rewrite lookup_insert_eq. simpl.
    by rewrite bool_decide_false. }
  assert (Hdb' : is_str (get e "database") old_bg = false →
                 e1 !! "database" = e !! "database").
  { intros Hd. subst e1. by rewrite Hd. }
  assert (Hnew : is_str (get e "database") old_bg = true →
                 e1 !! "database" = Some (PStr new_bg)).
  { intros Hd. subst e1. rewrite Hd. by rewrite lookup_insert_eq. }
  set (n1 := if is_str (get e "database") old_bg then S n else n).
  clearbody e1 n1.
  destruct (get e1 "input") as [| | | | |l| |] eqn:Hinp;
    try (exists e1; cbn [snd]; repeat split; auto; intros; congruence).
  destruct l as [|i0 [|i1 [|? ?]]];
    try (exists e1; cbn [snd]; repeat split; auto; intros; congruence).
  assert (Hinv : ∀ j0 j1, get e "input" = PTuple [j0; j1] →
                          j0 = i0 ∧ j1 = i1).
  { intros j0 j1 Hj.
    assert (PTuple [j0; j1] = PTuple [i0; i1]) as Heq by congruence.
    split; congruence. }
  destruct (is_str i0 old_bg) eqn:Hi0; cbn [snd].
  - exists (<["input" := PTuple [PStr new_bg; i1]]> e1).
    split; [done|]. split.
    { intros k ? ?. rewrite lookup_insert_ne by done. auto. }
    split.
    { unfold get. by rewrite lookup_insert_ne. }
    split.
    { intros j0 j1. unfold get. rewrite lookup_insert_eq. simpl.
      intros Hj. assert (j0 = PStr new_bg) as -> by congruence.
      simpl. by rewrite bool_decide_false. }
    split.
    { intros Hd. rewrite lookup_insert_ne by done. auto. }
    split.
    { intros j0 j1 Hj Hf. destruct (Hinv j0 j1 Hj) as [-> ->]. congruence. }
    split.
    { intros j0 j1 Hj _. destruct (Hinv j0 j1 Hj) as [-> ->].
      by rewrite lookup_insert_eq. }
    split.
    { intros Hd. rewrite lookup_insert_ne by done. auto. }
    intros Hnp. exfalso. apply (Hnp i0 i1). congruence.
  - exists e1. split; [done|]. split; [auto|]. split; [done|].
    split.
    { intros j0 j1 Hj. assert (j0 = i0) as -> by congruence. done. }
    split; [done|]. split.
    { intros j0 j1 Hj _. by rewrite Hk. }
    split.
    { intros j0 j1 Hj Ht. destruct (Hinv j0 j1 Hj) as [-> ->]. congruence. }
    split; [done|]. done.
Qed.

Lemma rewrite_exchange_label_fixed (old_bg new_bg : string) (m : nat)
  (exc : pyval) :
  (∀ e : dict, exc = PDict e →
     is_str (get e "database") old_bg = false
     ∧ ∀ i0 i1, get e "input" = PTuple [i0; i1] → is_str i0 old_bg = false) →
  rewrite_exchange_label old_bg new_bg m exc = (m, exc).
Proof.
  destruct exc as [| | | | | | |e]; try done.
  intros H. destruct (H e eq_refl) as [Hdb Hin].
  unfold rewrite_exchange_label. rewrite Hdb.
  destruct (get e "input") as [| | | | |l| |]; try done.
  destruct l as [|i0 [|i1 [|? ?]]]; try done.
  by rewrite (Hin i0 i1 eq_refl).
Qed.

(** X3. [_rewrite_background_db_label] with two different labels leaves no
    exchange with the old label as [database] or as first component of a
    two-component [input]; it puts the new label there, keeps the second
    component, and changes nothing else.  A second pass changes nothing
    and counts zero, and so does a pass with twice the same label. *)
Theorem background_label_rewritten (data : list activity)
  (old_bg new_bg : string) :
  old_bg ≠ new_bg →
  let data1 := (_rewrite_background_db_label data old_bg new_bg).1 in
  exchanges_related (relabelled_from old_bg new_bg) data data1
  ∧ _rewrite_background_db_label data1 old_bg new_bg = (data1, 0)
  ∧ _rewrite_background_db_label data old_bg old_bg = (data, 0).
Proof.
  intros Hne data1. subst data1. unfold _rewrite_background_db_label.
  destruct (decide (old_bg = old_bg)) as [_|]; [|done].
  destruct (decide (old_bg = new_bg)) as [|_]; [done|].
  assert (Hbody : ∀ s x, relabelled_from old_bg new_bg x
                           (rewrite_exchange_label old_bg new_bg s x).2).
  { intros s x. destruct x as [| | | | | | |e]; try done.
    destruct (rewrite_exchange_label_spec old_bg new_bg s e Hne)
      as (e' & He' & H). rewrite He'. by exists e'. }
  pose proof (for_each_exchange_related _ _ 0 data Hbody) as Hrel.
  destruct (for_each_exchange (rewrite_exchange_label old_bg new_bg) 0 data)
    as [changed data1]. simpl in *.
  split; [done|]. split; [|done].
  rewrite for_each_exchange_id; [done|].
  eapply exchanges_related_Forall; [exact Hrel|]. simpl.
  intros x x' Hx. apply rewrite_exchange_label_fixed. intros e' ->.
  destruct x as [| | | | | | |e]; try done.
  destruct Hx as (e'' & [= <-] & _ & Hdb & Hin & _). by split.
Qed.

(** *** Text fields *)

Lemma sanitize_key_spec (k : string) (n : nat) (d : dict) :
  sanitized_from [k] d (sanitize_key k (n, d)).2.
Proof.
  unfold sanitize_key. simpl. intros j. split.
  - intros Hj%list_elem_of_singleton Hnone. subst j. rewrite Hnone. simpl.
    by rewrite lookup_insert_eq.
  - intros Hj. destruct (d !! k) as [v|] eqn:Hk; [|done].
    destruct v; try done. simpl.
    rewrite lookup_insert_ne; [done|]. intros <-.
    destruct Hj as [Hj|Hj]; [|done]. apply Hj. apply list_elem_of_here.
Qed.

Lemma sanitize_key_fixed (k : string) (n : nat) (d : dict) :
  d !! k ≠ Some PNone → sanitize_key k (n, d) = (n, d).
Proof.
  intros Hk. unfold sanitize_key. simpl.
  destruct (d !! k) as [v|]; [|done]. by destruct v.
Qed.

Lemma sanitized_from_no_None (keys : list string) (d d' : dict) (k : string) :
  sanitized_from keys d d' → k ∈ keys → d' !! k ≠ Some PNone.
Proof.
  intros Hs Hk Hnone. destruct (Hs k) as [H1 H2].
  destruct (d !! k) as [v|] eqn:Hd.
  - destruct v; try (rewrite H2 in Hnone by (right; by rewrite ?Hd); congruence).
    rewrite H1 in Hnone by done. congruence.
  - rewrite H2 in Hnone by (right; congruence). congruence.
Qed.

Lemma sanitize_fields_spec (n : nat) (d : dict) :
  sanitized_from ["comment"; "description"] d
    (sanitize_key "description" (sanitize_key "comment" (n, d))).2.
Proof.
  pose proof (sanitize_key_spec "comment" n d) as H1.
  destruct (sanitize_key "comment" (n, d)) as [n1 d1]. simpl in H1.
  pose proof (sanitize_key_spec "description" n1 d1) as H2.
  destruct (sanitize_key "description" (n1, d1)) as [n2 d2]. simpl in *.
  intros k. destruct (H1 k) as [H1a H1b], (H2 k) as [H2a H2b].
  assert (Hsingle : ∀ j : string, k ∈ [j] ↔ k = j)
    by (intros; apply list_elem_of_singleton).
  split.
  - intros Hk Hnone.
    destruct (decide (k = "description")) as [->|Hd].
    + apply H2a; [by apply Hsingle|]. rewrite H1b; [done|].
      left. rewrite Hsingle. done.
    + rewrite H2b by (left; by rewrite Hsingle).
      apply H1a; [|done]. apply Hsingle.
      apply elem_of_cons in Hk as [->|Hk]; [done|].
      by apply Hsingle in Hk.
  - intros Hk.
    assert (k ∉ ["comment"] ∨ d !! k ≠ Some PNone) as Hc.
    { destruct Hk as [Hk|Hk]; [left|by right].
      intros Hin. apply Hk. apply Hsingle in Hin as ->.
      apply list_elem_of_here. }
    rewrite <- (H1b Hc). apply H2b.
    destruct Hk as [Hk|Hk]; [left|right; by rewrite (H1b Hc)].
    intros Hin. apply Hk. apply Hsingle in Hin as ->.
    apply list_elem_of_further, list_elem_of_here.
Qed.

(** X4. [_sanitize_dataset_text_fields] replaces a [None] under [comment]
    or [description] of a dataset, and under [comment] of a dictionary
    exchange, by the empty string and changes nothing else: no other key,
    no other value, no exchange that is not a dictionary.  A second pass
    changes nothing and counts zero. *)
Theorem text_fields_sanitized (data : list activity) :
  let data1 := (_sanitize_dataset_text_fields data).1 in
  Forall2
    (fun act act' =>
       sanitized_from ["comment"; "description"] (act_fields act)
         (act_fields act')
       ∧ Forall2
           (fun exc exc' =>
              match exc with
              | PDict e =>
                  ∃ e' : dict,
                    exc' = PDict e' ∧ sanitized_from ["comment"] e e'
              | _ => exc' = exc
              end)
           (exchanges act) (exchanges act'))
    data data1
  ∧ _sanitize_dataset_text_fields data1 = (data1, 0).
Proof.
  intros data1. subst data1. unfold _sanitize_dataset_text_fields.
  set (Rexc := fun exc exc' : pyval =>
                 match exc with
                 | PDict e =>
                     ∃ e' : dict,
                       exc' = PDict e' ∧ sanitized_from ["comment"] e e'
                 | _ => exc' = exc
                 end).
  set (Ract := fun act act' : activity =>
                 sanitized_from ["comment"; "description"] (act_fields act)
                   (act_fields act')
                 ∧ Forall2 Rexc (exchanges act) (exchanges act')).
  assert (Hexc : ∀ s x, Rexc x (sanitize_exchange s x).2).
  { intros s x. destruct x as [| | | | | | |e]; try done. simpl.
    pose proof (sanitize_key_spec "comment" s e) as H.
    destruct (sanitize_key "comment" (s, e)) as [s1 e1]. by exists e1. }
  assert (Hact : ∀ s act, Ract act (sanitize_activity s act).2).
  { intros s act. unfold sanitize_activity.
    pose proof (sanitize_fields_spec s (act_fields act)) as Hf.
    destruct (sanitize_key "description" _) as [s1 d1].
    pose proof (for_each_Forall2 Rexc sanitize_exchange s1 (exchanges act)
                  Hexc) as He.
    destruct (for_each sanitize_exchange s1 (exchanges act)) as [s2 excs].
    by split. }
  pose proof (for_each_Forall2 Ract sanitize_activity 0 data Hact) as Hrel.
  destruct (for_each sanitize_activity 0 data) as [changed data1].
  simpl in Hrel. split; [exact Hrel|]. cbn [fst].
  assert (for_each sanitize_activity 0 data1 = (0, data1)) as ->; [|done].
  apply for_each_id. clear changed.
  induction Hrel as [|act act' l l' [Hf He] _ IH]; constructor; [|done].
  clear IH. unfold sanitize_activity.
  rewrite (sanitize_key_fixed "comment")
    by (eapply sanitized_from_no_None; [exact Hf|apply list_elem_of_here]).
  rewrite (sanitize_key_fixed "description")
    by (eapply sanitized_from_no_None;
        [exact Hf|apply list_elem_of_further, list_elem_of_here]).
  rewrite for_each_id; [by destruct act'|].
  clear Hf. induction He as [|x x' ? ? Hx _ IH]; constructor; [|done].
  destruct x as [| | | | | | |e]; simpl in Hx; subst; try done.
  destruct Hx as (e' & -> & He'). unfold sanitize_exchange.
  rewrite (sanitize_key_fixed "comment"); [done|].
  eapply sanitized_from_no_None; [exact He'|apply list_elem_of_here].
Qed.

(** *** What the validator accepts *)

Lemma nonempty_str_PStr (s : string) : s ≠ "" → nonempty_str (PStr s) = Some s.
Proof. intros. simpl. by rewrite decide_False. Qed.

Lemma validate_exchange_ok_iff (adb acode exc : pyval) :
  validate_exchange adb acode exc = Ok tt ↔ exchange_ok adb acode exc.
Proof.
  split.
  - destruct exc as [| | | | | | |e]; try done. unfold validate_exchange.
    destruct (filter _ _) eqn:Hmiss; [|done].
    apply missing_keys_inv in Hmiss as ([ty Hty] & [amt Ham] & [inp Hin]).
    rewrite (get_lookup _ _ _ Hty), (get_lookup _ _ _ Ham),
      (get_lookup _ _ _ Hin).
    destruct (hashable ty); [|done]. cbn [negb].
    destruct (is_str ty "production" || is_str ty "technosphere"
              || is_str ty "biosphere") eqn:Hkind; [|done]. cbn [negb].
    destruct (_is_number amt) eqn:Hnum; [|done]. cbn [negb].
    destruct (valid_input inp) as [[da co]|] eqn:Hvalid; [|done].
    apply valid_input_ref_tuple in Hvalid as (-> & Hda & Hco).
    simpl in Hda, Hco.
    destruct ty as [| | | |ty| | |]; try done. simpl in Hkind.
    intros Hprod. exists e, ty, amt, da, co.
    repeat split; try done.
    + repeat case_bool_decide; auto. done.
    + intros -> a c -> -> Ha Hc. simpl in Hprod.
      rewrite !decide_False in Hprod by done.
      case_bool_decide as Hk; [done|].
      by destruct (decide ((da, co) = (a, c))).
  - intros (e & ty & amt & da & co & -> & Hty & Hkind & Ham & Hnum & Hin
            & Hda & Hco & Hprod).
    unfold validate_exchange.
    rewrite missing_keys_nil by (rewrite ?Hty, ?Ham, ?Hin; eauto).
    rewrite (get_lookup _ _ _ Hty), (get_lookup _ _ _ Ham),
      (get_lookup _ _ _ Hin). cbn [hashable negb].
    assert (is_str (PStr ty) "production" || is_str (PStr ty) "technosphere"
            || is_str (PStr ty) "biosphere" = true) as ->.
    { by destruct Hkind as [->|[->| ->]]. }
    cbn [negb]. rewrite Hnum. cbn [negb].
    unfold ref_tuple. cbn [fst snd]. rewrite valid_input_str by done.
    destruct (is_str (PStr ty) "production") eqn:Hp; [|done].
    simpl in Hp. apply bool_decide_eq_true in Hp.
    destruct (nonempty_str adb) as [a|] eqn:Ha; [|done].
    destruct (nonempty_str acode) as [c|] eqn:Hc; [|done].
    apply nonempty_str_Some in Ha as [-> ?], Hc as [-> ?].
    rewrite bool_decide_false; [done|].
    intros Hne. apply Hne. by apply Hprod.
Qed.

(** X5. [_validate_importer_payload] returns without raising exactly
    when every exchange of every dataset is a dictionary with a type among
    production, technosphere and biosphere, an amount that is an int or a
    float other than NaN, and a reference made of two non-empty strings
    which, for a production exchange of a dataset with a well-formed
    identity, is that identity.  In particular an empty payload and
    datasets without exchanges pass. *)
Theorem validation_accepts_iff (data : list activity) :
  _validate_importer_payload data = Ok tt ↔
    Forall (fun act =>
              Forall (exchange_ok (get (act_fields act) "database")
                        (get (act_fields act) "code"))
                (exchanges act)) data.
Proof.
  unfold _validate_importer_payload. split.
  - intros H%for_each_check_ok_inv. eapply Forall_impl; [exact H|].
    intros act Hact%for_each_check_ok_inv.
    eapply Forall_impl; [exact Hact|]. intros exc.
    apply validate_exchange_ok_iff.
  - intros H. apply for_each_check_ok. eapply Forall_impl; [exact H|].
    intros act Hact. apply for_each_check_ok.
    eapply Forall_impl; [exact Hact|]. intros exc.
    apply validate_exchange_ok_iff.
Qed.

Lemma for_each_check_first {A} (f : A → result unit) (pre post : list A)
  (x : A) (err : error) :
  Forall (fun y => f y = Ok tt) pre → f x = Raise err →
  for_each_check f (pre ++ x :: post) = Raise err.
Proof.
  intros Hpre Hx. induction Hpre as [|y pre Hy _ IH]; simpl.
  - by rewrite Hx.
  - by rewrite Hy.
Qed.

(** X6. The validator stops at the first invalid exchange in iteration
    order: when the datasets before a dataset are valid, the exchanges
    before one of its exchanges are valid, and that exchange is rejected,
    the error raised for the payload is the error of that exchange,
    whatever follows it. *)
Theorem validation_reports_first_error (pre post : list activity)
  (act : activity) (excs_pre excs_post : list pyval) (exc : pyval)
  (err : error) :
  _validate_importer_payload pre = Ok tt →
  exchanges act = excs_pre ++ exc :: excs_post →
  Forall (exchange_ok (get (act_fields act) "database")
            (get (act_fields act) "code")) excs_pre →
  validate_exchange (get (act_fields act) "database")
    (get (act_fields act) "code") exc = Raise err →
  _validate_importer_payload (pre ++ act :: post) = Raise err.
Proof.
  intros Hpre Hex Hexcs Herr. unfold _validate_importer_payload in *.
  apply for_each_check_first.
  - by apply for_each_check_ok_inv.
  - unfold validate_activity. rewrite Hex. apply for_each_check_first; [|done].
    eapply Forall_impl; [exact Hexcs|]. intros x.
    apply validate_exchange_ok_iff.
Qed.

(** *** Overwriting and writing *)

Lemma foldl_delete_lookup (bd : brightway) (names : list string)
  (n : string) :
  foldl (fun b db_name => delete db_name b) bd names !! n
  = if decide (n ∈ names) then None else bd !! n.
Proof.
  revert bd. induction names as [|m names IH]; intros bd; cbn [foldl].
  - destruct (decide (n ∈ [])) as [Hin|_]; [|done]. by apply elem_of_nil in Hin.
  - rewrite IH.
    destruct (decide (n ∈ names)) as [Hin|Hnin],
             (decide (n ∈ m :: names)) as [Hin'|Hnin']; try done.
    + destruct Hnin'. by apply list_elem_of_further.
    + apply elem_of_cons in Hin' as [->|?]; [|done].
      by rewrite lookup_delete_eq.
    + rewrite lookup_delete_ne; [done|]. intros ->. apply Hnin'.
      apply list_elem_of_here.
Qed.

Lemma databases_in_importer_spec (data : list activity) (n : string) :
  n ∈ _databases_in_importer data ↔
    ∃ act, act ∈ data ∧ get (act_fields act) "database" = PStr n ∧ n ≠ "".
Proof.
  unfold _databases_in_importer.
  induction data as [|act data IH] using rev_ind.
  - cbn [foldl]. split; [by intros ?%elem_of_empty|].
    by intros (? & ?%elem_of_nil & _).
  - rewrite foldl_app. cbn [foldl].
    destruct (nonempty_str (get (act_fields act) "database")) as [m|] eqn:Hm.
    + apply nonempty_str_Some in Hm as [Hm Hne].
      rewrite elem_of_union, elem_of_singleton, IH. split.
      * intros [->|(a & Ha & H)].
        -- exists act. split; [|done]. apply elem_of_app. right.
           apply list_elem_of_here.
        -- exists a. split; [|done]. apply elem_of_app. by left.
      * intros (a & [Ha|Ha%list_elem_of_singleton]%elem_of_app & Hdb & Hn).
        -- right. by exists a.
        -- left. subst a. congruence.
    + rewrite IH. split.
      * intros (a & Ha & H). exists a. split; [|done].
        apply elem_of_app. by left.
      * intros (a & [Ha|Ha%list_elem_of_singleton]%elem_of_app & Hdb & Hn).
        -- by exists a.
        -- subst a. rewrite Hdb in Hm. by rewrite nonempty_str_PStr in Hm.
Qed.

(** X7. With overwriting switched on, the end of [_process_excel] first
    deletes the registered databases that the payload's datasets name (the
    non-empty string values of [database]) and keeps the others; only then
    it validates.  A rejected payload therefore leaves the registry with
    those databases deleted and nothing written; an accepted payload is
    written over that registry. *)
Theorem overwrite_precedes_validation (cfg : Config) (data : list activity)
  (bd : brightway) :
  overwrite_metal_databases cfg = true →
  (∀ n, n ∈ _databases_in_importer data ↔
          ∃ act, act ∈ data ∧ get (act_fields act) "database" = PStr n
                 ∧ n ≠ "")
  ∧ ∃ bd1 : brightway,
      (∀ n, bd1 !! n
            = if decide (n ∈ _databases_in_importer data) then None
              else bd !! n)
      ∧ _process_excel_write cfg data bd
        = match _validate_importer_payload data with
          | Ok _ => (write_database data bd1, Ok tt)
          | Raise e => (bd1, Raise e)
          end.
Proof.
  intros Hover. split; [apply databases_in_importer_spec|].
  unfold _process_excel_write. rewrite Hover.
  eexists. split; [|reflexivity].
  intros n. rewrite foldl_delete_lookup.
  destruct (decide (n ∈ elements _)) as [Hin|Hnin],
           (decide (n ∈ _databases_in_importer data)) as [Hin'|Hnin'];
    try done.
  - destruct Hnin'. by apply elem_of_elements.
  - destruct Hnin. by apply elem_of_elements.
Qed.

(** *** The process index and its cache *)

Lemma ecoinvent_index_list_to_map (bd : brightway) (db_name : string) :
  _build_ecoinvent_index bd db_name
  = list_to_map (reverse (omap (ei_entry db_name) (Database bd db_name))).
Proof.
  rewrite <- foldl_insert_list_to_map. unfold _build_ecoinvent_index.
  apply foldl_ext_eq. intros idx act. unfold ei_entry.
  destruct (nonempty_str (get act "name")); [|done].
  destruct (nonempty_str (get act "reference product")); [|done].
  destruct (nonempty_str (get act "location")); [|done].
  by destruct (nonempty_str (get act "code")).
Qed.

Lemma ei_entry_Some (db_name : string) (act : dict) k v :
  ei_entry db_name act = Some (k, v) ↔
    ∃ code, nonempty_str (get act "name") = Some k.1.1
            ∧ nonempty_str (get act "reference product") = Some k.1.2
            ∧ nonempty_str (get act "location") = Some k.2
            ∧ nonempty_str (get act "code") = Some code
            ∧ v = (db_name, code).
Proof.
  unfold ei_entry. destruct k as [[n r] l]. simpl. split.
  - destruct (nonempty_str (get act "name")); [|done].
    destruct (nonempty_str (get act "reference product")); [|done].
    destruct (nonempty_str (get act "location")); [|done].
    destruct (nonempty_str (get act "code")) as [c|]; [|done].
    intros [= -> -> -> <-]. by exists c.
  - intros (c & -> & -> & -> & -> & ->). done.
Qed.

(** With a cache that holds only true indices, the loop body gives the
    exchange the reference [technosphere_target] states, counts it, and
    leaves such a cache. *)
Lemma fill_technosphere_exchange_cached (bd : brightway)
  (indices : gmap string ei_index) (fixed : nat) (exc : pyval) :
  cache_ok bd indices →
  ∃ indices',
    cache_ok bd indices'
    ∧ fill_technosphere_exchange bd (indices, fixed) exc
      = ((indices',
          match technosphere_target bd exc with
          | Some _ => S fixed
          | None => fixed
          end),
         relink_technosphere bd exc).
Proof.
  intros Hok. unfold relink_technosphere.
  destruct exc as [| | | | | | |e]; try (by exists indices).
  unfold fill_technosphere_exchange, technosphere_target.
  destruct (is_str (get e "type") "technosphere"); cbn [negb andb];
    [|by exists indices].
  destruct (bool_decide (is_Some (e !! "input"))); cbn [negb];
    [by exists indices|].
  destruct (nonempty_str (get e "database")) as [db|];
    [|by exists indices].
  destruct (nonempty_str (get e "name")) as [n|]; [|by exists indices].
  destruct (nonempty_str (get e "reference product")) as [r|];
    [|by exists indices].
  destruct (nonempty_str (get e "location")) as [l|]; [|by exists indices].
  destruct (decide (db ∈ dom bd)) as [Hdb|Hdb].
  - rewrite bool_decide_false by auto. rewrite bool_decide_true by done.
    set (indices1 := match indices !! db with
                     | Some _ => indices
                     | None => <[db := _build_ecoinvent_index bd db]> indices
                     end).
    assert (cache_ok bd indices1) as Hok1.
    { subst indices1. destruct (indices !! db) eqn:Hi; [done|].
      intros d idx. destruct (decide (d = db)) as [->|Hne].
      - rewrite lookup_insert_eq. by intros [= <-].
      - rewrite lookup_insert_ne by done. apply Hok. }
    assert (indices1 !! db = Some (_build_ecoinvent_index bd db)) as Hi1.
    { subst indices1. destruct (indices !! db) as [idx|] eqn:Hi.
      - by rewrite Hi, (Hok db idx Hi).
      - by rewrite lookup_insert_eq. }
    exists indices1. split; [done|]. rewrite Hi1. cbn [from_option id].
    by destruct (_build_ecoinvent_index bd db !! (n, r, l)).
  - rewrite bool_decide_true by done. rewrite bool_decide_false by done.
    by exists indices.
Qed.

Lemma fill_technosphere_exchanges_cached (bd : brightway)
  (indices : gmap string ei_index) (fixed : nat) (l : list pyval) :
  cache_ok bd indices →
  ∃ indices',
    cache_ok bd indices'
    ∧ for_each (fill_technosphere_exchange bd) (indices, fixed) l
      = ((indices',
          fixed + length (filter (fun exc =>
                                    is_Some (technosphere_target bd exc)) l)),
         map (relink_technosphere bd) l).
Proof.
  revert indices fixed. induction l as [|x l IH]; intros indices fixed Hok.
  - exists indices. simpl. by rewrite Nat.add_0_r.
  - destruct (fill_technosphere_exchange_cached bd indices fixed x Hok)
      as (indices1 & Hok1 & Hx).
    destruct (IH indices1
                (match technosphere_target bd x with
                 | Some _ => S fixed
                 | None => fixed
                 end) Hok1)
      as (indices2 & Hok2 & Hl).
    exists indices2. split; [done|]. cbn [for_each]. rewrite Hx.
    cbv beta iota zeta. rewrite Hl. cbn [map].
    rewrite filter_cons. do 2 f_equal.
    destruct (technosphere_target bd x) as [hit|] eqn:Ht.
    + rewrite decide_True by eauto. simpl. lia.
    + rewrite decide_False by (by intros [? ?]). done.
Qed.

Lemma fill_technosphere_loop_cached (bd : brightway)
  (indices : gmap string ei_index) (fixed : nat) (data : list activity) :
  cache_ok bd indices →
  ∃ indices',
    cache_ok bd indices'
    ∧ for_each (fill_technosphere_activity bd) (indices, fixed) data
      = ((indices',
          fixed
          + sum_list_with
              (fun act =>
                 length (filter (fun exc =>
                                   is_Some (technosphere_target bd exc))
                           (exchanges act))) data),
         map_exchanges (relink_technosphere bd) data).
Proof.
  revert indices fixed.
  induction data as [|act data IH]; intros indices fixed Hok.
  - exists indices. simpl. by rewrite Nat.add_0_r.
  - destruct (fill_technosphere_exchanges_cached bd indices fixed
                (exchanges act) Hok) as (indices1 & Hok1 & Hact).
    destruct (IH indices1
                (fixed
                 + length (filter (fun exc =>
                                     is_Some (technosphere_target bd exc))
                             (exchanges act))) Hok1)
      as (indices2 & Hok2 & Hdata).
    exists indices2. split; [done|]. cbn [for_each].
    unfold fill_technosphere_activity at 1. rewrite Hact.
    cbv beta iota zeta. rewrite Hdata. cbn [map_exchanges map sum_list_with].
    do 2 f_equal. lia.
Qed.

(** X8. The lazily built index cache of
    [_fill_missing_technosphere_inputs] never changes an outcome: every
    exchange comes back as if it had been looked up alone in the index of
    its database, the returned count is the number of exchanges that got a
    reference, and the cache only ever holds the true index of a
    database. *)
Theorem technosphere_cache_transparent (bd : brightway)
  (data : list activity) :
  (_fill_missing_technosphere_inputs bd data).1
  = map_exchanges (relink_technosphere bd) data
  ∧ (_fill_missing_technosphere_inputs bd data).2
    = sum_list_with
        (fun act =>
           length (filter (fun exc => is_Some (technosphere_target bd exc))
                     (exchanges act))) data
  ∧ cache_ok bd (fill_technosphere_loop bd data).1.1.
Proof.
  destruct (fill_technosphere_loop_cached bd ∅ 0 data)
    as (indices & Hok & Hloop).
  { intros d idx. by rewrite lookup_empty. }
  unfold _fill_missing_technosphere_inputs, fill_technosphere_loop.
  rewrite Hloop. done.
Qed.

Lemma technosphere_target_relinked (bd : brightway) (exc : pyval) :
  technosphere_target bd (relink_technosphere bd exc) = None.
Proof.
  unfold relink_technosphere.
  destruct exc as [| | | | | | |e]; try done.
  destruct (technosphere_target bd (PDict e)) as [hit|] eqn:Ht; [|done].
  unfold technosphere_target. rewrite lookup_insert_eq.
  rewrite (bool_decide_true (is_Some (Some _))) by eauto.
  by rewrite andb_false_r.
Qed.

Lemma relink_technosphere_fixed (bd : brightway) (exc : pyval) :
  technosphere_target bd exc = None → relink_technosphere bd exc = exc.
Proof.
  unfold relink_technosphere. destruct exc; try done. by intros ->.
Qed.

Lemma relinked_nothing_left (bd : brightway) (data : list activity) :
  sum_list_with
    (fun act =>
       length (filter (fun exc => is_Some (technosphere_target bd exc))
                 (exchanges act)))
    (map_exchanges (relink_technosphere bd) data) = 0.
Proof.
  unfold map_exchanges. induction data as [|act data IH]; [done|].
  cbn [map sum_list_with exchanges]. rewrite IH, Nat.add_0_r.
  induction (exchanges act) as [|x l IHl]; [done|].
  cbn [map]. rewrite filter_cons, decide_False; [done|].
  rewrite technosphere_target_relinked. by intros [? ?].
Qed.

(** X9. [_fill_missing_technosphere_inputs] is idempotent: run again on
    its own output, with the same reference databases, it changes nothing
    and counts zero. *)
Theorem technosphere_relinking_idempotent (bd : brightway)
  (data : list activity) :
  let data1 := (_fill_missing_technosphere_inputs bd data).1 in
  _fill_missing_technosphere_inputs bd data1 = (data1, 0).
Proof.
  intros data1.
  destruct (fill_technosphere_loop_cached bd ∅ 0 data)
    as (indices & _ & Hloop).
  { intros d idx. by rewrite lookup_empty. }
  destruct (fill_technosphere_loop_cached bd ∅ 0 data1)
    as (indices' & _ & Hloop').
  { intros d idx. by rewrite lookup_empty. }
  assert (data1 = map_exchanges (relink_technosphere bd) data) as Hdata1.
  { subst data1.
    unfold _fill_missing_technosphere_inputs, fill_technosphere_loop.
    by rewrite Hloop. }
  unfold _fill_missing_technosphere_inputs, fill_technosphere_loop.
  rewrite Hloop'. f_equal.
  - rewrite Hdata1. clear. unfold map_exchanges. rewrite map_map.
    apply map_ext. intros act. cbn [act_fields exchanges]. f_equal.
    rewrite map_map. apply map_ext. intros exc.
    apply relink_technosphere_fixed, technosphere_target_relinked.
  - rewrite Hdata1, Nat.add_0_l. apply relinked_nothing_left.
Qed.

Lemma nonempty_str_get (d : dict) (k s : string) :
  nonempty_str (get d k) = Some s ↔ get d k = PStr s ∧ s ≠ "".
Proof.
  split; [apply nonempty_str_Some|].
  intros [-> ?]. by apply nonempty_str_PStr.
Qed.

(** X10. The reference given to a technosphere exchange is sound and
    complete with respect to the reference database.  If the exchange
    gets (d, c), then d is its own registered database and some process of
    d has the exchange's name, reference product and location and the
    non-empty code c.  Conversely an unlinked technosphere exchange with
    four non-empty descriptive strings whose registered database has a
    process with the same three fields and a non-empty code gets a
    reference in that database. *)
Theorem technosphere_target_matches_reference (bd : brightway) (e : dict) :
  (∀ d c,
     technosphere_target bd (PDict e) = Some (d, c) →
     get e "type" = PStr "technosphere" ∧ e !! "input" = None
     ∧ get e "database" = PStr d ∧ d ∈ dom bd ∧ c ≠ ""
     ∧ ∃ act, act ∈ Database bd d
              ∧ get act "name" = get e "name"
              ∧ get act "reference product" = get e "reference product"
              ∧ get act "location" = get e "location"
              ∧ get act "code" = PStr c)
  ∧ (∀ db_name name ref loc act code,
       get e "type" = PStr "technosphere" → e !! "input" = None →
       get e "database" = PStr db_name → db_name ≠ "" →
       db_name ∈ dom bd → act ∈ Database bd db_name →
       get e "name" = PStr name → get act "name" = PStr name → name ≠ "" →
       get e "reference product" = PStr ref →
       get act "reference product" = PStr ref → ref ≠ "" →
       get e "location" = PStr loc → get act "location" = PStr loc →
       loc ≠ "" →
       get act "code" = PStr code → code ≠ "" →
       ∃ c, technosphere_target bd (PDict e) = Some (db_name, c)).
Proof.
  split.
  - intros d c. unfold technosphere_target.
    destruct (is_str (get e "type") "technosphere") eqn:Hty; [|done].
    destruct (bool_decide (is_Some (e !! "input"))) eqn:Hin; [done|].
    cbn [negb andb].
    destruct (nonempty_str (get e "database")) as [db|] eqn:Hdb; [|done].
    destruct (nonempty_str (get e "name")) as [n|] eqn:Hn; [|done].
    destruct (nonempty_str (get e "reference product")) as [r|] eqn:Hr;
      [|done].
    destruct (nonempty_str (get e "location")) as [l|] eqn:Hl; [|done].
    destruct (decide (db ∈ dom bd)) as [Hdom|Hdom];
      [rewrite bool_decide_true by done
      |by rewrite bool_decide_false by done].
    rewrite ecoinvent_index_list_to_map.
    intros Hhit%elem_of_list_to_map_2.
    apply elem_of_reverse, list_elem_of_omap in Hhit as (act & Hact & He).
    apply ei_entry_Some in He as (code & Han & Har & Hal & Hac & [= -> ->]).
    simpl in *.
    apply nonempty_str_get in Hdb as [Hdb _], Hn as [Hn _], Hr as [Hr _],
      Hl as [Hl _], Han as [Han _], Har as [Har _], Hal as [Hal _],
      Hac as [Hac ?].
    split.
    { destruct (get e "type"); try done. simpl in Hty.
      by apply bool_decide_eq_true in Hty as ->. }
    split.
    { apply bool_decide_eq_false in Hin.
      destruct (e !! "input"); [|done]. destruct Hin. eauto. }
    repeat split; try done. exists act. by rewrite Hn, Hr, Hl.
  - intros db n r l act code Hty Hin Hdb ? Hdom Hact Hn Han ? Hr Har ? Hl Hal
      ? Hac ?.
    unfold technosphere_target. rewrite Hty, Hin, Hdb, Hn, Hr, Hl.
    assert (is_str (PStr "technosphere") "technosphere" = true) as ->
      by done.
    rewrite (bool_decide_false (is_Some None)) by (by intros [? ?]).
    cbn [negb andb]. rewrite !nonempty_str_PStr by done.
    rewrite bool_decide_true by done.
    destruct (_build_ecoinvent_index bd db !! (n, r, l)) as [[d c]|] eqn:Hi.
    + rewrite ecoinvent_index_list_to_map in Hi.
      apply elem_of_list_to_map_2, elem_of_reverse, list_elem_of_omap in Hi
        as (act' & _ & He).
      apply ei_entry_Some in He as (c' & _ & _ & _ & _ & [= -> ->]).
      by exists c'.
    + exfalso. rewrite ecoinvent_index_list_to_map in Hi.
      apply not_elem_of_list_to_map in Hi. apply Hi.
      apply list_elem_of_fmap. exists ((n, r, l), (db, code)).
      split; [done|]. apply elem_of_reverse, list_elem_of_omap.
      exists act. split; [done|]. apply ei_entry_Some. exists code.
      simpl. rewrite Han, Har, Hal, Hac.
      by rewrite !nonempty_str_PStr.
Qed.

(** X11. The benign skip is benign only while relinking: a technosphere
    exchange that [_fill_missing_technosphere_inputs] leaves without a
    reference is still in the payload and makes the validator raise.  When
    the validator reaches that exchange the error is the missing-keys
    error, and the keys it lists are those among [type], [amount] and
    [input], in this order, that the exchange does not have: [input] is
    one of them. *)
Theorem unresolved_technosphere_fails_validation (bd : brightway)
  (data : list activity) (act : activity) (e : dict) :
  act ∈ data → PDict e ∈ exchanges act →
  e !! "input" = None → technosphere_target bd (PDict e) = None →
  let missing :=
    filter (fun k => e !! k = None) ["type"; "amount"; "input"] in
  validate_exchange (get (act_fields act) "database")
    (get (act_fields act) "code") (PDict e)
  = Raise (ValidationError (MissingKeys missing)
             (get (act_fields act) "database",
              get (act_fields act) "code") (PDict e))
  ∧ "input" ∈ missing
  ∧ ∃ err,
      _validate_importer_payload
        (_fill_missing_technosphere_inputs bd data).1 = Raise err.
Proof.
  intros Hact Hexc Hin Htarget missing.
  assert (Hmem : "input" ∈ missing).
  { subst missing. apply list_elem_of_filter. split; [done|].
    do 2 apply list_elem_of_further. apply list_elem_of_here. }
  assert (Hraise :
            validate_exchange (get (act_fields act) "database")
              (get (act_fields act) "code") (PDict e)
            = Raise (ValidationError (MissingKeys missing)
                       (get (act_fields act) "database",
                        get (act_fields act) "code") (PDict e))).
  { unfold validate_exchange. fold missing.
    destruct missing as [|k ks]; [|done].
    by apply elem_of_nil in Hmem. }
  split; [exact Hraise|]. split; [exact Hmem|].
  destruct (fill_technosphere_loop_cached bd ∅ 0 data)
    as (indices & _ & Hloop).
  { intros d idx. by rewrite lookup_empty. }
  unfold _fill_missing_technosphere_inputs, fill_technosphere_loop.
  rewrite Hloop. cbn [fst]. unfold _validate_importer_payload.
  apply (for_each_check_raise validate_activity _
           (Activity (act_fields act)
              (map (relink_technosphere bd) (exchanges act)))).
  - unfold map_exchanges. apply list_elem_of_fmap. by exists act.
  - unfold validate_activity. cbn [act_fields exchanges].
    apply (for_each_check_raise _ _ (PDict e)).
    + apply list_elem_of_fmap. exists (PDict e). split; [|done].
      by rewrite relink_technosphere_fixed.
    + rewrite Hraise. eauto.
Qed.

(** *** The biosphere loop as a whole *)

Lemma for_each_r_Forall2 {S A} (R : A → A → Prop)
  (body : S → A → result (S * A)) (s s' : S) (l l' : list A) :
  (∀ s1 x s2 x', body s1 x = Ok (s2, x') → R x x') →
  for_each_r body s l = Ok (s', l') → Forall2 R l l'.
Proof.
  intros HR. revert s s' l'. induction l as [|x l IH]; intros s s' l'.
  - simpl. intros [= <- <-]. constructor.
  - simpl. destruct (body s x) as [[s1 x1]|] eqn:Hx; [|done]. simpl.
    destruct (for_each_r body s1 l) as [[s2 l2]|] eqn:Hl; [|done]. simpl.
    intros [= <- <-]. constructor; eauto.
Qed.

Lemma for_each_r_invariant {S A} (I : S → Prop)
  (body : S → A → result (S * A)) (s s' : S) (l l' : list A) :
  (∀ s1 x s2 x', I s1 → body s1 x = Ok (s2, x') → I s2) →
  I s → for_each_r body s l = Ok (s', l') → I s'.
Proof.
  intros HI. revert s s' l'. induction l as [|x l IH]; intros s s' l' Hs.
  - simpl. by intros [= <- <-].
  - simpl. destruct (body s x) as [[s1 x1]|] eqn:Hx; [|done]. simpl.
    destruct (for_each_r body s1 l) as [[s2 l2]|] eqn:Hl; [|done]. simpl.
    intros [= <- <-]. eapply IH; [|exact Hl]. eauto.
Qed.

Lemma for_each_r_total {S A} (body : S → A → result (S * A)) (s : S)
  (l : list A) :
  (∀ s x, ∃ r, body s x = Ok r) → ∃ r, for_each_r body s l = Ok r.
Proof.
  intros Hb. revert s. induction l as [|x l IH]; intros s; [by eexists|].
  simpl. destruct (Hb s x) as [[s1 x1] ->]. simpl.
  destruct (IH s1) as [[s2 l2] ->]. simpl. by eexists.
Qed.

(** What one step of the biosphere loop can do when it does not raise:
    leave an exchange it does not handle as it is, or add a reference to
    an unlinked biosphere exchange. *)
Lemma fill_biosphere_exchange_ok (cfg : Config) (exact_idx : bio_index)
  (name_idx : gmap string (list candidate)) (name_map : gmap string string)
  (st st' : flow_store * nat) (exc exc' : pyval) :
  fill_biosphere_exchange cfg exact_idx name_idx name_map st exc
  = Ok (st', exc') →
  (unlinked_biosphere exc →
   ∃ (e : dict) k, exc = PDict e ∧ exc' = PDict (<["input" := ref_tuple k]> e))
  ∧ (¬ unlinked_biosphere exc → exc' = exc ∧ st' = st)
  ∧ (allow_create_missing_biosphere_flows cfg = false → st'.1 = st.1).
Proof.
  destruct st as [store fixed]. unfold fill_biosphere_exchange.
  assert (Hskip : Ok (store, fixed, exc) = Ok (st', exc') →
            ¬ unlinked_biosphere exc →
            (unlinked_biosphere exc →
             ∃ (e : dict) k,
               exc = PDict e ∧ exc' = PDict (<["input" := ref_tuple k]> e))
            ∧ (¬ unlinked_biosphere exc → exc' = exc ∧ st' = (store, fixed))
            ∧ (allow_create_missing_biosphere_flows cfg = false →
               st'.1 = (store, fixed).1)).
  { intros [= <- <-] Hn. by repeat split. }
  destruct exc as [| | | | | | |e];
    try (intros H; apply (Hskip H); by intros (? & ? & ? & [=] & _)).
  destruct (is_str (get e "type") "biosphere") eqn:Hty; cbn [negb].
  2:{ intros H. apply (Hskip H). intros (e0 & ? & ? & [= <-] & Ht & _).
      by rewrite Ht in Hty. }
  destruct (bool_decide (is_Some (e !! "input"))) eqn:Hin.
  { intros H. apply (Hskip H). intros (e0 & ? & ? & [= <-] & _ & Hi & _).
    apply bool_decide_eq_true in Hin as [? Hin]. congruence. }
  destruct (get e "name") as [| | | |raw_name| | |] eqn:Hname;
    try (intros H; apply (Hskip H);
         intros (e0 & ? & ? & [= <-] & _ & _ & Hn & _); congruence).
  destruct (get e "unit") as [| | | |unit| | |] eqn:Hunit;
    try (intros H; apply (Hskip H);
         intros (e0 & ? & ? & [= <-] & _ & _ & _ & Hu); congruence).
  assert (Hun : unlinked_biosphere (PDict e)).
  { exists e, raw_name, unit. repeat split; try done.
    - destruct (get e "type"); try done. simpl in Hty.
      by apply bool_decide_eq_true in Hty as ->.
    - apply bool_decide_eq_false in Hin.
      destruct (e !! "input"); [|done]. destruct Hin. eauto. }
  assert (Hlink : ∀ store1 k,
            Ok (store1, S fixed, PDict (<["input" := ref_tuple k]> e))
            = Ok (st', exc') →
            (allow_create_missing_biosphere_flows cfg = false →
             store1 = store) →
            (unlinked_biosphere (PDict e) →
             ∃ (e0 : dict) k0,
               PDict e = PDict e0
               ∧ exc' = PDict (<["input" := ref_tuple k0]> e0))
            ∧ (¬ unlinked_biosphere (PDict e) →
               exc' = PDict e ∧ st' = (store, fixed))
            ∧ (allow_create_missing_biosphere_flows cfg = false →
               st'.1 = (store, fixed).1)).
  { intros store1 k [= <- <-] Hst. split; [by exists e, k|].
    split; [done|]. exact Hst. }
  cbv zeta.
  destruct (exact_idx !! _) as [hit|]; [intros H; by apply (Hlink _ _ H)|].
  destruct (exact_idx !! _) as [hit|]; [intros H; by apply (Hlink _ _ H)|].
  destruct (choose_best_candidate _ _ _) as [chosen|];
    [intros H; by apply (Hlink _ _ H)|].
  destruct (allow_create_missing_biosphere_flows cfg); [|done].
  destruct (_get_or_create_custom_biosphere_flow _ _ _ _ _) as [store1 key].
  intros H. by apply (Hlink _ _ H).
Qed.

Lemma for_each_r_raise {S A} (body : S → A → result (S * A)) (s : S)
  (l : list A) (err : error) :
  for_each_r body s l = Raise err →
  ∃ s1 x, x ∈ l ∧ body s1 x = Raise err.
Proof.
  revert s. induction l as [|x l IH]; intros s; [done|]. simpl.
  destruct (body s x) as [[s1 x1]|e] eqn:Hx; simpl.
  - destruct (for_each_r body s1 l) as [[s2 l2]|e] eqn:Hl; [done|]. simpl.
    intros [= ->]. destruct (IH s1 Hl) as (s3 & y & Hy & Hb).
    exists s3, y. split; [by apply list_elem_of_further|done].
  - intros [= ->]. exists s, x. split; [apply list_elem_of_here|done].
Qed.

Lemma fill_biosphere_exchange_raise (cfg : Config) (exact_idx : bio_index)
  (name_idx : gmap string (list candidate)) (name_map : gmap string string)
  (st : flow_store * nat) (exc : pyval) (err : error) :
  fill_biosphere_exchange cfg exact_idx name_idx name_map st exc = Raise err →
  allow_create_missing_biosphere_flows cfg = false
  ∧ ∃ (e : dict) raw_name unit,
      exc = PDict e ∧ get e "type" = PStr "biosphere" ∧ e !! "input" = None
      ∧ get e "name" = PStr raw_name ∧ get e "unit" = PStr unit
      ∧ err = UnresolvedBiosphere raw_name
                (default raw_name (name_map !! _norm raw_name))
                (get e "categories") unit.
Proof.
  destruct st as [store fixed]. unfold fill_biosphere_exchange.
  destruct exc as [| | | | | | |e]; try done.
  destruct (is_str (get e "type") "biosphere") eqn:Hty; [|done].
  destruct (bool_decide (is_Some (e !! "input"))) eqn:Hin; [done|].
  cbn [negb].
  destruct (get e "name") as [| | | |raw_name| | |] eqn:Hname; try done.
  destruct (get e "unit") as [| | | |unit| | |] eqn:Hunit; try done.
  cbv zeta.
  destruct (exact_idx !! _); [done|]. destruct (exact_idx !! _); [done|].
  destruct (choose_best_candidate _ _ _); [done|].
  destruct (allow_create_missing_biosphere_flows cfg).
  { by destruct (_get_or_create_custom_biosphere_flow _ _ _ _ _). }
  intros [= <-]. split; [done|]. exists e, raw_name, unit.
  repeat split; try done.
  - destruct (get e "type"); try done. simpl in Hty.
    by apply bool_decide_eq_true in Hty as ->.
  - apply bool_decide_eq_false in Hin.
    destruct (e !! "input"); [|done]. destruct Hin. eauto.
Qed.

(** X12. When [_fill_missing_biosphere_inputs] returns, the payload has
    the same datasets with the same entries; every biosphere exchange that
    had no reference and whose name and unit are strings now has one, and
    is otherwise unchanged; every other exchange is untouched.  With the
    creation of custom flows disabled the custom flow store comes back as
    it was. *)
Theorem biosphere_fill_links_every_unlinked (cfg : Config) (bd : brightway)
  (store store' : flow_store) (data data' : list activity)
  (biosphere_db : string) (name_map : option (gmap string string))
  (n : nat) :
  _fill_missing_biosphere_inputs cfg bd store data biosphere_db name_map
  = Ok (store', data', n) →
  exchanges_related
    (fun exc exc' =>
       (unlinked_biosphere exc →
        ∃ (e : dict) k,
          exc = PDict e ∧ exc' = PDict (<["input" := ref_tuple k]> e))
       ∧ (¬ unlinked_biosphere exc → exc' = exc))
    data data'
  ∧ (allow_create_missing_biosphere_flows cfg = false → store' = store).
Proof.
  unfold _fill_missing_biosphere_inputs.
  set (exact_idx := _build_biosphere_exact_index bd biosphere_db).
  set (name_idx := build_name_idx bd biosphere_db).
  set (nm := default ∅ name_map).
  destruct (for_each_r _ (store, 0) data) as [[[store1 n1] data1]|] eqn:Hloop;
    [|done].
  simpl. intros [= <- <- <-]. split.
  - eapply for_each_r_Forall2; [|exact Hloop].
    intros s1 act s2 act'. unfold fill_biosphere_activity.
    destruct (for_each_r _ s1 (exchanges act)) as [[s3 excs]|] eqn:Hact;
      [|done].
    simpl. intros [= <- <-]. split; [done|]. cbn [exchanges].
    eapply for_each_r_Forall2; [|exact Hact].
    intros s4 x s5 x' Hx.
    apply fill_biosphere_exchange_ok in Hx as (H1 & H2 & _).
    split; [done|]. intros Hn. by apply H2.
  - intros Hallow.
    refine (for_each_r_invariant
              (fun s : flow_store * nat => s.1 = store) _ (store, 0)
              (store1, n1) data data1 _ eq_refl Hloop).
    intros s1 act s2 act' Hs1. unfold fill_biosphere_activity.
    destruct (for_each_r _ s1 (exchanges act)) as [[s3 excs]|] eqn:Hact;
      [|done].
    simpl. intros [= <- <-].
    refine (for_each_r_invariant
              (fun s : flow_store * nat => s.1 = store) _ s1 s3
              (exchanges act) excs _ Hs1 Hact).
    intros s4 x s5 x' Hs4 Hx.
    apply fill_biosphere_exchange_ok in Hx as (_ & _ & H3).
    rewrite H3 by done. done.
Qed.

(** X13. [_fill_missing_biosphere_inputs] never raises when the creation
    of custom flows is enabled.  When it raises, creation is disabled and
    the error is the unresolved-exchange error of an unlinked biosphere
    exchange of the payload: it carries that exchange's own name, the name
    the mapping substitutes for it, its categories and its unit, as they
    stand in the exchange. *)
Theorem biosphere_fill_raises_only_unresolved (cfg : Config)
  (bd : brightway) (store : flow_store) (data : list activity)
  (biosphere_db : string) (name_map : option (gmap string string)) :
  (allow_create_missing_biosphere_flows cfg = true →
   ∃ r, _fill_missing_biosphere_inputs cfg bd store data biosphere_db
          name_map = Ok r)
  ∧ ∀ err,
      _fill_missing_biosphere_inputs cfg bd store data biosphere_db name_map
      = Raise err →
      allow_create_missing_biosphere_flows cfg = false
      ∧ ∃ act (e : dict) raw_name unit,
          act ∈ data ∧ PDict e ∈ exchanges act
          ∧ get e "type" = PStr "biosphere" ∧ e !! "input" = None
          ∧ get e "name" = PStr raw_name ∧ get e "unit" = PStr unit
          ∧ err = UnresolvedBiosphere raw_name
                    (default raw_name
                       (default ∅ name_map !! _norm raw_name))
                    (get e "categories") unit.
Proof.
  unfold _fill_missing_biosphere_inputs.
  set (exact_idx := _build_biosphere_exact_index bd biosphere_db).
  set (name_idx := build_name_idx bd biosphere_db).
  set (nm := default ∅ name_map).
  assert (Hraise : ∀ err,
            for_each_r (fill_biosphere_activity cfg exact_idx name_idx nm)
              (store, 0) data = Raise err →
            allow_create_missing_biosphere_flows cfg = false
            ∧ ∃ act (e : dict) raw_name unit,
                act ∈ data ∧ PDict e ∈ exchanges act
                ∧ get e "type" = PStr "biosphere" ∧ e !! "input" = None
                ∧ get e "name" = PStr raw_name ∧ get e "unit" = PStr unit
                ∧ err = UnresolvedBiosphere raw_name
                          (default raw_name (nm !! _norm raw_name))
                          (get e "categories") unit).
  { intros err Hloop.
    apply for_each_r_raise in Hloop as (s1 & act & Hact & Hbody).
    unfold fill_biosphere_activity in Hbody.
    destruct (for_each_r _ s1 (exchanges act)) as [[s3 excs]|e0] eqn:Hexcs;
      [done|].
    simpl in Hbody. injection Hbody as ->.
    apply for_each_r_raise in Hexcs as (s2 & x & Hx & Hxb).
    apply fill_biosphere_exchange_raise in Hxb
      as (Hallow & e & raw_name & unit & -> & Hty & Hin & Hn & Hu & ->).
    split; [done|]. by exists act, e, raw_name, unit. }
  split.
  - intros Hallow.
    destruct (for_each_r _ (store, 0) data) as [[[store1 n1] data1]|err]
      eqn:Hloop; [by eexists|].
    destruct (Hraise err eq_refl) as [Hf _]. congruence.
  - intros err.
    destruct (for_each_r _ (store, 0) data) as [[[store1 n1] data1]|err']
      eqn:Hloop; [done|].
    simpl. intros [= ->]. by apply Hraise.
Qed.

(** *** Candidates *)

Lemma dedup_candidates_snoc (l : list candidate) (c : candidate) :
  dedup_candidates (l ++ [c])
  = if decide (cand_key c ∈ cand_key <$> dedup_candidates l)
    then dedup_candidates l else dedup_candidates l ++ [c].
Proof.
  unfold dedup_candidates.
  set (step := fun (acc : gset (string * string) * list candidate) item =>
                 if bool_decide ((cand_db item, cand_code item) ∈ acc.1)
                 then acc
                 else ({[(cand_db item, cand_code item)]} ∪ acc.1,
                       acc.2 ++ [item])).
  assert (Hsnoc : ∀ l0 x, foldl step (∅, []) (l0 ++ [x])
                          = step (foldl step (∅, []) l0) x)
    by (intros; by rewrite foldl_app).
  assert (Hstep : ∀ acc x,
            step acc x
            = if decide (cand_key x ∈ acc.1) then acc
              else ({[cand_key x]} ∪ acc.1, acc.2 ++ [x])).
  { intros acc x. unfold step, cand_key.
    destruct (decide ((cand_db x, cand_code x) ∈ acc.1)).
    - by rewrite bool_decide_true.
    - by rewrite bool_decide_false. }
  assert (Hinv : ∀ l0 k, k ∈ (foldl step (∅, []) l0).1
                         ↔ k ∈ cand_key <$> (foldl step (∅, []) l0).2).
  { induction l0 as [|x l0 IH] using rev_ind; intros k.
    - cbn [foldl fst snd fmap list_fmap]. rewrite elem_of_nil.
      apply elem_of_empty.
    - rewrite Hsnoc, Hstep.
      destruct (decide (cand_key x ∈ (foldl step (∅, []) l0).1));
        [apply IH|].
      cbn [fst snd].
      rewrite fmap_app, elem_of_app, elem_of_union, elem_of_singleton, IH.
      cbn [fmap list_fmap]. rewrite list_elem_of_singleton. tauto. }
  rewrite Hsnoc, Hstep. clearbody step.
  destruct (decide (cand_key c ∈ (foldl step (∅, []) l).1)) as [Hin|Hnin],
           (decide (cand_key c ∈ cand_key <$> (foldl step (∅, []) l).2))
             as [Hin'|Hnin']; try done.
  - destruct Hnin'. by apply Hinv.
  - destruct Hnin. by apply Hinv.
Qed.

Lemma dedup_candidates_sublist (l : list candidate) :
  NoDup (cand_key <$> dedup_candidates l)
  ∧ sublist (dedup_candidates l) l
  ∧ (∀ c, c ∈ l → cand_key c ∈ cand_key <$> dedup_candidates l)
  ∧ (NoDup (cand_key <$> l) → dedup_candidates l = l).
Proof.
  induction l as [|c l (IH1 & IH2 & IH3 & IH4)] using rev_ind.
  - repeat split; [constructor|done|by intros ? ?%elem_of_nil].
  - rewrite dedup_candidates_snoc.
    destruct (decide (cand_key c ∈ cand_key <$> dedup_candidates l))
      as [Hin|Hnin].
    + split; [done|]. split; [by apply sublist_inserts_r|]. split.
      * intros x [Hx|Hx%list_elem_of_singleton]%elem_of_app; [auto|].
        by subst x.
      * rewrite fmap_app. intros Hnd. apply NoDup_app in Hnd as (Hl & Hd & _).
        exfalso. apply list_elem_of_fmap in Hin as (x & Hk & Hx).
        apply (Hd (cand_key c)).
        -- rewrite Hk. apply list_elem_of_fmap_2.
           by apply (sublist_subseteq _ _ IH2).
        -- cbn [fmap list_fmap]. apply list_elem_of_here.
    + split.
      { rewrite fmap_app. apply NoDup_app. split; [done|]. split.
        - intros k Hk Hk'. cbn [fmap list_fmap] in Hk'.
          apply list_elem_of_singleton in Hk' as ->. done.
        - apply NoDup_singleton. }
      split; [by apply sublist_app|]. split.
      * intros x [Hx|Hx%list_elem_of_singleton]%elem_of_app.
        -- rewrite fmap_app. apply elem_of_app. left. auto.
        -- subst x. rewrite fmap_app. apply elem_of_app. right.
           apply list_elem_of_here.
      * rewrite fmap_app. intros Hnd. apply NoDup_app in Hnd as (Hl & _ & _).
        by rewrite IH4.
Qed.

Lemma dedup_candidates_cons (c : candidate) (l : list candidate) :
  dedup_candidates (c :: l)
  = c :: filter (fun c' => cand_key c' ≠ cand_key c) (dedup_candidates l).
Proof.
  induction l as [|x l IH] using rev_ind.
  - reflexivity.
  - rewrite app_comm_cons, !dedup_candidates_snoc, IH.
    assert (Hkeys : cand_key x ≠ cand_key c →
              cand_key x ∈ cand_key <$>
                filter (fun c' => cand_key c' ≠ cand_key c)
                  (dedup_candidates l)
              ↔ cand_key x ∈ cand_key <$> dedup_candidates l).
    { intros Hne. rewrite !list_elem_of_fmap. split.
      - intros (y & Hy & Hin%list_elem_of_filter). exists y. tauto.
      - intros (y & Hy & Hin). exists y. split; [done|].
        apply list_elem_of_filter. split; [congruence|done]. }
    destruct (decide (cand_key x = cand_key c)) as [Heq|Hne].
    + rewrite decide_True by (rewrite fmap_cons, Heq; apply list_elem_of_here).
      destruct (decide (cand_key x ∈ cand_key <$> dedup_candidates l));
        [done|].
      rewrite filter_app, filter_cons, decide_False, filter_nil, app_nil_r;
        [done|]. by intros Hn.
    + destruct (decide (cand_key x ∈ cand_key <$> dedup_candidates l))
        as [Hin|Hnin].
      * rewrite decide_True; [done|].
        rewrite fmap_cons. apply list_elem_of_further. by apply Hkeys.
      * rewrite decide_False.
        -- rewrite filter_app, filter_cons, decide_True, filter_nil by done.
           done.
        -- rewrite fmap_cons. intros [?|Hin]%elem_of_cons; [done|].
           by apply Hnin, Hkeys.
Qed.

(** X14. The de-duplication of the name-only candidates keeps, in order,
    the first candidate of every (database, code) pair.  The result has no
    two candidates with the same pair, is a sub-list of the input, and
    still has every pair of the input; a list without repeated pairs comes
    back unchanged.  Which candidate of a pair stays is fixed: the head of
    a list is always kept and the later candidates with its pair are
    dropped, and a candidate appended to a list is kept exactly when the
    list has no candidate with its pair. *)
Theorem dedup_candidates_keeps_first (l : list candidate) :
  NoDup (cand_key <$> dedup_candidates l)
  ∧ sublist (dedup_candidates l) l
  ∧ (∀ c, c ∈ l → cand_key c ∈ cand_key <$> dedup_candidates l)
  ∧ (NoDup (cand_key <$> l) → dedup_candidates l = l)
  ∧ (∀ c, dedup_candidates (c :: l)
          = c :: filter (fun c' => cand_key c' ≠ cand_key c)
                   (dedup_candidates l))
  ∧ (∀ c, dedup_candidates (l ++ [c])
          = if decide (cand_key c ∈ cand_key <$> l)
            then dedup_candidates l else dedup_candidates l ++ [c]).
Proof.
  destruct (dedup_candidates_sublist l) as (H1 & H2 & H3 & H4).
  split; [done|]. split; [done|]. split; [done|]. split; [done|].
  split; [intros c; apply dedup_candidates_cons|].
  intros c. rewrite dedup_candidates_snoc.
  destruct (decide (cand_key c ∈ cand_key <$> dedup_candidates l))
    as [Hin|Hnin], (decide (cand_key c ∈ cand_key <$> l)) as [Hin'|Hnin'];
    try done.
  - destruct Hnin'. apply list_elem_of_fmap in Hin as (x & Hk & Hx).
    rewrite Hk. apply list_elem_of_fmap_2.
    by apply (sublist_subseteq _ _ H2).
  - destruct Hnin. apply list_elem_of_fmap in Hin' as (x & Hk & Hx).
    rewrite Hk. by apply H3.
Qed.

Lemma unit_filtered_elem (cands : list candidate) (unit_n : string)
  (c : candidate) :
  c ∈ unit_filtered cands unit_n →
  c ∈ cands
  ∧ (Exists (fun c' => cand_unit c' = unit_n) cands → cand_unit c = unit_n).
Proof.
  unfold unit_filtered. case_bool_decide as He.
  - intros [Hu Hc]%list_elem_of_filter. by split.
  - intros Hc. by split.
Qed.

(** X15. [choose_best_candidate] only ever selects one of the candidates
    it is given, and never one whose unit differs from the exchange's
    when some candidate has the exchange's unit. *)
Theorem chosen_candidate_is_a_candidate (cands : list candidate)
  (unit_n : string) (top : option string) (k : string * string) :
  choose_best_candidate cands unit_n top = Some k →
  ∃ c, c ∈ cands ∧ k = (cand_db c, cand_code c)
       ∧ (Exists (fun c' => cand_unit c' = unit_n) cands →
          cand_unit c = unit_n).
Proof.
  rewrite choose_best_candidate_eq. cbv zeta.
  assert (Hunit : match unit_filtered cands unit_n with
                  | [c] => Some (cand_db c, cand_code c)
                  | _ => None
                  end = Some k →
                  ∃ c, c ∈ cands ∧ k = (cand_db c, cand_code c)
                       ∧ (Exists (fun c' => cand_unit c' = unit_n) cands →
                          cand_unit c = unit_n)).
  { destruct (unit_filtered cands unit_n) as [|c [|? ?]] eqn:Hk; try done.
    intros [= <-]. exists c.
    destruct (unit_filtered_elem cands unit_n c) as [? ?];
      [rewrite Hk; apply list_elem_of_here|]. by repeat split. }
  destruct top as [t|]; [|done]. case_decide; [done|].
  destruct (filter _ (unit_filtered cands unit_n)) as [|c [|? ?]] eqn:Hf;
    try done.
  intros [= <-]. exists c.
  assert (c ∈ unit_filtered cands unit_n) as Hc.
  { eapply (proj1 (list_elem_of_filter _ _ _)). rewrite Hf.
    apply list_elem_of_here. }
  destruct (unit_filtered_elem cands unit_n c Hc) as [? ?].
  by repeat split.
Qed.

(** *** The custom flow store *)

(** X16. [_get_or_create_custom_biosphere_flow] never overwrites: every
    other database of the store is as before, and every flow already in
    the target database is still there, unchanged; at most the new flow is
    added under its own key. *)
Theorem get_or_create_preserves_store (store : flow_store)
  (db_name flow_name : string) (categories : list string) (unit : string) :
  let r := _get_or_create_custom_biosphere_flow store db_name flow_name
             categories unit in
  (∀ other, other ≠ db_name → r.1 !! other = store !! other)
  ∧ (∀ key flow,
       default ∅ (store !! db_name) !! key = Some flow →
       default ∅ (r.1 !! db_name) !! key = Some flow)
  ∧ (∀ key flow,
       default ∅ (r.1 !! db_name) !! key = Some flow →
       default ∅ (store !! db_name) !! key = Some flow
       ∨ (key = r.2
          ∧ flow = custom_flow flow_name categories unit r.2.2)).
Proof.
  unfold _get_or_create_custom_biosphere_flow. cbv zeta.
  rewrite ensure_custom_biosphere_db_lookup. cbn [from_option id].
  set (key0 := (db_name, _custom_flow_code flow_name categories unit)).
  set (existing := default ∅ (store !! db_name)).
  assert (Hother : ∀ other, other ≠ db_name →
            _ensure_custom_biosphere_db store db_name !! other
            = store !! other).
  { intros other Hne. unfold _ensure_custom_biosphere_db.
    destruct (store !! db_name); [done|]. by rewrite lookup_insert_ne. }
  destruct (existing !! key0) as [flow0|] eqn:Hk; cbn [fst snd].
  - rewrite ensure_custom_biosphere_db_lookup. fold existing.
    cbn [from_option id]. repeat split; auto.
  - rewrite lookup_insert_eq. cbn [from_option id]. repeat split.
    + intros other Hne. rewrite lookup_insert_ne by done. auto.
    + intros key flow Hkf. rewrite lookup_insert_ne; [done|].
      intros <-. congruence.
    + intros key flow. destruct (decide (key = key0)) as [->|Hne].
      * rewrite lookup_insert_eq. intros [= <-]. by right.
      * rewrite lookup_insert_ne by done. by left.
Qed.

(** *** Repeated keys in the exact index *)

(** X17. When several reference flows have the same normalized (name,
    categories, unit), the exact index keeps the last one in iteration
    order: the key of an indexed flow resolves to that flow's code
    whenever no later flow has the same key. *)
Theorem exact_index_last_wins (bd : brightway) (db_name : string)
  (l1 l2 : list dict) (flow : dict) (name unit code : string) :
  Database bd db_name = l1 ++ flow :: l2 →
  flow_fields flow = Some (name, unit, code) →
  Forall (fun later => ∀ n u c,
            flow_fields later = Some (n, u, c) →
            exact_key later n u ≠ exact_key flow name unit) l2 →
  _build_biosphere_exact_index bd db_name !! exact_key flow name unit
  = Some (db_name, code).
Proof.
  intros Hrows Hf Hlater. unfold _build_biosphere_exact_index.
  rewrite Hrows, foldl_app. cbn [foldl]. rewrite Hf. clear Hrows.
  generalize (foldl
                (fun (idx : bio_index) (flow0 : dict) =>
                   match flow_fields flow0 with
                   | Some (name0, unit0, code0) =>
                       <[exact_key flow0 name0 unit0 := (db_name, code0)]> idx
                   | None => idx
                   end) ∅ l1).
  intros idx0.
  assert (Hstart : (<[exact_key flow name unit := (db_name, code)]> idx0)
                   !! exact_key flow name unit = Some (db_name, code))
    by apply lookup_insert_eq.
  revert Hstart.
  generalize (<[exact_key flow name unit := (db_name, code)]> idx0).
  induction Hlater as [|later l2 Hl _ IH]; intros idx Hidx; [done|].
  cbn [foldl]. apply IH.
  destruct (flow_fields later) as [[[n u] c]|] eqn:Hfl; [|exact Hidx].
  rewrite lookup_insert_ne; [exact Hidx|]. by apply (Hl n u c).
Qed.

(** *** The name-only index *)

(** X18. The name-only index groups the indexed reference flows by
    normalized name: under a name it lists, in iteration order, one
    candidate for every flow with that normalized name, each in the
    indexed database; and a name is absent exactly when no indexed flow
    has it. *)
Theorem name_index_groups_by_name (bd : brightway) (biosphere_db n : string) :
  default [] (build_name_idx bd biosphere_db !! n)
  = omap (flow_candidate biosphere_db)
      (filter (fun flow => is_named n flow = true)
         (Database bd biosphere_db))
  ∧ (build_name_idx bd biosphere_db !! n = None ↔
       Forall (fun flow => is_named n flow = false)
         (Database bd biosphere_db))
  ∧ Forall (fun c => cand_db c = biosphere_db)
      (default [] (build_name_idx bd biosphere_db !! n)).
Proof.
  split; [apply name_idx_lookup|]. split.
  - unfold build_name_idx.
    induction (Database bd biosphere_db) as [|flow rows IH] using rev_ind.
    + cbn [foldl]. rewrite lookup_empty. split; [constructor|done].
    + rewrite foldl_app, Forall_app, Forall_singleton. cbn [foldl].
      unfold is_named.
      destruct (flow_fields flow) as [[[name unit] code]|].
      * destruct (decide (_norm name = n)) as [<-|Hne].
        -- rewrite lookup_insert_eq, bool_decide_true by done.
           split; [done|]. by intros [_ ?].
        -- rewrite lookup_insert_ne, bool_decide_false by done.
           rewrite IH. tauto.
      * rewrite IH. tauto.
  - rewrite name_idx_lookup.
    induction (filter _ _) as [|flow rows IH]; [constructor|].
    cbn [omap list_omap]. unfold flow_candidate at 1.
    destruct (flow_fields flow) as [[[name unit] code]|]; [|done].
    by constructor.
Qed.

(** *** Blank strings *)

Lemma lstrip_nil (l : list ascii) :
  PyStr.lstrip l = [] ↔ Forall (fun c => PyStr.isspace c = true) l.
Proof.
  induction l as [|c l IH]; [done|]. simpl.
  destruct (PyStr.isspace c) eqn:Hc.
  - rewrite IH. split; [by constructor|]. by intros [_ ?]%Forall_cons.
  - split; [done|]. intros [? _]%Forall_cons. congruence.
Qed.

Lemma lstrip_starts_word (l : list ascii) :
  PyStr.lstrip l ≠ [] → PyStr.starts_word (PyStr.lstrip l) = true.
Proof.
  induction l as [|c l IH]; [done|]. simpl.
  destruct (PyStr.isspace c) eqn:Hc; [done|]. intros _. simpl.
  by rewrite Hc.
Qed.

Lemma strip_nil (l : list ascii) :
  PyStr.strip l = [] ↔ Forall (fun c => PyStr.isspace c = true) l.
Proof.
  unfold PyStr.strip. split.
  - intros H%rstrip_nil. apply lstrip_nil.
    destruct (PyStr.lstrip l) as [|c r] eqn:Hl; [done|].
    assert (PyStr.starts_word (c :: r) = true) as Hw.
    { rewrite <- Hl. apply lstrip_starts_word. by rewrite Hl. }
    simpl in Hw. apply Forall_cons in H as [Hc _]. by rewrite Hc in Hw.
  - intros H. apply lstrip_nil in H. by rewrite H.
Qed.

Lemma split_nil (l : list ascii) :
  PyStr.split l = [] ↔ Forall (fun c => PyStr.isspace c = true) l.
Proof.
  split; [|apply split_all_space].
  induction l as [|c l IH]; [done|].
  destruct (PyStr.isspace c) eqn:Hc.
  - rewrite split_cons_space by done. by constructor; auto.
  - rewrite (split_cons_word _ _ Hc).
    destruct (PyStr.starts_word l); [by destruct (PyStr.split l)|done].
Qed.

Lemma join_nil (ws : list (list ascii)) :
  Forall PyStr.word ws → PyStr.join [" "%char] ws = [] → ws = [].
Proof.
  destruct 1 as [|w ws [Hw _] _]; [done|]. rewrite join_cons.
  by destruct w.
Qed.

Lemma string_of_list_ascii_nil (l : list ascii) :
  string_of_list_ascii l = "" ↔ l = [].
Proof. by destruct l. Qed.

Lemma str_strip_blank (s : string) : str_strip s = "" ↔ all_space s.
Proof.
  unfold str_strip, all_space. rewrite string_of_list_ascii_nil.
  apply strip_nil.
Qed.

Lemma norm_blank (s : string) : _norm s = "" ↔ all_space s.
Proof.
  unfold _norm, all_space. rewrite string_of_list_ascii_nil.
  rewrite norm_chars_split. split.
  - intros H%join_nil; [|apply split_words].
    rewrite split_lower in H. apply fmap_nil_inv in H.
    by apply split_nil.
  - intros H. by rewrite split_lower, split_all_space.
Qed.

(** X19. [_norm] gives the empty string exactly for the strings made of
    white space only (the empty string among them), and so does
    [strip]. *)
Theorem norm_empty_iff_blank (s : string) :
  (_norm s = "" ↔ all_space s) ∧ (str_strip s = "" ↔ all_space s).
Proof. split; [apply norm_blank|apply str_strip_blank]. Qed.

(** *** The mapping fix rows *)

Lemma mapping_fix_list_to_map (rows : list (pyval * pyval)) :
  mapping_fix_of_rows rows = list_to_map (reverse (omap mapping_entry rows)).
Proof.
  rewrite <- foldl_insert_list_to_map. unfold mapping_fix_of_rows.
  apply foldl_ext_eq. intros out [src dst]. unfold mapping_entry.
  destruct src; try done. destruct dst; try done.
  by repeat case_decide.
Qed.

Lemma mapping_entry_Some (row : pyval * pyval) (k v : string) :
  mapping_entry row = Some (k, v) ↔
    ∃ src dst, row = (PStr src, PStr dst) ∧ ¬ all_space src
               ∧ ¬ all_space dst ∧ k = _norm src ∧ v = str_strip dst.
Proof.
  unfold mapping_entry. split.
  - destruct row as [[| | | |src| | |] [| | | |dst| | |]]; try done.
    destruct (decide (str_strip src = "")) as [|Hs]; [done|].
    destruct (decide (str_strip dst = "")) as [|Hd]; [done|].
    intros [= <- <-]. exists src, dst.
    repeat split; try done; intros Hb;
      by apply str_strip_blank in Hb.
  - intros (src & dst & -> & Hs & Hd & -> & ->).
    rewrite !decide_False; [done| |];
      intros Hb; by apply str_strip_blank in Hb.
Qed.

(** X20. The loop over the rows of the mapping fix file.  Every entry of
    the mapping comes from a row whose two cells are strings that are not
    blank: its key is the normalized first cell, which is never empty and
    is its own normal form, and its value is the stripped second cell.  A
    row that is not of this kind contributes nothing, and a later row
    overrides an earlier one with the same normalized first cell. *)
Theorem mapping_fix_rows_normalized (rows : list (pyval * pyval)) :
  (∀ k v,
     mapping_fix_of_rows rows !! k = Some v →
     k ≠ "" ∧ _norm k = k
     ∧ ∃ src dst, (PStr src, PStr dst) ∈ rows ∧ ¬ all_space src
                  ∧ ¬ all_space dst ∧ k = _norm src ∧ v = str_strip dst)
  ∧ (∀ l1 l2 row,
       rows = l1 ++ row :: l2 →
       (∀ src dst, row = (PStr src, PStr dst) →
                   all_space src ∨ all_space dst) →
       mapping_fix_of_rows rows = mapping_fix_of_rows (l1 ++ l2))
  ∧ (∀ src dst,
       ¬ all_space src → ¬ all_space dst →
       mapping_fix_of_rows (rows ++ [(PStr src, PStr dst)]) !! _norm src
       = Some (str_strip dst)).
Proof.
  split; [|split].
  - intros k v. rewrite mapping_fix_list_to_map.
    intros Hkv%elem_of_list_to_map_2.
    apply elem_of_reverse, list_elem_of_omap in Hkv as (row & Hrow & He).
    apply mapping_entry_Some in He as (src & dst & -> & Hs & Hd & -> & ->).
    split; [by rewrite norm_blank|]. split; [apply norm_idem|].
    by exists src, dst.
  - intros l1 l2 row -> Hrow. rewrite !mapping_fix_list_to_map.
    rewrite !omap_app. cbn [omap list_omap].
    destruct (mapping_entry row) as [[k v]|] eqn:He; [|done].
    apply mapping_entry_Some in He as (src & dst & -> & Hs & Hd & _).
    by destruct (Hrow src dst eq_refl).
  - intros src dst Hs Hd. unfold mapping_fix_of_rows.
    rewrite foldl_app. cbn [foldl].
    rewrite !decide_False by (by rewrite str_strip_blank).
    apply lookup_insert_eq.
Qed.

End Builtins.

(** *** Normalisation on all code points *)

Section Unicode.

Import PyUnicode.

#[local] Open Scope N_scope.

(** Facts read off the tables. *)

Lemma isspace_whitespace (c : N) : isspace c = true ↔ c ∈ whitespace.
Proof.
  unfold isspace. rewrite existsb_exists. split.
  - intros (x & Hx & ->%N.eqb_eq). by apply list_elem_of_In.
  - intros Hc. exists c. split; [by apply list_elem_of_In|apply N.eqb_refl].
Qed.

Lemma whitespace_facts (c : N) :
  isspace c = true →
  lower_full c = [c] ∧ c ≠ capital_sigma
  ∧ case_ignorable c = false ∧ cased c = false.
Proof.
  intros Hc%isspace_whitespace.
  assert (H : forallb
                (fun c => bool_decide (lower_full c = [c])
                          && negb (c =? capital_sigma)
                          && negb (case_ignorable c) && negb (cased c))
                whitespace = true) by (by vm_compute).
  rewrite forallb_forall in H. apply list_elem_of_In, H in Hc.
  apply andb_true_iff in Hc as [[[H1 H2]%andb_true_iff H3]%andb_true_iff H4].
  apply bool_decide_eq_true in H1.
  apply negb_true_iff in H2, H3, H4. by apply N.eqb_neq in H2.
Qed.

Lemma in_run_pairs (c first count stride image : N) :
  in_run c (first, count, stride, image) = true →
  (c, image + (c - first)) ∈ run_pairs (first, count, stride, image).
Proof.
  unfold in_run, run_pairs.
  intros [[H1%N.leb_le H2%N.ltb_lt]%andb_true_iff H3%N.eqb_eq]%andb_true_iff.
  assert (stride ≠ 0) as Hs by (intros ->; lia).
  pose proof (N.div_mod (c - first) stride Hs) as Hdiv.
  rewrite H3, N.add_0_r in Hdiv.
  set (k := (c - first) / stride) in *.
  assert (k < count) as Hk by nia.
  apply list_elem_of_In, in_map_iff. exists (N.to_nat k). split.
  - rewrite N2Nat.id, <- Hdiv. f_equal. lia.
  - apply in_seq. lia.
Qed.

Lemma tolower_cases (c : N) :
  (find (in_run c) lower_runs = None ∧ tolower c = c)
  ∨ (c, tolower c) ∈ lower_pairs.
Proof.
  unfold tolower. destruct (find (in_run c) lower_runs) as [r|] eqn:Hf.
  - right. apply find_some in Hf as [Hr Hc].
    destruct r as [[[first count] stride] image].
    apply list_elem_of_In, in_flat_map. exists (first, count, stride, image).
    split; [done|]. by apply list_elem_of_In, in_run_pairs.
  - by left.
Qed.

Lemma lower_pairs_facts (c d : N) :
  (c, d) ∈ lower_pairs → lower_fixed d ∧ isspace d = false.
Proof.
  intros Hp.
  assert (H : forallb
                (fun p => bool_decide (lower_full p.2 = [p.2])
                          && negb (p.2 =? capital_sigma)
                          && negb (isspace p.2))
                lower_pairs = true) by (by vm_compute).
  rewrite forallb_forall in H. apply list_elem_of_In, H in Hp.
  cbn [snd] in Hp.
  apply andb_true_iff in Hp as [[H1 H2]%andb_true_iff H3].
  apply bool_decide_eq_true in H1. apply negb_true_iff in H2, H3.
  apply N.eqb_neq in H2. done.
Qed.

(** What [lower] writes for a code point is left as it is by [lower],
    and is white space only if the code point is. *)
Lemma lower_full_facts (c d : N) :
  d ∈ lower_full c →
  lower_fixed d ∧ (isspace c = false → isspace d = false).
Proof.
  unfold lower_full. destruct (c =? 0x130) eqn:Hc.
  - intros Hd.
    assert (d = 0x69 ∨ d = 0x307) as [-> | ->].
    { apply elem_of_cons in Hd as [->|Hd]; [by left|].
      apply list_elem_of_singleton in Hd as ->. by right. }
    + split; [|done]. split; [by vm_compute|done].
    + split; [|done]. split; [by vm_compute|done].
  - intros ->%list_elem_of_singleton.
    destruct (tolower_cases c) as [[Hnone ->]|Hp].
    + split; [|done]. split.
      * unfold lower_full. rewrite Hc. unfold tolower. by rewrite Hnone.
      * intros ->. by vm_compute in Hnone.
    + apply lower_pairs_facts in Hp as [? ?]. done.
Qed.

Lemma sigma_facts :
  lower_fixed small_sigma ∧ lower_fixed final_small_sigma
  ∧ isspace small_sigma = false ∧ isspace final_small_sigma = false.
Proof. repeat split; by vm_compute. Qed.

Lemma lower_full_nonempty (c : N) : lower_full c ≠ [].
Proof. unfold lower_full. by destruct (c =? 0x130). Qed.

(** [lower] *)

Lemma lower_from_fixed (t before : list N) :
  Forall lower_fixed t → lower_from before t = t.
Proof.
  intros Ht. revert before.
  induction Ht as [|c r [Hc Hs] _ IH]; intros before; [done|].
  cbn [lower_from]. apply N.eqb_neq in Hs. rewrite Hs, Hc, IH. done.
Qed.

Lemma lower_from_is_fixed (s before : list N) :
  Forall lower_fixed (lower_from before s).
Proof.
  revert before. induction s as [|c r IH]; intros before; [constructor|].
  cbn [lower_from]. apply Forall_app. split; [|apply IH].
  destruct (c =? capital_sigma).
  - constructor; [|constructor].
    destruct (final_sigma before r); apply sigma_facts.
  - apply Forall_forall. intros d Hd. by apply (lower_full_facts c).
Qed.

Lemma lower_lower (s : list N) : lower (lower s) = lower s.
Proof. apply lower_from_fixed, lower_from_is_fixed. Qed.

Lemma lower_from_no_sigma (s before : list N) :
  capital_sigma ∉ s → lower_from before s = flat_map lower_full s.
Proof.
  revert before. induction s as [|c r IH]; intros before Hs; [done|].
  cbn [lower_from flat_map].
  assert (c ≠ capital_sigma) as Hc%N.eqb_neq.
  { intros ->. apply Hs, list_elem_of_here. }
  rewrite Hc, IH; [done|]. intros Hr. by apply Hs, list_elem_of_further.
Qed.

Lemma lower_from_nonspace (s before : list N) :
  Forall (fun c => isspace c = false) s →
  Forall (fun c => isspace c = false) (lower_from before s).
Proof.
  intros Hs. revert before.
  induction Hs as [|c r Hc _ IH]; intros before; [constructor|].
  cbn [lower_from]. apply Forall_app. split; [|apply IH].
  destruct (c =? capital_sigma).
  - constructor; [|constructor].
    destruct (final_sigma before r); apply sigma_facts.
  - apply Forall_forall. intros d Hd.
    by apply (lower_full_facts c d Hd).
Qed.

Lemma lower_from_nonempty (s before : list N) :
  s ≠ [] → lower_from before s ≠ [].
Proof.
  destruct s as [|c r]; [done|]. intros _. cbn [lower_from].
  destruct (c =? capital_sigma); [done|].
  pose proof (lower_full_nonempty c). by destruct (lower_full c).
Qed.

Lemma lower_word (w : list N) : word w → word (lower w).
Proof.
  intros [Hne Hw]. split.
  - by apply lower_from_nonempty.
  - by apply lower_from_nonspace.
Qed.

(** White space cuts the context of a capital sigma. *)

Lemma skip_ignorable_space_after (a1 a2 : list N) (sp : N) :
  isspace sp = true →
  match skip_ignorable (a1 ++ sp :: a2) with
  | d :: _ => negb (cased d)
  | [] => true
  end
  = match skip_ignorable a1 with
    | d :: _ => negb (cased d)
    | [] => true
    end.
Proof.
  intros (_ & _ & Hi & Hc)%whitespace_facts.
  induction a1 as [|x a1 IH]; cbn [app skip_ignorable].
  - by rewrite Hi, Hc.
  - by destruct (case_ignorable x).
Qed.

Lemma skip_ignorable_space_before (b1 b2 : list N) (sp : N) :
  isspace sp = true →
  match skip_ignorable (b1 ++ sp :: b2) with
  | c :: _ => cased c
  | [] => false
  end
  = match skip_ignorable b1 with
    | c :: _ => cased c
    | [] => false
    end.
Proof.
  intros (_ & _ & Hi & Hc)%whitespace_facts.
  induction b1 as [|x b1 IH]; cbn [app skip_ignorable].
  - by rewrite Hi, Hc.
  - by destruct (case_ignorable x).
Qed.

Lemma final_sigma_eq (before after : list N) :
  final_sigma before after
  = match skip_ignorable before with
    | c :: _ => cased c
    | [] => false
    end
    && match skip_ignorable after with
       | d :: _ => negb (cased d)
       | [] => true
       end.
Proof. unfold final_sigma. by destruct (skip_ignorable before). Qed.

Lemma final_sigma_space_after (before a1 a2 : list N) (sp : N) :
  isspace sp = true →
  final_sigma before (a1 ++ sp :: a2) = final_sigma before a1.
Proof.
  intros Hsp. by rewrite !final_sigma_eq, skip_ignorable_space_after.
Qed.

Lemma final_sigma_space_before (b1 b2 after : list N) (sp : N) :
  isspace sp = true →
  final_sigma (b1 ++ sp :: b2) after = final_sigma b1 after.
Proof.
  intros Hsp. by rewrite !final_sigma_eq, skip_ignorable_space_before.
Qed.

Lemma lower_from_space_before (v b1 b2 : list N) (sp : N) :
  isspace sp = true →
  lower_from (b1 ++ sp :: b2) v = lower_from b1 v.
Proof.
  intros Hsp. revert b1. induction v as [|c r IH]; intros b1; [done|].
  cbn [lower_from]. rewrite final_sigma_space_before by done.
  by rewrite app_comm_cons, IH.
Qed.

Lemma lower_from_space (u v before : list N) (sp : N) :
  isspace sp = true →
  lower_from before (u ++ sp :: v)
  = lower_from before u ++ sp :: lower_from [] v.
Proof.
  intros Hsp. revert before. induction u as [|c u IH]; intros before.
  - cbn [app lower_from].
    destruct (whitespace_facts sp Hsp) as (Hl & Hs%N.eqb_neq & _).
    rewrite Hs, Hl.
    pose proof (lower_from_space_before v [] before sp Hsp) as Hb.
    cbn [app] in Hb. by rewrite Hb.
  - cbn [app lower_from].
    rewrite final_sigma_space_after by done.
    by rewrite IH, app_assoc.
Qed.

Lemma lower_space (u v : list N) (sp : N) :
  isspace sp = true → lower (u ++ sp :: v) = lower u ++ sp :: lower v.
Proof. apply lower_from_space. Qed.

(** [split] and [strip] *)

Lemma uni_split_cons_space c r : isspace c = true → split (c :: r) = split r.
Proof. intros H. simpl. by rewrite H. Qed.

Lemma uni_split_cons_word c r :
  isspace c = false →
  split (c :: r) =
    if starts_word r
    then match split r with w :: ws => (c :: w) :: ws | [] => [[c]] end
    else [c] :: split r.
Proof.
  intros H. simpl. rewrite H. destruct r as [|d r']; [done|].
  simpl. by destruct (isspace d).
Qed.

Lemma uni_split_starts_word l : starts_word l = true → split l ≠ [].
Proof.
  destruct l as [|d r]; [done|]. simpl starts_word. intros Hd.
  apply negb_true_iff in Hd. rewrite (uni_split_cons_word _ _ Hd).
  destruct (starts_word r); [by destruct (split r)|done].
Qed.

Lemma uni_split_all_space ws : all_space ws → split ws = [].
Proof.
  induction 1 as [|c r Hc _ IH]; [done|]. by rewrite uni_split_cons_space.
Qed.

Lemma uni_split_app_space_l ws l :
  all_space ws → split (ws ++ l) = split l.
Proof.
  induction 1 as [|c r Hc _ IH]; [done|].
  by rewrite <- app_comm_cons, uni_split_cons_space.
Qed.

Lemma uni_starts_word_app u v :
  u ≠ [] → starts_word (u ++ v) = starts_word u.
Proof. by destruct u. Qed.

Lemma uni_split_app_space u ws v :
  ws ≠ [] → all_space ws → split (u ++ ws ++ v) = split u ++ split v.
Proof.
  intros Hne Hws. induction u as [|c u IH].
  - simpl. by apply uni_split_app_space_l.
  - rewrite <- app_comm_cons. destruct (isspace c) eqn:Hc.
    + by rewrite !(uni_split_cons_space c).
    + rewrite !(uni_split_cons_word _ _ Hc), IH.
      destruct u as [|d u'].
      * simpl app at 1. destruct ws as [|s ws']; [done|].
        simpl. inversion Hws as [|? ? Hs _]; subst. by rewrite Hs.
      * rewrite uni_starts_word_app by done.
        destruct (starts_word (d :: u')) eqn:Hd; [|done].
        apply uni_split_starts_word in Hd.
        by destruct (split (d :: u')).
Qed.

Lemma uni_split_app_space_r l ws :
  all_space ws → split (l ++ ws) = split l.
Proof.
  intros Hws. destruct ws as [|s ws'].
  - by rewrite app_nil_r.
  - rewrite <- (app_nil_r (s :: ws')), uni_split_app_space by done.
    simpl. by rewrite app_nil_r.
Qed.

Lemma uni_split_lstrip l : split (lstrip l) = split l.
Proof.
  induction l as [|c r IH]; [done|]. simpl lstrip.
  destruct (isspace c) eqn:Hc; [|done]. by rewrite uni_split_cons_space.
Qed.

Lemma uni_rstrip_nil l : rstrip l = [] → all_space l.
Proof.
  unfold all_space. induction l as [|c r IH]; [constructor|]. simpl.
  destruct (rstrip r); [|done].
  destruct (isspace c) eqn:Hc; [|done]. intros _. by constructor; auto.
Qed.

Lemma uni_rstrip_starts_word l :
  rstrip l ≠ [] → starts_word (rstrip l) = starts_word l.
Proof.
  destruct l as [|c r]; [done|]. simpl.
  destruct (rstrip r); [|done].
  destruct (isspace c) eqn:Hc; simpl; [by intros []|by rewrite Hc].
Qed.

Lemma uni_split_rstrip l : split (rstrip l) = split l.
Proof.
  induction l as [|c r IH]; [done|]. simpl rstrip.
  destruct (rstrip r) as [|d r'] eqn:Hr.
  - apply uni_rstrip_nil in Hr.
    destruct (isspace c) eqn:Hc.
    + rewrite uni_split_cons_space by done.
      by rewrite (uni_split_all_space r Hr).
    + change (c :: r) with ([c] ++ r).
      by rewrite (uni_split_app_space_r [c] r Hr).
  - destruct (isspace c) eqn:Hc.
    + by rewrite !(uni_split_cons_space c).
    + rewrite !(uni_split_cons_word _ _ Hc), IH.
      assert (starts_word (d :: r') = starts_word r) as ->; [|done].
      rewrite <- Hr. apply uni_rstrip_starts_word. by rewrite Hr.
Qed.

Lemma uni_split_strip l : split (strip l) = split l.
Proof. unfold strip. by rewrite uni_split_rstrip, uni_split_lstrip. Qed.

Lemma uni_split_words l : Forall word (split l).
Proof.
  induction l as [|c r IH]; [constructor|].
  destruct (isspace c) eqn:Hc.
  - by rewrite uni_split_cons_space.
  - rewrite (uni_split_cons_word _ _ Hc).
    destruct (starts_word r).
    + destruct (split r) as [|w ws].
      * repeat constructor; done.
      * inversion IH as [|? ? [Hw1 Hw2] Hws]; subst.
        constructor; [|done]. split; [done|]. by constructor.
    + constructor; [|done]. split; [done|]. by repeat constructor.
Qed.

Lemma uni_split_word_app w r :
  word w → starts_word r = false → split (w ++ r) = w :: split r.
Proof.
  intros [Hne Hw] Hr. induction Hw as [|c w' Hc Hw' IH]; [done|].
  rewrite <- app_comm_cons, (uni_split_cons_word _ _ Hc).
  destruct w' as [|d w''].
  - simpl app. by rewrite Hr.
  - rewrite uni_starts_word_app by done.
    inversion Hw' as [|? ? Hd _]; subst. simpl starts_word. rewrite Hd.
    simpl negb. cbv iota. by rewrite IH.
Qed.

Lemma uni_join_cons sep w ws :
  join sep (w :: ws) =
    w ++ match ws with [] => [] | _ => sep ++ join sep ws end.
Proof. destruct ws; [by rewrite app_nil_r|done]. Qed.

Lemma uni_split_join ws :
  Forall word ws → split (join [0x20] ws) = ws.
Proof.
  induction 1 as [|w ws Hw Hws IH]; [done|].
  rewrite uni_join_cons. destruct ws as [|w' ws'].
  - rewrite (uni_split_word_app w [] Hw); done.
  - rewrite (uni_split_word_app w _ Hw) by done.
    f_equal. simpl app. by rewrite uni_split_cons_space.
Qed.

(** A string is free of white space, or has a first white space. *)
Lemma first_space (s : list N) :
  Forall (fun c => isspace c = false) s
  ∨ ∃ u sp v, s = u ++ sp :: v ∧ Forall (fun c => isspace c = false) u
              ∧ isspace sp = true.
Proof.
  induction s as [|c r IH]; [by left|].
  destruct (isspace c) eqn:Hc.
  - right. by exists [], c, r.
  - destruct IH as [Hr|(u & sp & v & -> & Hu & Hsp)].
    + left. by constructor.
    + right. exists (c :: u), sp, v. split; [done|]. by split; [constructor|].
Qed.

(** The words of a string are lower-cased one by one: what stands beyond
    white space has no part in the lowercase of a word. *)
Lemma uni_split_lower (s : list N) :
  split (lower s) = map lower (split s).
Proof.
  remember (length s) as n eqn:Hn. revert s Hn.
  induction n as [n IH] using lt_wf_ind. intros s ->.
  destruct (first_space s) as [Hs|(u & sp & v & -> & Hu & Hsp)].
  - destruct s as [|c r]; [done|].
    assert (word (c :: r)) as Hw by done.
    rewrite <- (app_nil_r (c :: r)) at 2.
    rewrite (uni_split_word_app _ [] Hw) by done.
    rewrite <- (app_nil_r (lower (c :: r))).
    by rewrite (uni_split_word_app _ [] (lower_word _ Hw)).
  - rewrite (lower_space u v sp Hsp).
    assert (split (lower v) = map lower (split v)) as IHv.
    { apply (IH (length v)); [|done]. rewrite length_app. simpl. lia. }
    destruct u as [|c u].
    + cbn [lower lower_from app].
      by rewrite !(uni_split_cons_space sp).
    + assert (word (c :: u)) as Hw by done.
      rewrite (uni_split_word_app _ _ Hw) by (simpl; by rewrite Hsp).
      rewrite (uni_split_word_app _ _ (lower_word _ Hw))
        by (simpl; by rewrite Hsp).
      rewrite !(uni_split_cons_space sp) by done.
      cbn [map]. by rewrite IHv.
Qed.

Lemma uni_norm_words (s : list N) :
  _norm s = join [0x20] (map lower (split s)).
Proof. unfold _norm. by rewrite uni_split_lower, uni_split_strip. Qed.

Lemma uni_norm_idem (s : list N) : _norm (_norm s) = _norm s.
Proof.
  rewrite (uni_norm_words (_norm s)), (uni_norm_words s).
  assert (Forall word (map lower (split s))) as Hws.
  { apply Forall_forall. intros w (w0 & <- & Hw0)%list_elem_of_In%in_map_iff.
    apply lower_word.
    pose proof (uni_split_words s) as Hall.
    rewrite Forall_forall in Hall. by apply Hall, list_elem_of_In. }
  rewrite uni_split_join by done.
  f_equal. rewrite map_map. apply map_ext. apply lower_lower.
Qed.

Lemma uni_norm_same_case (s t : list N) :
  same_up_to_case s t → capital_sigma ∉ s → capital_sigma ∉ t →
  _norm s = _norm t.
Proof.
  intros Hst Hs Ht. rewrite !uni_norm_words, <- !uni_split_lower.
  unfold lower. rewrite !lower_from_no_sigma by done.
  do 2 f_equal. clear Hs Ht. induction Hst as [|a b s t Hab _ IH]; [done|].
  cbn [flat_map]. by rewrite Hab, IH.
Qed.

(** The code points below 256: [PyStr] is this module on them. *)

Lemma ord_facts (c : ascii) :
  isspace (PyStr.ord c) = PyStr.isspace c
  ∧ lower_full (PyStr.ord c) = [PyStr.ord (PyStr.lower_char c)]
  ∧ (PyStr.ord c =? capital_sigma) = false.
Proof. destruct c as [[] [] [] [] [] [] [] []]; by vm_compute. Qed.

Lemma lower_from_ord (l : list ascii) (before : list N) :
  lower_from before (map PyStr.ord l) = map PyStr.ord (PyStr.lower l).
Proof.
  revert before. induction l as [|c r IH]; intros before; [done|].
  cbn [map lower_from PyStr.lower].
  destruct (ord_facts c) as (_ & -> & ->). by rewrite IH.
Qed.

Lemma lstrip_ord (l : list ascii) :
  lstrip (map PyStr.ord l) = map PyStr.ord (PyStr.lstrip l).
Proof.
  induction l as [|c r IH]; [done|]. cbn [map lstrip PyStr.lstrip].
  destruct (ord_facts c) as (-> & _). by destruct (PyStr.isspace c).
Qed.

Lemma rstrip_ord (l : list ascii) :
  rstrip (map PyStr.ord l) = map PyStr.ord (PyStr.rstrip l).
Proof.
  induction l as [|c r IH]; [done|]. cbn [map rstrip PyStr.rstrip].
  rewrite IH. destruct (ord_facts c) as (-> & _).
  destruct (PyStr.rstrip r); [|done]. by destruct (PyStr.isspace c).
Qed.

Lemma split_ord (l : list ascii) :
  split (map PyStr.ord l) = map (map PyStr.ord) (PyStr.split l).
Proof.
  induction l as [|c r IH]; [done|]. cbn [map split PyStr.split].
  destruct (ord_facts c) as (-> & _).
  destruct (PyStr.isspace c); [done|].
  destruct r as [|d r']; [done|].
  change (map PyStr.ord (d :: r')) with (PyStr.ord d :: map PyStr.ord r')
    in *.
  destruct (ord_facts d) as (-> & _).
  destruct (PyStr.isspace d).
  - by rewrite IH.
  - rewrite IH. by destruct (PyStr.split (d :: r')).
Qed.

Lemma join_ord (sep : list ascii) (ws : list (list ascii)) :
  join (map PyStr.ord sep) (map (map PyStr.ord) ws)
  = map PyStr.ord (PyStr.join sep ws).
Proof.
  induction ws as [|w ws IH]; [done|].
  destruct ws as [|w' ws']; [done|].
  change (PyStr.join sep (w :: w' :: ws'))
    with (w ++ sep ++ PyStr.join sep (w' :: ws')).
  rewrite !map_app, <- IH. done.
Qed.

End Unicode.

Lemma norm_latin1 (s : string) :
  PyUnicode._norm (codes s) = codes (_norm s).
Proof.
  unfold PyUnicode._norm, _norm, codes, PyUnicode.strip, PyUnicode.lower,
    PyStr.norm_chars, PyStr.strip.
  rewrite list_ascii_of_string_of_list_ascii.
  rewrite lstrip_ord, rstrip_ord, lower_from_ord, split_ord.
  apply (join_ord [" "%char]).
Qed.

Lemma codes_no_capital_sigma (s : string) :
  PyUnicode.capital_sigma ∉ codes s.
Proof.
  unfold codes. intros (c & Hc & _)%list_elem_of_fmap.
  destruct (ord_facts c) as (_ & _ & Hs). apply N.eqb_neq in Hs. done.
Qed.

(** C8. [_norm] is idempotent on every string: [_norm (_norm s) = _norm
    s].  White space at either end does not change the normal form, and
    neither does replacing one internal run of white space by another of
    any length.  Two strings that differ in letter case only (same length,
    code point by code point the same lowercase mapping) have the same
    normal form when neither has a capital sigma, U+03A3, the one letter
    whose lowercase depends on where it stands.  The strings of code
    points below 256 have none, and on them the function is the [_norm]
    on [string] of the other statements. *)
Theorem norm_idempotent_space_insensitive_case_up_to_sigma :
  (∀ s, PyUnicode._norm (PyUnicode._norm s) = PyUnicode._norm s)
  ∧ (∀ ws1 s ws2,
       PyUnicode.all_space ws1 → PyUnicode.all_space ws2 →
       PyUnicode._norm (ws1 ++ s ++ ws2) = PyUnicode._norm s)
  ∧ (∀ u ws1 ws2 v,
       PyUnicode.all_space ws1 → PyUnicode.all_space ws2 →
       ws1 ≠ [] → ws2 ≠ [] →
       PyUnicode._norm (u ++ ws1 ++ v) = PyUnicode._norm (u ++ ws2 ++ v))
  ∧ (∀ s t,
       PyUnicode.same_up_to_case s t →
       PyUnicode.capital_sigma ∉ s → PyUnicode.capital_sigma ∉ t →
       PyUnicode._norm s = PyUnicode._norm t)
  ∧ (∀ s : string,
       (PyUnicode.capital_sigma ∉ codes s)
       ∧ PyUnicode._norm (codes s) = codes (_norm s)).
Proof.
  split; [exact uni_norm_idem|]. split.
  { intros ws1 s ws2 H1 H2. rewrite !uni_norm_words.
    rewrite uni_split_app_space_l by done.
    by rewrite uni_split_app_space_r. }
  split.
  { intros u ws1 ws2 v H1 H2 N1 N2. rewrite !uni_norm_words.
    by rewrite !uni_split_app_space. }
  split; [exact uni_norm_same_case|].
  intros s. split; [apply codes_no_capital_sigma|apply norm_latin1].
Qed.

(** ** Counterexamples and instances *)

(** C8, counterexample.  The Greek word for street in capitals and in
    small letters: the two differ in letter case only, the second being
    the first with every letter replaced by its lowercase mapping, and
    their normal forms differ in the last letter, a final sigma U+03C2 for
    the first and a sigma U+03C3 for the second. *)
Lemma norm_capital_sigma_case_sensitive :
  let s := [0x39f; 0x394; 0x39f; 0x3a3]%N in
  let t := [0x3bf; 0x3b4; 0x3bf; 0x3c3]%N in
  PyUnicode.same_up_to_case s t
  ∧ map PyUnicode.tolower s = t
  ∧ PyUnicode._norm s = [0x3bf; 0x3b4; 0x3bf; 0x3c2]%N
  ∧ PyUnicode._norm t = [0x3bf; 0x3b4; 0x3bf; 0x3c3]%N.
Proof.
  split; [repeat constructor|]. by vm_compute.
Qed.

(** C8 on the same word, on the name of Greece in capitals and in small
    letters between an ideographic space and a no-break space, and on
    "Carbon Dioxide". *)
Lemma norm_unicode_sample :
  PyUnicode._norm (PyUnicode._norm [0x39f; 0x394; 0x39f; 0x3a3]%N)
  = PyUnicode._norm [0x39f; 0x394; 0x39f; 0x3a3]%N
  ∧ PyUnicode._norm
      ([0x3000]%N ++ [0x395; 0x3bb; 0x3bb; 0x3b1; 0x3b4; 0x3b1]%N
       ++ [0xa0]%N)
    = PyUnicode._norm [0x395; 0x3bb; 0x3bb; 0x3b1; 0x3b4; 0x3b1]%N
  ∧ PyUnicode._norm [0x395; 0x39b; 0x39b; 0x391; 0x394; 0x391]%N
    = PyUnicode._norm [0x3b5; 0x3bb; 0x3bb; 0x3b1; 0x3b4; 0x3b1]%N
  ∧ PyUnicode._norm (codes "  Carbon   Dioxide ")
    = codes (_norm "  Carbon   Dioxide ").
Proof.
  destruct norm_idempotent_space_insensitive_case_up_to_sigma
    as (H1 & H2 & _ & H4 & H5).
  split; [apply H1|]. split.
  { apply H2; repeat constructor. }
  split; [|apply H5].
  apply H4; [repeat constructor| |];
    intros Hs; repeat (apply elem_of_cons in Hs as [Hs|Hs]; [done|]);
    by apply elem_of_nil in Hs.
Defined.

(** C6, counterexample.  A flow without [categories] is missing one of
    the four fields the specification lists, and still gets a key. *)
Lemma flow_without_categories_is_indexed :
  sample_bare_flow !! "categories" = None
  ∧ _build_biosphere_exact_index str_of_text
      (<["biosphere3" := [sample_bare_flow]]> ∅) "biosphere3"
    !! ("carbon dioxide", [], "kg")
    = Some ("biosphere3", "abc").
Proof. by vm_compute. Qed.

(** For the exchange "Unknown Pollutant X" in ("Soil",) with unit "KG",
    nothing to match and the creation of custom flows enabled, the loop
    does not do what a call of the factory with the original categories
    and unit would do: whatever [str] and [md5] are, the flow it stores
    has unit "kg". *)
Lemma synthetic_fallback_differs_from_original :
  ∀ (str : pyval → string) (md5 : list Byte.byte → string),
    let e := sample_biosphere_exchange "Unknown Pollutant X" ["Soil"] "KG" in
    let r := _get_or_create_custom_biosphere_flow str md5 ∅
               "biosphere_custom" "Unknown Pollutant X" ["Soil"] "KG" in
    fill_biosphere_exchange str md5 CFG_create ∅ ∅ ∅ (∅, 0) (PDict e)
    ≠ Ok ((r.1, 1), PDict (<["input" := ref_tuple r.2]> e)).
Proof.
  intros str md5 e r Heq.
  assert (H1 : get e "type" = PStr "biosphere") by (by vm_compute).
  assert (H2 : e !! "input" = None) by (by vm_compute).
  assert (H3 : get e "name" = PStr "Unknown Pollutant X") by (by vm_compute).
  assert (H4 : get e "unit" = PStr "KG") by (by vm_compute).
  pose proof (fill_biosphere_exchange_step_d str md5 CFG_create ∅ ∅ ∅ ∅ 0 e
                "Unknown Pollutant X" "KG" H1 H2 H3 H4) as Hd.
  cbv zeta in Hd. rewrite !lookup_empty in Hd.
  specialize (Hd eq_refl eq_refl eq_refl).
  rewrite Hd in Heq. clear Hd.
  change (allow_create_missing_biosphere_flows CFG_create) with true in Heq.
  cbv iota zeta in Heq.
  change (custom_biosphere_db_name CFG_create) with "biosphere_custom"
    in Heq.
  apply (f_equal (fun x : result (flow_store * nat * pyval) =>
                    match x with Ok p => p.1.1 | Raise _ => ∅ end)) in Heq.
  cbv beta iota in Heq. cbn [fst] in Heq. rename Heq into Hstore.
  set (cats_t := norm_categories str (get e "categories")) in *.
  destruct (get_or_create_stored str md5 ∅ "biosphere_custom"
              "Unknown Pollutant X" cats_t (_norm "KG"))
    as (_ & flows & Hflows & _ & _ & Hnew).
  rewrite Hstore in Hflows. specialize (Hnew eq_refl).
  subst r. unfold _get_or_create_custom_biosphere_flow in Hflows.
  cbv zeta in Hflows.
  rewrite ensure_custom_biosphere_db_lookup in Hflows.
  rewrite lookup_empty in Hflows.
  cbn [from_option id] in Hflows. rewrite lookup_empty in Hflows.
  cbn [fst] in Hflows. rewrite lookup_insert_eq in Hflows.
  injection Hflows as <-.
  apply lookup_insert_Some in Hnew as [[_ Hrec]|[_ Hnone]];
    [|by rewrite lookup_empty in Hnone].
  apply (f_equal (fun d : dict => d !! "unit")) in Hrec.
  by vm_compute in Hrec.
Qed.

(** C5, counterexample.  The same exchange with the sample built-ins: the
    exchange says ("Soil",) and "KG", the flow the loop creates and links
    says ("soil",) and "kg", and its code is the digest of the normalized
    unit, not the code of the original triple. *)
Lemma synthetic_fallback_normalizes_unit :
  let e := sample_biosphere_exchange "Unknown Pollutant X" ["Soil"] "KG" in
  let res :=
    fill_biosphere_exchange str_of_text spelled_digest CFG_create ∅ ∅ ∅
      (∅, 0) (PDict e) in
  let key := ("biosphere_custom", "Unknown Pollutant X||kg") in
  let stored :=
    match res with
    | Ok p => default ∅ (p.1.1 !! "biosphere_custom") !! key
    | Raise _ => None
    end in
  get e "categories" = PTuple [PStr "Soil"] ∧ get e "unit" = PStr "KG"
  ∧ match res with
    | Ok p => Some p.2
    | Raise _ => None
    end = Some (PDict (<["input" := ref_tuple key]> e))
  ∧ stored ≫= (fun flow => flow !! "categories")
    = Some (PTuple [PStr "soil"])
  ∧ stored ≫= (fun flow => flow !! "unit") = Some (PStr "kg")
  ∧ _custom_flow_code str_of_text spelled_digest "Unknown Pollutant X"
      ["Soil"] "KG"
    = "Unknown Pollutant X||KG".
Proof. by vm_compute. Qed.

(** *** The properties on the sample data *)

(** The statement for code points below 256, on "Carbon dioxide". *)
Lemma norm_sample :
  _norm (_norm "  Carbon   Dioxide ") = _norm "  Carbon   Dioxide "
  ∧ _norm "CARBON dioxide" = _norm "Carbon Dioxide"
  ∧ _norm ("  " +:+ "Carbon dioxide" +:+ " ") = _norm "Carbon dioxide"
  ∧ _norm ("Carbon" +:+ "   " +:+ "dioxide")
    = _norm ("Carbon" +:+ " " +:+ "dioxide").
Proof.
  destruct norm_idempotent_case_space_insensitive as (H1 & H2 & H3 & H4).
  split; [apply H1|]. split.
  { apply H2. unfold same_up_to_case. simpl. repeat constructor. }
  split.
  { apply H3; unfold all_space; simpl; repeat constructor. }
  apply H4; unfold all_space; simpl; repeat constructor; discriminate.
Defined.

(** C1 on Methane, which the sample collection has in air and in water
    with the same unit: the hint "air" selects the air flow, and without a
    hint nothing is selected. *)
Lemma stage_c_sample :
  let cands :=
    candidates_for_name (build_name_idx str_of_text sample_bd "biosphere3")
      "methane" in
  choose_best_candidate cands "kg" (Some "air") = Some ("biosphere3", "m-air")
  ∧ choose_best_candidate cands "kg" None = None.
Proof.
  intros cands. split.
  - destruct (stage_c_is_conservative str_of_text cands "kg" (Some "air"))
      as (H1 & _).
    apply (H1 "air" (Candidate "biosphere3" "m-air" ["air"] "kg"));
      [reflexivity|discriminate|by vm_compute].
  - destruct (stage_c_is_conservative str_of_text cands "kg" None)
      as (_ & _ & _ & _ & H5).
    apply (H5 sample_bd "biosphere3" "methane"
             sample_methane_air sample_methane_water
             "Methane" "kg" "m-air" "Methane" "kg" "m-water");
      [by vm_compute|by vm_compute|by vm_compute|reflexivity|discriminate
      |by left].
Defined.

(** C2 on the dataset ("m1", "p1") whose production exchange points to
    ("m1", "p2"). *)
Lemma production_mismatch_sample :
  ∃ err, _validate_importer_payload [sample_bad_dataset] = Raise err
         ∧ (_process_excel_write write_rows CFG [sample_bad_dataset] ∅).2
           = Raise err.
Proof.
  destruct (production_mismatch_rejected write_rows CFG [sample_bad_dataset]
              ∅ sample_bad_dataset "m1" "p1"
              (sample_exchange "production" (PInt 1) "m1" "p2")
              (PTuple [PStr "m1"; PStr "p2"]))
    as (_ & _ & _ & err & Hval & Hraise & _).
  - apply list_elem_of_here.
  - repeat split; (reflexivity || discriminate).
  - apply list_elem_of_here.
  - reflexivity.
  - reflexivity.
  - discriminate.
  - exists err. exact (conj Hval Hraise).
Defined.

(** C4 on an exchange whose amount is NaN. *)
Lemma nan_amount_sample :
  validate_exchange (PStr "m1") (PStr "p1")
    (PDict (sample_exchange "technosphere" (PFloat S754_nan) "bg" "c1"))
  = Raise (ValidationError NonNumericAmount (PStr "m1", PStr "p1")
             (PDict (sample_exchange "technosphere" (PFloat S754_nan)
                       "bg" "c1"))).
Proof.
  destruct amount_accepted_iff_not_nan as (_ & _ & H3).
  apply H3; first [reflexivity | eexists; reflexivity].
Defined.

(** C5 on "Unknown Pollutant X" with unit "KG": the stored flow has the
    normalized unit. *)
Lemma synthetic_fallback_sample :
  let e := sample_biosphere_exchange "Unknown Pollutant X" ["Soil"] "KG" in
  let r := _get_or_create_custom_biosphere_flow str_of_text spelled_digest ∅
             "biosphere_custom" "Unknown Pollutant X" ["soil"] "kg" in
  fill_biosphere_exchange str_of_text spelled_digest CFG_create ∅ ∅ ∅ (∅, 0)
    (PDict e)
  = Ok ((r.1, 1), PDict (<["input" := ref_tuple r.2]> e)).
Proof.
  intros e r.
  apply (synthetic_fallback_arguments str_of_text spelled_digest CFG_create
           ∅ ∅ ∅ ∅ 0 e "Unknown Pollutant X" "KG");
    reflexivity.
Defined.

(** C6 on a flow without code and on a flow without categories. *)
Lemma exact_index_sample :
  _build_biosphere_exact_index str_of_text
    (<["biosphere3" := [sample_co2; sample_uncoded_flow]]> ∅) "biosphere3"
  = _build_biosphere_exact_index str_of_text
      (<["biosphere3" := [sample_co2]]> ∅) "biosphere3"
  ∧ is_Some
      (_build_biosphere_exact_index str_of_text
         (<["biosphere3" := [sample_bare_flow]]> ∅) "biosphere3"
       !! (_norm "Carbon dioxide", [], _norm "kg")).
Proof.
  split.
  - destruct (exact_index_requires_name_unit_code str_of_text
                (<["biosphere3" := [sample_co2; sample_uncoded_flow]]> ∅)
                (<["biosphere3" := [sample_co2]]> ∅) "biosphere3")
      as (H1 & _).
    apply (H1 [sample_co2] [] sample_uncoded_flow);
      [reflexivity|reflexivity|].
    right; right. intros s Hs. vm_compute in Hs. by injection Hs as <-.
  - destruct (exact_index_requires_name_unit_code str_of_text
                (<["biosphere3" := [sample_bare_flow]]> ∅)
                (<["biosphere3" := [sample_bare_flow]]> ∅) "biosphere3")
      as (_ & _ & H3).
    apply (H3 sample_bare_flow "Carbon dioxide" "kg" "abc");
      [apply list_elem_of_here|reflexivity|reflexivity|reflexivity
      |discriminate|reflexivity].
Defined.

(** C7 on two orders of the sample collection. *)
Lemma exact_index_order_sample :
  _build_biosphere_exact_index str_of_text sample_bd "biosphere3"
  = _build_biosphere_exact_index str_of_text sample_bd_reordered "biosphere3".
Proof.
  apply (exact_index_order_independent str_of_text sample_bd
           sample_bd_reordered "biosphere3").
  - change (Database sample_bd "biosphere3")
      with [sample_co2; sample_methane_air; sample_methane_water].
    change (Database sample_bd_reordered "biosphere3")
      with [sample_methane_water; sample_co2; sample_methane_air].
    apply Permutation_sym.
    apply (Permutation_cons_app [sample_co2; sample_methane_air] []).
    reflexivity.
  - refine (@bool_decide_unpack _ (NoDup_dec _) _). by vm_compute.
Defined.

(** C9 on a technosphere exchange that names "ecoinvent 3.9" while only
    "biosphere3" is registered. *)
Lemma technosphere_skip_sample :
  _fill_missing_technosphere_inputs sample_bd
    [Activity ∅ [PDict sample_unlinked_technosphere]]
  = ([Activity ∅ [PDict sample_unlinked_technosphere]], 0)
  ∧ (fill_technosphere_loop sample_bd
       [Activity ∅ [PDict sample_unlinked_technosphere]]).1.1
    !! "ecoinvent 3.9" = None.
Proof.
  destruct (technosphere_unknown_database_skipped sample_bd)
    as (_ & H2 & H3).
  split.
  - apply H3. repeat constructor.
    exists sample_unlinked_technosphere. split; [reflexivity|].
    split; [reflexivity|]. split; [reflexivity|].
    intros db_name Hdb. vm_compute in Hdb. injection Hdb as <-.
    apply not_elem_of_dom. reflexivity.
  - apply H2. apply not_elem_of_dom. reflexivity.
Defined.

(** C10 on the dataset that has no code. *)
Lemma production_check_skipped_sample :
  validate_activity sample_anonymous_dataset = Ok tt
  ∧ _validate_importer_payload [sample_anonymous_dataset] = Ok tt.
Proof.
  apply production_check_skipped_without_identity.
  - intros (da & co & _ & Hcode & _). discriminate Hcode.
  - repeat constructor.
    exists (sample_exchange "production" (PInt 1) "m1" "p2"), (PInt 1),
      "m1", "p2".
    repeat split; (reflexivity || discriminate).
Defined.

(** *** The scenarios of the specification *)

Example norm_example :
  _norm "  Carbon   Dioxide,	FOSSIL " = "carbon dioxide, fossil".
Proof. reflexivity. Qed.

(** Scenario 1: an exact match. *)
Example scenario_exact :
  _fill_missing_biosphere_inputs str_of_text spelled_digest CFG sample_bd ∅
    [Activity ∅
       [PDict (sample_biosphere_exchange "Carbon dioxide" ["air"] "kg")]]
    "biosphere3" None
  = Ok (∅,
        [Activity ∅
           [PDict (<["input" := PTuple [PStr "biosphere3"; PStr "abc"]]>
                     (sample_biosphere_exchange "Carbon dioxide" ["air"]
                        "kg"))]],
        1).
Proof. by vm_compute. Qed.

(** Scenario 2: a match through the mapping file. *)
Example scenario_mapped :
  _fill_missing_biosphere_inputs str_of_text spelled_digest CFG sample_bd ∅
    [Activity ∅
       [PDict (sample_biosphere_exchange "Carbon dioxide, fossil" ["air"]
                 "kg")]]
    "biosphere3" (Some {[ "carbon dioxide, fossil" := "Carbon dioxide" ]})
  = Ok (∅,
        [Activity ∅
           [PDict (<["input" := PTuple [PStr "biosphere3"; PStr "abc"]]>
                     (sample_biosphere_exchange "Carbon dioxide, fossil"
                        ["air"] "kg"))]],
        1).
Proof. by vm_compute. Qed.

(** With the shipped configuration an exchange that nothing matches is
    fatal. *)
Example scenario_unresolved :
  _fill_missing_biosphere_inputs str_of_text spelled_digest CFG sample_bd ∅
    [Activity ∅
       [PDict (sample_biosphere_exchange "Unknown Pollutant X" ["soil"]
                 "kg")]]
    "biosphere3" None
  = Raise (UnresolvedBiosphere "Unknown Pollutant X" "Unknown Pollutant X"
             (PTuple [PStr "soil"]) "kg").
Proof. by vm_compute. Qed.

(** Scenario 4: the production exchange of ("m1", "p1") points to
    ("m1", "p2"). *)
Example scenario_production :
  _validate_importer_payload [sample_bad_dataset]
  = Raise (ValidationError
             (ProductionTarget "m1" "p1" (PTuple [PStr "m1"; PStr "p2"]))
             (PStr "m1", PStr "p1")
             (PDict (sample_exchange "production" (PInt 1) "m1" "p2"))).
Proof. by vm_compute. Qed.

(** *** The further properties on the sample data *)

(** X1 on the reference "m1::p1". *)
Lemma normalize_inputs_sample :
  normalize_exchange_input 0 (PDict sample_string_reference)
  = (1, PDict (<["input" := ref_tuple ("m1", "p1")]> sample_string_reference)).
Proof.
  destruct (normalize_inputs_splits_references []) as [_ H].
  apply (H sample_string_reference "m1" "p1" 0); [reflexivity|].
  unfold colon_free. simpl. repeat constructor; discriminate.
Defined.

(** X3 on an exchange of the database "bg" that refers to ("bg", "c1"),
    with the labels "bg" and "ecoinvent 3.9". *)
Lemma background_label_sample :
  let e := <["database" := PStr "bg"]>
             (sample_exchange "technosphere" (PInt 1) "bg" "c1") in
  let e' := <["database" := PStr "ecoinvent 3.9"]>
              (sample_exchange "technosphere" (PInt 1) "ecoinvent 3.9"
                 "c1") in
  let data := [Activity ∅ [PDict e]] in
  let data1 := (_rewrite_background_db_label data "bg" "ecoinvent 3.9").1 in
  data1 = [Activity ∅ [PDict e']]
  ∧ exchanges_related (relabelled_from "bg" "ecoinvent 3.9") data data1
  ∧ _rewrite_background_db_label data1 "bg" "ecoinvent 3.9" = (data1, 0)
  ∧ _rewrite_background_db_label data "bg" "bg" = (data, 0).
Proof.
  intros e e' data data1.
  destruct (background_label_rewritten data "bg" "ecoinvent 3.9")
    as (H1 & H2 & H3); [discriminate|].
  split; [by vm_compute|]. exact (conj H1 (conj H2 H3)).
Defined.

(** X6 on the dataset ("m1", "p1") followed by a dataset that would pass. *)
Lemma validation_first_error_sample :
  _validate_importer_payload [sample_bad_dataset; sample_anonymous_dataset]
  = Raise (ValidationError
             (ProductionTarget "m1" "p1" (PTuple [PStr "m1"; PStr "p2"]))
             (PStr "m1", PStr "p1")
             (PDict (sample_exchange "production" (PInt 1) "m1" "p2"))).
Proof.
  apply (validation_reports_first_error [] [sample_anonymous_dataset]
           sample_bad_dataset [] []
           (PDict (sample_exchange "production" (PInt 1) "m1" "p2")));
    [reflexivity|reflexivity|constructor|reflexivity].
Defined.

(** X7 on the rejected dataset ("m1", "p1") with "m1" and "biosphere3"
    registered. *)
Lemma overwrite_sample :
  let bd := <["m1" := []]> sample_bd in
  ∃ bd1 : brightway,
    bd1 !! "m1" = None ∧ bd1 !! "biosphere3" = sample_bd !! "biosphere3"
    ∧ ∃ err, _process_excel_write write_rows CFG [sample_bad_dataset] bd
             = (bd1, Raise err).
Proof.
  intros bd.
  destruct (overwrite_precedes_validation write_rows CFG [sample_bad_dataset]
              bd eq_refl) as (_ & bd1 & Hbd1 & Hres).
  exists bd1. split; [|split].
  - rewrite (Hbd1 "m1"). reflexivity.
  - rewrite (Hbd1 "biosphere3"). reflexivity.
  - rewrite Hres. eexists. reflexivity.
Defined.

(** X10 on the steel exchange with "ecoinvent 3.9" registered. *)
Lemma technosphere_target_sample :
  ∃ c, technosphere_target sample_bd_technosphere
         (PDict sample_unlinked_technosphere)
       = Some ("ecoinvent 3.9", c).
Proof.
  destruct (technosphere_target_matches_reference sample_bd_technosphere
              sample_unlinked_technosphere) as [_ H].
  apply (H "ecoinvent 3.9" "market for steel" "steel" "GLO" sample_process
           "s1");
    first [reflexivity | discriminate | apply list_elem_of_here
          | apply elem_of_dom; eexists; reflexivity].
Defined.

(** X11 on the steel exchange while only "biosphere3" is registered: the
    validator reports the missing [input]. *)
Lemma unresolved_technosphere_sample :
  validate_exchange PNone PNone (PDict sample_unlinked_technosphere)
  = Raise (ValidationError (MissingKeys ["input"]) (PNone, PNone)
             (PDict sample_unlinked_technosphere))
  ∧ ∃ err,
      _validate_importer_payload
        (_fill_missing_technosphere_inputs sample_bd
           [Activity ∅ [PDict sample_unlinked_technosphere]]).1
      = Raise err.
Proof.
  destruct (unresolved_technosphere_fails_validation sample_bd
              [Activity ∅ [PDict sample_unlinked_technosphere]]
              (Activity ∅ [PDict sample_unlinked_technosphere])
              sample_unlinked_technosphere) as (H1 & _ & H3);
    [apply list_elem_of_here|apply list_elem_of_here|reflexivity
    |reflexivity|].
  exact (conj H1 H3).
Defined.

(** X12 on the exchange of scenario 1 beside an exchange that has its
    reference. *)
Lemma biosphere_fill_sample :
  let linked := PDict (sample_exchange "technosphere" (PInt 1) "bg" "c1") in
  let e := sample_biosphere_exchange "Carbon dioxide" ["air"] "kg" in
  let data' :=
    [Activity ∅
       [linked; PDict (<["input" := ref_tuple ("biosphere3", "abc")]> e)]] in
  exchanges_related
    (fun exc exc' =>
       (unlinked_biosphere exc →
        ∃ (e : dict) k,
          exc = PDict e ∧ exc' = PDict (<["input" := ref_tuple k]> e))
       ∧ (¬ unlinked_biosphere exc → exc' = exc))
    [Activity ∅ [linked; PDict e]] data'.
Proof.
  intros linked e data'.
  destruct (biosphere_fill_links_every_unlinked str_of_text spelled_digest
              CFG sample_bd ∅ ∅ [Activity ∅ [linked; PDict e]] data'
              "biosphere3" None 1) as [H _]; [by vm_compute|exact H].
Defined.

(** X13 on "Unknown Pollutant X" with the creation of custom flows
    enabled. *)
Lemma biosphere_fill_never_raises_sample :
  ∃ r, _fill_missing_biosphere_inputs str_of_text spelled_digest CFG_create
         sample_bd ∅
         [Activity ∅
            [PDict (sample_biosphere_exchange "Unknown Pollutant X" ["soil"]
                      "kg")]]
         "biosphere3" None
       = Ok r.
Proof.
  destruct (biosphere_fill_raises_only_unresolved str_of_text spelled_digest
              CFG_create sample_bd ∅
              [Activity ∅
                 [PDict (sample_biosphere_exchange "Unknown Pollutant X"
                           ["soil"] "kg")]]
              "biosphere3" None) as [H _].
  apply H. reflexivity.
Defined.

(** X14 on three candidates, the first two with the same (database,
    code): the first of the two is the one that stays. *)
Lemma dedup_candidates_sample :
  let c1 := Candidate "biosphere3" "m-air" ["air"] "kg" in
  let c2 := Candidate "biosphere3" "m-air" ["water"] "kg" in
  let c3 := Candidate "biosphere3" "m-water" ["water"] "kg" in
  dedup_candidates [c1; c3] = [c1; c3]
  ∧ dedup_candidates [c1; c2; c3] = [c1; c3].
Proof.
  intros c1 c2 c3. split.
  - destruct (dedup_candidates_keeps_first [c1; c3]) as (_ & _ & _ & H & _).
    apply H. refine (@bool_decide_unpack _ (NoDup_dec _) _). by vm_compute.
  - destruct (dedup_candidates_keeps_first [c2; c3])
      as (_ & _ & _ & _ & H & _).
    rewrite (H c1). by vm_compute.
Defined.

(** X15 on Methane with the hint "air". *)
Lemma chosen_candidate_sample :
  let cands := [Candidate "biosphere3" "m-air" ["air"] "kg";
                Candidate "biosphere3" "m-water" ["water"] "kg"] in
  ∃ c, c ∈ cands ∧ ("biosphere3", "m-air") = (cand_db c, cand_code c)
       ∧ (Exists (fun c' => cand_unit c' = "kg") cands →
          cand_unit c = "kg").
Proof.
  intros cands.
  apply (chosen_candidate_is_a_candidate cands "kg" (Some "air")).
  reflexivity.
Defined.

(** X17 on two flows with the key of "Carbon dioxide": the later one is
    the one the index keeps. *)
Lemma exact_index_last_wins_sample :
  _build_biosphere_exact_index str_of_text
    (<["biosphere3" := [sample_co2; sample_co2_again]]> ∅) "biosphere3"
  !! exact_key str_of_text sample_co2_again "carbon  dioxide" "KG"
  = Some ("biosphere3", "xyz")
  ∧ exact_key str_of_text sample_co2_again "carbon  dioxide" "KG"
    = exact_key str_of_text sample_co2 "Carbon dioxide" "kg".
Proof.
  split; [|reflexivity].
  apply (exact_index_last_wins str_of_text
           (<["biosphere3" := [sample_co2; sample_co2_again]]> ∅)
           "biosphere3" [sample_co2] [] sample_co2_again);
    [reflexivity|reflexivity|constructor].
Defined.

(** X20 on the row of scenario 2. *)
Lemma mapping_fix_sample :
  mapping_fix_of_rows [(PStr "Carbon dioxide, fossil ", PStr " Carbon dioxide")]
  !! _norm "Carbon dioxide, fossil "
  = Some (str_strip " Carbon dioxide").
Proof.
  destruct (mapping_fix_rows_normalized []) as (_ & _ & H).
  apply (H "Carbon dioxide, fossil " " Carbon dioxide");
    intros Hs; apply Forall_cons in Hs as [Hc Hs];
    [discriminate Hc|].
  apply Forall_cons in Hs as [Hc' _]. discriminate Hc'.
Defined.

(** X16 on a store that already has a database of its own. *)
Lemma get_or_create_sample :
  let store : flow_store := <["project_flows" := ∅]> ∅ in
  let r := _get_or_create_custom_biosphere_flow str_of_text spelled_digest
             store "biosphere_custom" "Unknown Pollutant X" ["soil"] "kg" in
  r.1 !! "project_flows" = store !! "project_flows".
Proof.
  intros store r.
  destruct (get_or_create_preserves_store str_of_text spelled_digest store
              "biosphere_custom" "Unknown Pollutant X" ["soil"] "kg")
    as (H & _ & _).
  apply H. discriminate.
Defined.
